(** * Qavo scanner: the scan orchestration core

    A shallow embedding of the TypeScript services

      - [ScanOrchestrator]      (scanOrchestrator.ts, the five-module version)
      - [PerformanceScanner]    (src/services/performanceScanner.ts)
      - [AccessibilityScanner]  (src/services/accessibilityScanner.ts)
      - [SEOScanner]            (src/services/seoScanner.ts)
      - [SecurityScanner]       (src/services/securityScanner.ts)
      - [BestPracticesScanner]  (bestPracticesScanner.ts)

    and the properties of the specification that are about them; then of
    what surrounds them:

      - [Server]                (server.ts, [POST /api/scan] of the orchestrator)
      - [ScanService]           (the accessibility-only service and its
                                 [POST /api/scan])
      - [StartScan]             (the start-scan edge function).

    Conventions of the embedding.

    - An [async] method is a computation in the monad [Eff L]: it reads and
      writes its own local variables [L] and the [World] (the orchestrator's
      [browser] field and the rows sent to the store), and either returns a
      value or throws.  A [try { .. } catch (e) { .. }] block is [try_catch];
      the locals and the world survive a throw, as they do in JavaScript.
    - The store is modelled by the sequence of requests sent to it ([DbOp]),
      oldest first.  A query-builder call of supabase-js resolves to
      [{ data, error }] and does not reject, so a store request never throws
      here; the one result the code reads back, the [data] of the
      [qa_tests] insert, is part of the environment.  The [last_run] and
      [completed_at] time stamps are left out.
    - Everything the code obtains from the browser, from axe and from
      Lighthouse is given by an environment record, one field per call, each
      an [outcome]: the value returned or the exception thrown.
    - A JavaScript number is a double: its value as a rational when it is
      finite, [NonFinite] otherwise ([Infinity], [NaN]).  Division,
      multiplication and addition round as IEEE 754 binary64 does
      ([SpecFloat]).
    - A JavaScript string is a [string], one character for each of its code
      units, so that [String.length] is its [length]; a string is truthy
      when it is not empty. *)

From Stdlib Require Import ZArith QArith Qabs SpecFloat List Ascii String Sorted Lia.
From stdpp Require Import base strings gmap list sorting pretty.

Open Scope Z_scope.
Open Scope string_scope.
Open Scope list_scope.

(** ** Exceptions and the effect monad *)

(** A thrown value: an [Error] (or subclass) with its message, or anything
    else. *)
Inductive JsThrown : Type :=
| ErrorObj (message : string)
| NotAnError.

Inductive outcome (A : Type) : Type :=
| Returned (a : A)
| Threw (e : JsThrown).
Arguments Returned {A} a.
Arguments Threw {A} e.

(** ** JavaScript numbers *)

Inductive jsnum : Type :=
| Fin (q : Q)
| NonFinite.

(** An integer literal or counter; the ones of this program are far below
    2^53, so they are doubles as they stand. *)
Definition js_of_Z (z : Z) : jsnum := Fin (inject_Z z).

(** The double nearest to an integer: 53 bits of precision, exponents below
    1024. *)
Definition double_of_Z (z : Z) : spec_float := binary_normalize 53 1024 z 0 false.

(** The value of a double, in lowest terms. *)
Definition number_of (x : spec_float) : jsnum :=
  match x with
  | S754_zero _ => Fin 0
  | S754_finite s m e =>
    Fin (Qred (inject_Z (if s then Z.neg m else Z.pos m)
               * (if Z.leb 0 e then inject_Z (2 ^ e)
                  else 1 # Pos.pow 2 (Z.to_pos (- e)))))
  | S754_infinity _ | S754_nan => NonFinite
  end.

(** The double of a value; on the value of a double, whose denominator is a
    power of two, the division is exact. *)
Definition double_of (q : Q) : spec_float :=
  SFdiv 53 1024 (double_of_Z (Qnum q)) (double_of_Z (Z.pos (Qden q))).

(** [a / b] on two integers: the quotient rounded to the nearest double;
    [0 / 0] is [NaN] and [a / 0] an infinity. *)
Definition js_div (a b : Z) : jsnum :=
  number_of (SFdiv 53 1024 (double_of_Z a) (double_of_Z b)).

Definition js_mul (a b : jsnum) : jsnum :=
  match a, b with
  | Fin x, Fin y => number_of (SFmul 53 1024 (double_of x) (double_of y))
  | _, _ => NonFinite
  end.

Definition js_add (a b : jsnum) : jsnum :=
  match a, b with
  | Fin x, Fin y => number_of (SFadd 53 1024 (double_of x) (double_of y))
  | _, _ => NonFinite
  end.

(** ** The data model *)

(** What a module returns for each finding: [{ severity }]. *)
Record Issue : Type := { severity : string }.

(** A row of [qa_issues]. *)
Record IssueRow : Type := {
  test_id : string;
  scan_id : string;
  title : string;
  description : string;
  row_severity : string;
  category : string;
  element : option string;
  location_url : string;
  location_selector : option string;
  recommendation : string;
  status : string
}.

(** The [summary] object of a completed scan. *)
Record Summary : Type := {
  totalIssues : Z;
  criticalIssues : Z;
  overallScore : Z;
  completedTests : Z;
  totalTests : Z
}.

(** The [data] of [insert(..).select('id').single()] on [qa_tests]. *)
Record TestRow : Type := { id : string }.

(** The update of a [qa_tests] row at the end of a module. *)
Inductive TestUpdate : Type :=
| TestCompleted (score : jsnum)      (* { status: 'completed', score, progress: 100 } *)
| TestFailed.                        (* { status: 'failed' } *)

(** The requests sent to the store. *)
Inductive DbOp : Type :=
| InsertTest (scanId name cat st : string) (progress : Z)
| UpdateTest (testId : string) (u : TestUpdate)
| InsertIssue (row : IssueRow)
| UpdateScan (scanId st : string) (progress : jsnum)
| CompleteScan (scanId : string) (summary : Summary)
| FailScan (scanId error : string).

Record World : Type := {
  browser : bool;          (* [this.browser] is not null *)
  db : list DbOp
}.

Definition Eff (L A : Type) : Type := L -> World -> (L * World) * outcome A.

Definition ret {L A} (a : A) : Eff L A := fun l w => ((l, w), Returned a).

Definition bind {L A B} (m : Eff L A) (k : A -> Eff L B) : Eff L B :=
  fun l w =>
    match m l w with
    | (lw, Returned a) => k a (fst lw) (snd lw)
    | (lw, Threw e) => (lw, Threw e)
    end.

Definition throw {L A} (e : JsThrown) : Eff L A := fun l w => ((l, w), Threw e).

(** [try { body } catch (e) { handler e }]. *)
Definition try_catch {L A} (body : Eff L A) (handler : JsThrown -> Eff L A) : Eff L A :=
  fun l w =>
    match body l w with
    | (lw, Returned a) => (lw, Returned a)
    | (lw, Threw e) => handler e (fst lw) (snd lw)
    end.

(** The result of an external call, taken from the environment. *)
Definition await {L A} (o : outcome A) : Eff L A := fun l w => ((l, w), o).

Definition get_locals {L} : Eff L L := fun l w => ((l, w), Returned l).
Definition set_locals {L} (l' : L) : Eff L unit := fun _ w => ((l', w), Returned tt).
Definition get_world {L} : Eff L World := fun l w => ((l, w), Returned w).

(** A request to the store: appended to the log, never throws. *)
Definition send {L} (op : DbOp) : Eff L unit :=
  fun l w => ((l, {| browser := browser w; db := db w ++ [op] |}), Returned tt).

Definition set_browser {L} (b : bool) : Eff L unit :=
  fun l w => ((l, {| browser := b; db := db w |}), Returned tt).

(** A method call: the callee runs on its own locals, which start as [init]
    and are dropped when it returns or throws. *)
Definition call {L L' A} (init : L') (m : Eff L' A) : Eff L A :=
  fun l w =>
    match m init w with
    | ((_, w'), r) => ((l, w'), r)
    end.

Declare Scope eff_scope.
Delimit Scope eff_scope with eff.
Notation "x <- c ;; k" := (bind c (fun x => k))
  (at level 100, c at next level, right associativity) : eff_scope.
Notation "c ;;; k" := (bind c (fun _ => k))
  (at level 100, right associativity) : eff_scope.
Notation "'when' b 'then' c" := (if b then c else ret tt)
  (at level 100, b at next level, c at level 100) : eff_scope.
Open Scope eff_scope.

(** Truthiness of a string ([!s] is [true] for the empty string). *)
Definition truthy (s : string) : bool := negb (String.eqb s "").
Definition truthy_opt (o : option string) : bool :=
  match o with Some s => truthy s | None => false end.

(** ** What the five scanner modules share *)

(** The two local variables of every [scan] method:
    [const issues: any[] = []] and [let testId: string | null = null]. *)
Record ModuleLocals : Type := {
  issues : list Issue;
  testId : option string
}.

Definition fresh : ModuleLocals := {| issues := []; testId := None |}.

(** [issues.push(i)] *)
Definition push (i : Issue) : Eff ModuleLocals unit :=
  l <- get_locals ;;
  set_locals {| issues := issues l ++ [i]; testId := testId l |}.

(** [testId = test.id] *)
Definition assign_testId (t : string) : Eff ModuleLocals unit :=
  l <- get_locals ;;
  set_locals {| issues := issues l; testId := Some t |}.

(** [supabase.from('qa_tests').insert({ scan_id, name, category,
    status: 'running', progress: 0 }).select('id').single()]: the request
    goes out and [data] is what the environment says. *)
Definition insert_test {L} (scanId name cat : string) (data : option TestRow)
  : Eff L (option TestRow) :=
  send (InsertTest scanId name cat "running" 0) ;;;
  ret data.

(** The [catch] block of every [scan] method:
    [if (testId) { await supabase.from('qa_tests')
                     .update({ status: 'failed' }).eq('id', testId) }]. *)
Definition on_error (error : JsThrown) : Eff ModuleLocals unit :=
  l <- get_locals ;;
  match testId l with
  | Some t => when truthy t then send (UpdateTest t TestFailed)
  | None => ret tt
  end.

(** [return issues] *)
Definition return_issues : Eff ModuleLocals (list Issue) :=
  l <- get_locals ;;
  ret (issues l).

(** [Math.max(0, 100 - issues.length * k)] *)
Definition flat_score (k : Z) (l : list Issue) : jsnum :=
  js_of_Z (Z.max 0 (100 - Z.of_nat (length l) * k)).

(** ** SEOScanner (src/services/seoScanner.ts) *)

Module SEOScanner.

Record Env : Type := {
  test : option TestRow;                 (* data of the qa_tests insert *)
  page_title : outcome string;           (* page.title() *)
  meta_count : outcome nat;              (* page.locator('meta[name="description"]').count() *)
  meta_content : outcome (option string);(* .first().getAttribute('content') *)
  h1_count : outcome nat                 (* page.locator('h1').count() *)
}.

Definition createIssue {L}
  (testId scanId url title description severity recommendation : string)
  : Eff L Issue :=
  send (InsertIssue {|
    test_id := testId;
    scan_id := scanId;
    title := title;
    description := description;
    row_severity := severity;
    category := "seo";
    element := None;
    location_url := url;
    location_selector := None;
    recommendation := recommendation;
    status := "open" |}) ;;;
  ret {| severity := severity |}.

(** The body of the [try] block. *)
Definition scan_try (env : Env) (url scanId : string) : Eff ModuleLocals unit :=
  test <- insert_test scanId "SEO Audit" "seo" (test env) ;;
  match test with
  | None => throw (ErrorObj "Failed to create SEO test record.")
  | Some test =>
    let testId := id test in
    assign_testId testId ;;;

    title <- await (page_title env) ;;
    (if negb (truthy title) then
       i <- createIssue testId scanId url "Missing Title Tag"
              "The title tag is missing from the page." "high"
              "Add a unique and descriptive title tag to the page head." ;;
       push i
     else if Nat.ltb 60 (String.length title) then
       i <- createIssue testId scanId url "Title Tag Too Long"
              ("The title tag is " +:+ pretty (String.length title)
                 +:+ " characters long. It should be 60 characters or less.")
              "medium"
              "Shorten the title tag to be more concise and impactful." ;;
       push i
     else ret tt) ;;;

    metaCount <- await (meta_count env) ;;
    (if Nat.eqb metaCount 0 then
       i <- createIssue testId scanId url "Missing Meta Description"
              "The meta description is missing." "high"
              "Add a compelling meta description to improve click-through rates from search results." ;;
       push i
     else
       metaDescription <- await (meta_content env) ;;
       if negb (truthy_opt metaDescription) then
         i <- createIssue testId scanId url "Missing Meta Description"
                "The meta description is missing." "high"
                "Add a compelling meta description to improve click-through rates from search results." ;;
         push i
       else if Nat.ltb 160 (String.length (default "" metaDescription)) then
         i <- createIssue testId scanId url "Meta Description Too Long"
                ("The meta description is "
                   +:+ pretty (String.length (default "" metaDescription))
                   +:+ " characters long. It should be 160 characters or less.")
                "medium"
                "Shorten the meta description to ensure it is fully visible in search results." ;;
         push i
       else ret tt) ;;;

    h1Count <- await (h1_count env) ;;
    (if Nat.eqb h1Count 0 then
       i <- createIssue testId scanId url "Missing H1 Tag"
              "The page is missing an H1 tag." "high"
              "Add a single, descriptive H1 tag to the page to indicate the main topic." ;;
       push i
     else if Nat.ltb 1 h1Count then
       i <- createIssue testId scanId url "Multiple H1 Tags"
              ("The page has " +:+ pretty h1Count
                 +:+ " H1 tags. There should be only one.")
              "medium"
              "Consolidate the H1 tags into a single, primary heading." ;;
       push i
     else ret tt) ;;;

    l <- get_locals ;;
    let score := flat_score 10 (issues l) in
    send (UpdateTest testId (TestCompleted score))
  end.

Definition scan {L} (env : Env) (url scanId : string) : Eff L (list Issue) :=
  call fresh
    (try_catch (scan_try env url scanId) on_error ;;;
     return_issues).

End SEOScanner.

(** ** SecurityScanner (src/services/securityScanner.ts) *)

Module SecurityScanner.

(** A navigation response; only its headers are read. *)
Record Response : Type := { headers : gmap string string }.

Record Env : Type := {
  test : option TestRow;                 (* data of the qa_tests insert *)
  page_goto : outcome (option Response)  (* page.goto(url) *)
}.

Definition createIssue {L}
  (testId scanId url title description severity recommendation : string)
  : Eff L unit :=
  send (InsertIssue {|
    test_id := testId;
    scan_id := scanId;
    title := title;
    description := description;
    row_severity := severity;
    category := "security";
    element := None;
    location_url := url;
    location_selector := None;
    recommendation := recommendation;
    status := "open" |}).

(** [!securityHeaders[name]] *)
Definition header_missing (securityHeaders : gmap string string) (name : string) : bool :=
  negb (truthy_opt (securityHeaders !! name)).

Definition scan_try (env : Env) (url scanId : string) : Eff ModuleLocals unit :=
  test <- insert_test scanId "Security Audit" "security" (test env) ;;
  match test with
  | None => throw (ErrorObj "Failed to create Security test record.")
  | Some test =>
    let testId := id test in
    assign_testId testId ;;;

    response <- await (page_goto env) ;;
    let securityHeaders :=
      match response with
      | Some r => headers r
      | None => ∅
      end in

    (when negb (String.prefix "https" url) then
       createIssue testId scanId url "No HTTPS"
         "The page is not served over HTTPS." "high"
         "Enable HTTPS to secure the connection between the server and the user." ;;;
       push {| severity := "high" |}) ;;;

    (when header_missing securityHeaders "content-security-policy" then
       createIssue testId scanId url "Missing Content-Security-Policy Header"
         "The Content-Security-Policy (CSP) header is missing." "medium"
         "Implement a strict CSP to prevent XSS and other injection attacks." ;;;
       push {| severity := "medium" |}) ;;;

    (when header_missing securityHeaders "x-frame-options" then
       createIssue testId scanId url "Missing X-Frame-Options Header"
         "The X-Frame-Options header is missing." "medium"
         "Use the X-Frame-Options header to prevent clickjacking attacks." ;;;
       push {| severity := "medium" |}) ;;;

    l <- get_locals ;;
    let score := flat_score 10 (issues l) in
    send (UpdateTest testId (TestCompleted score))
  end.

Definition scan {L} (env : Env) (url scanId : string) : Eff L (list Issue) :=
  call fresh
    (try_catch (scan_try env url scanId) on_error ;;;
     return_issues).

End SecurityScanner.

(** ** AccessibilityScanner (src/services/accessibilityScanner.ts) *)

Module AccessibilityScanner.

(** The parts of an axe result the scanner reads. *)
Record Node : Type := {
  html : string;
  target : list string;
  failureSummary : option string
}.

Record Violation : Type := {
  impact : option string;
  help : string;
  helpUrl : string;
  v_description : string;
  nodes : list Node
}.

Record Env : Type := {
  test : option TestRow;                (* data of the qa_tests insert *)
  analyze : outcome (list Violation)    (* (await new AxeBuilder({ page }).analyze()).violations *)
}.

Definition mapping : gmap string string :=
  list_to_map [("critical", "critical"); ("serious", "high");
               ("moderate", "medium"); ("minor", "low")].

(** [(impact && mapping[impact]) || 'medium'] *)
Definition mapImpact (impact : option string) : string :=
  match impact with
  | Some i =>
    if truthy i then
      match mapping !! i with
      | Some s => if truthy s then s else "medium"
      | None => "medium"
      end
    else "medium"
  | None => "medium"
  end.

(** [target.join(', ')] *)
Fixpoint join (sep : string) (l : list string) : string :=
  match l with
  | [] => ""
  | [s] => s
  | s :: rest => s +:+ sep +:+ join sep rest
  end.

(** [for (const x of xs) { body x }] *)
Fixpoint for_of {L A} (xs : list A) (body : A -> Eff L unit) : Eff L unit :=
  match xs with
  | [] => ret tt
  | x :: rest => body x ;;; for_of rest body
  end.

Definition scan_try (env : Env) (url scanId : string) : Eff ModuleLocals unit :=
  test <- insert_test scanId "Accessibility Audit" "accessibility" (test env) ;;
  match test with
  | None => throw (ErrorObj "Failed to create accessibility test record.")
  | Some test =>
    let testId := id test in
    assign_testId testId ;;;

    violations <- await (analyze env) ;;

    for_of violations (fun violation =>
      let severity := mapImpact (impact violation) in
      for_of (nodes violation) (fun node =>
        let issuePayload := {|
          test_id := testId;
          scan_id := scanId;
          title := help violation;
          description :=
            (if truthy_opt (failureSummary node)
             then default "" (failureSummary node)
             else v_description violation);
          row_severity := severity;
          category := "accessibility";
          element := Some (html node);
          location_url := url;
          location_selector := Some (join ", " (target node));
          recommendation := help violation +:+ ". Learn more: " +:+ helpUrl violation;
          status := "open" |} in
        send (InsertIssue issuePayload) ;;;
        push {| severity := severity |})) ;;;

    l <- get_locals ;;
    let score := flat_score 5 (issues l) in
    send (UpdateTest testId (TestCompleted score))
  end.

Definition scan {L} (env : Env) (url scanId : string) : Eff L (list Issue) :=
  call fresh
    (try_catch (scan_try env url scanId) on_error ;;;
     return_issues).

End AccessibilityScanner.

(** ** PerformanceScanner (src/services/performanceScanner.ts) *)

Module PerformanceScanner.

(** One Lighthouse audit. *)
Record Audit : Type := {
  a_score : option Q;                (* number | null *)
  a_title : string;
  a_description : string;
  displayValue : option string
}.

(** [lighthouseResult.lhr]: the audits and [categories.performance.score]. *)
Record Lhr : Type := {
  audits : gmap string Audit;
  performance_score : option Q
}.

Record Env : Type := {
  test : option TestRow;                 (* data of the qa_tests insert *)
  context_browser : option unit;         (* page.context().browser(), null or a browser *)
  ws_port : outcome string;              (* (new URL(browser.wsEndpoint())).port *)
  lighthouse : outcome (option Lhr)      (* lighthouse(url, ..), undefined or a result *)
}.

(** [x || 0] on a number or null. *)
Definition or_0 (x : option Q) : Q :=
  match x with
  | Some q => q
  | None => 0%Q
  end.

(** [audit?.score !== 1] *)
Definition score_is_not_1 (audit : option Audit) : bool :=
  match audit with
  | Some a =>
    match a_score a with
    | Some q => negb (Qeq_bool q 1)
    | None => true
    end
  | None => true
  end.

(** Reading a property of [audits[name]]; a [TypeError] when the audit is
    not there. *)
Definition the_audit {L} (audit : option Audit) : Eff L Audit :=
  match audit with
  | Some a => ret a
  | None => throw (ErrorObj "Cannot read properties of undefined")
  end.

(** A template literal prints a missing value as [undefined]. *)
Definition show (s : option string) : string := default "undefined" s.

Definition scan_try (env : Env) (url scanId : string) : Eff ModuleLocals unit :=
  test <- insert_test scanId "Performance Analysis" "performance" (test env) ;;
  match test with
  | None => throw (ErrorObj "Failed to create performance test record.")
  | Some test =>
    let testId := id test in
    assign_testId testId ;;;

    match context_browser env with
    | None => throw (ErrorObj "Browser is not available for Lighthouse scan.")
    | Some _ =>
      port <- await (ws_port env) ;;
      lighthouseResult <- await (lighthouse env) ;;
      match lighthouseResult with
      | None => throw (ErrorObj "Cannot read properties of undefined")
      | Some lhr =>
        let audits := audits lhr in
        let score := (or_0 (performance_score lhr) * 100)%Q in

        (when score_is_not_1 (audits !! "server-response-time") then
           a <- the_audit (audits !! "server-response-time") ;;
           let issuePayload := {|
             test_id := testId;
             scan_id := scanId;
             title := a_title a;
             description := a_description a;
             row_severity := "high";
             category := "performance";
             element := None;
             location_url := url;
             location_selector := None;
             recommendation := "Improve server response time (TTFB). This often involves optimizing your backend, database queries, or upgrading your hosting.";
             status := "open" |} in
           send (InsertIssue issuePayload) ;;;
           push {| severity := "high" |}) ;;;

        (when score_is_not_1 (audits !! "largest-contentful-paint") then
           a <- the_audit (audits !! "largest-contentful-paint") ;;
           let issuePayload := {|
             test_id := testId;
             scan_id := scanId;
             title := a_title a;
             description :=
               a_description a +:+ " Your LCP was " +:+ show (displayValue a) +:+ ".";
             row_severity := "high";
             category := "performance";
             element := None;
             location_url := url;
             location_selector := None;
             recommendation := "Optimize the main content element, ensure it loads quickly.";
             status := "open" |} in
           send (InsertIssue issuePayload) ;;;
           push {| severity := "high" |}) ;;;

        send (UpdateTest testId (TestCompleted (Fin score)))
      end
    end
  end.

Definition scan {L} (env : Env) (url scanId : string) : Eff L (list Issue) :=
  call fresh
    (try_catch (scan_try env url scanId) on_error ;;;
     return_issues).

End PerformanceScanner.

(** ** BestPracticesScanner (bestPracticesScanner.ts) *)

Module BestPracticesScanner.

(** A console message: [msg.type()] and [msg.text()]. *)
Record ConsoleMessage : Type := { type : string; text : string }.

Record Env : Type := {
  test : option TestRow;                 (* data of the qa_tests insert *)
  console : list ConsoleMessage;         (* the 'console' events during the navigation *)
  page_goto : outcome unit               (* page.goto(url, { waitUntil: 'networkidle' }) *)
}.

Definition createIssue {L}
  (testId scanId url title description severity recommendation : string)
  : Eff L Issue :=
  send (InsertIssue {|
    test_id := testId;
    scan_id := scanId;
    title := title;
    description := description;
    row_severity := severity;
    category := "best_practices";
    element := None;
    location_url := url;
    location_selector := None;
    recommendation := recommendation;
    status := "open" |}) ;;;
  ret {| severity := severity |}.

(** What the listener has pushed to [consoleErrors] once the navigation is
    over. *)
Definition listen (msgs : list ConsoleMessage) : list string :=
  map text (List.filter (fun msg => String.eqb (type msg) "error") msgs).

Definition scan_try (env : Env) (url scanId : string) : Eff ModuleLocals unit :=
  test <- insert_test scanId "Best Practices Audit" "best_practices" (test env) ;;
  match test with
  | None => throw (ErrorObj "Failed to create Best Practices test record.")
  | Some test =>
    let testId := id test in
    assign_testId testId ;;;

    await (page_goto env) ;;;
    let consoleErrors := listen (console env) in

    (if Nat.ltb 0 (length consoleErrors) then
       i <- createIssue testId scanId url "Console Errors Found"
              ("The page has " +:+ pretty (length consoleErrors) +:+ " console errors.")
              "medium"
              "Check the browser console for details and fix the reported errors." ;;
       push i
     else ret tt) ;;;

    l <- get_locals ;;
    let score := flat_score 10 (issues l) in
    send (UpdateTest testId (TestCompleted score))
  end.

Definition scan {L} (env : Env) (url scanId : string) : Eff L (list Issue) :=
  call fresh
    (try_catch (scan_try env url scanId) on_error ;;;
     return_issues).

End BestPracticesScanner.

(** ** ScanOrchestrator (scanOrchestrator.ts) *)

Module ScanOrchestrator.

(** [settings.tests]: five optional flags. *)
Record Tests : Type := {
  performance : option bool;
  accessibility : option bool;
  seo : option bool;
  security : option bool;
  best_practices : option bool
}.

Record Settings : Type := { tests : option Tests }.

Record ScanRequest : Type := {
  url : string;
  scanId : string;
  userId : string;
  projectId : option string;
  clientId : option string;
  settings : Settings
}.

(** What the browser and the five modules do during one scan. *)
Record Env : Type := {
  launch : outcome unit;            (* chromium.launch(..) *)
  newContext : outcome unit;        (* this.browser.newContext(..) *)
  newPage : outcome unit;           (* context.newPage() *)
  page_goto : outcome unit;         (* page.goto(url, { waitUntil: 'networkidle', timeout: 60000 }) *)
  perf_env : PerformanceScanner.Env;
  a11y_env : AccessibilityScanner.Env;
  seo_env : SEOScanner.Env;
  sec_env : SecurityScanner.Env;
  bp_env : BestPracticesScanner.Env;
  context_close : outcome unit      (* context.close() *)
}.

(** The mutable locals of [performCompleteScan]. *)
Record Locals : Type := {
  completed : Z;              (* let completedTests = 0 *)
  allIssues : list Issue      (* const allIssues: any[] = [] *)
}.

Definition initialize {L} (env : Env) : Eff L unit :=
  await (launch env) ;;;
  set_browser true.

Definition updateScanStatus {L} (scanId status : string) (progress : jsnum) : Eff L unit :=
  send (UpdateScan scanId status progress).

Definition completeScan {L} (scanId : string) (summary : Summary) : Eff L unit :=
  send (CompleteScan scanId summary).

Definition failScan {L} (scanId error : string) : Eff L unit :=
  send (FailScan scanId error).

Definition weights : gmap string Z :=
  list_to_map [("critical", 20); ("high", 10); ("medium", 5); ("low", 2)].

(** [weights[severity] || 0] *)
Definition weight_or_0 (severity : string) : Z :=
  match weights !! severity with
  | Some w => if Z.eqb w 0 then 0 else w
  | None => 0
  end.

Definition calculateOverallScore (issues : list Issue) : Z :=
  let deduction :=
    fold_left (fun sum issue => sum + weight_or_0 (severity issue)) issues 0 in
  Z.max 0 (100 - deduction).

(** [settings.tests || { performance: true, .. }] *)
Definition testsToRun_of (settings : Settings) : Tests :=
  match tests settings with
  | Some t => t
  | None => {| performance := Some true; accessibility := Some true;
               seo := Some true; security := Some true;
               best_practices := Some true |}
  end.

(** [Object.values(t)]: the values of the flags that are present. *)
Definition Object_values (t : Tests) : list bool :=
  omap (fun v => v)
    [performance t; accessibility t; seo t; security t; best_practices t].

(** [if (flag)] on an optional flag. *)
Definition on (flag : option bool) : bool := default false flag.

(** [allIssues.push(...found)] *)
Definition push_all (found : list Issue) : Eff Locals unit :=
  l <- get_locals ;;
  set_locals {| completed := completed l; allIssues := allIssues l ++ found |}.

(** [completedTests++] *)
Definition incr_completed : Eff Locals unit :=
  l <- get_locals ;;
  set_locals {| completed := completed l + 1; allIssues := allIssues l |}.

(** [10 + (completedTests / totalTests) * 80] *)
Definition module_progress (completedTests totalTests : Z) : jsnum :=
  js_add (js_of_Z 10) (js_mul (js_div completedTests totalTests) (js_of_Z 80)).

(** What follows every module's [scan]: collect, count, report progress. *)
Definition after_module (scanId : string) (totalTests : Z) (found : list Issue)
  : Eff Locals unit :=
  push_all found ;;;
  incr_completed ;;;
  l <- get_locals ;;
  updateScanStatus scanId "running" (module_progress (completed l) totalTests).

Definition count_severity (s : string) (l : list Issue) : Z :=
  Z.of_nat (length (List.filter (fun i => String.eqb (severity i) s) l)).

(** The body of the [try] block. *)
Definition scan_try (env : Env) (request : ScanRequest) : Eff Locals unit :=
  let url := url request in
  let scanId := scanId request in
  let settings := settings request in

  updateScanStatus scanId "running" (js_of_Z 0) ;;;

  w <- get_world ;;
  (when negb (browser w) then initialize env) ;;;

  await (newContext env) ;;;
  await (newPage env) ;;;

  await (page_goto env) ;;;
  updateScanStatus scanId "running" (js_of_Z 5) ;;;

  let testsToRun := testsToRun_of settings in
  let totalTests := Z.of_nat (length (List.filter (fun v => v) (Object_values testsToRun))) in
  set_locals {| completed := 0; allIssues := [] |} ;;;

  (when on (performance testsToRun) then
     perfIssues <- PerformanceScanner.scan (perf_env env) url scanId ;;
     after_module scanId totalTests perfIssues) ;;;

  (when on (accessibility testsToRun) then
     a11yIssues <- AccessibilityScanner.scan (a11y_env env) url scanId ;;
     after_module scanId totalTests a11yIssues) ;;;

  (when on (seo testsToRun) then
     seoIssues <- SEOScanner.scan (seo_env env) url scanId ;;
     after_module scanId totalTests seoIssues) ;;;

  (when on (security testsToRun) then
     secIssues <- SecurityScanner.scan (sec_env env) url scanId ;;
     after_module scanId totalTests secIssues) ;;;

  (when on (best_practices testsToRun) then
     bpIssues <- BestPracticesScanner.scan (bp_env env) url scanId ;;
     after_module scanId totalTests bpIssues) ;;;

  l <- get_locals ;;
  let allIssues := allIssues l in
  let criticalCount := count_severity "critical" allIssues in
  let highCount := count_severity "high" allIssues in

  let summary := {|
    totalIssues := Z.of_nat (length allIssues);
    criticalIssues := criticalCount + highCount;
    overallScore := calculateOverallScore allIssues;
    completedTests := totalTests;
    totalTests := totalTests |} in

  completeScan scanId summary ;;;

  await (context_close env).

(** [error instanceof Error ? error.message : 'Unknown error'] *)
Definition message_of (error : JsThrown) : string :=
  match error with
  | ErrorObj m => m
  | NotAnError => "Unknown error"
  end.

Definition performCompleteScan {L} (env : Env) (request : ScanRequest) : Eff L unit :=
  call {| completed := 0; allIssues := [] |}
    (try_catch (scan_try env request)
       (fun error => failScan (scanId request) (message_of error))).

End ScanOrchestrator.

(** ** The five modules, uniformly *)

Inductive ScannerModule : Type :=
| Performance | Accessibility | SEO | Security | BestPractices.

Import ScanOrchestrator.

(** The [data] of the module's [qa_tests] insert: its TestRun record, when
    it was created. *)
Definition module_test (m : ScannerModule) (env : Env) : option TestRow :=
  match m with
  | Performance => PerformanceScanner.test (perf_env env)
  | Accessibility => AccessibilityScanner.test (a11y_env env)
  | SEO => SEOScanner.test (seo_env env)
  | Security => SecurityScanner.test (sec_env env)
  | BestPractices => BestPracticesScanner.test (bp_env env)
  end.

(** The [try] block of the module's [scan]. *)
Definition module_try (m : ScannerModule) (env : Env) (url scanId : string)
  : Eff ModuleLocals unit :=
  match m with
  | Performance => PerformanceScanner.scan_try (perf_env env) url scanId
  | Accessibility => AccessibilityScanner.scan_try (a11y_env env) url scanId
  | SEO => SEOScanner.scan_try (seo_env env) url scanId
  | Security => SecurityScanner.scan_try (sec_env env) url scanId
  | BestPractices => BestPracticesScanner.scan_try (bp_env env) url scanId
  end.

(** The module's [scan(page, url, scanId)]. *)
Definition module_scan {L} (m : ScannerModule) (env : Env) (url scanId : string)
  : Eff L (list Issue) :=
  match m with
  | Performance => PerformanceScanner.scan (perf_env env) url scanId
  | Accessibility => AccessibilityScanner.scan (a11y_env env) url scanId
  | SEO => SEOScanner.scan (seo_env env) url scanId
  | Security => SecurityScanner.scan (sec_env env) url scanId
  | BestPractices => BestPracticesScanner.scan (bp_env env) url scanId
  end.

Definition module_name (m : ScannerModule) : string :=
  match m with
  | Performance => "Performance Analysis"
  | Accessibility => "Accessibility Audit"
  | SEO => "SEO Audit"
  | Security => "Security Audit"
  | BestPractices => "Best Practices Audit"
  end.

Definition module_category (m : ScannerModule) : string :=
  match m with
  | Performance => "performance"
  | Accessibility => "accessibility"
  | SEO => "seo"
  | Security => "security"
  | BestPractices => "best_practices"
  end.

(** ** Reading the log *)

Definition add_ops (w : World) (ops : list DbOp) : World :=
  {| browser := browser w; db := db w ++ ops |}.

(** The [qa_issues] rows inserted by a sequence of requests. *)
Definition issue_rows (ops : list DbOp) : list IssueRow :=
  omap (fun op => match op with InsertIssue row => Some row | _ => None end) ops.

(** Their severities, in order. *)
Definition recorded (ops : list DbOp) : list string :=
  map row_severity (issue_rows ops).

(** The rows with a given title. *)
Definition rows_titled (t : string) (ops : list DbOp) : list IssueRow :=
  List.filter (fun row => String.eqb (title row) t) (issue_rows ops).

(** The [qa_tests] rows a sequence of requests marks failed. *)
Definition marked_failed (ops : list DbOp) : list string :=
  omap (fun op => match op with UpdateTest t TestFailed => Some t | _ => None end) ops.

(** The summaries written by [completeScan]. *)
Definition summaries (ops : list DbOp) : list Summary :=
  omap (fun op => match op with CompleteScan _ s => Some s | _ => None end) ops.

(** ** The [qa_scans] row *)

Inductive SummaryField : Type :=
| ScanSummary (s : Summary)
| ErrorSummary (error : string).       (* { error } *)

Record ScanRow : Type := {
  row_status : string;
  row_progress : jsnum;
  row_summary : option SummaryField
}.

(** The row as the scan request creates it: queued, progress 0. *)
Definition queued_row : ScanRow :=
  {| row_status := "queued"; row_progress := js_of_Z 0; row_summary := None |}.

(** The effect of one request on the row of scan [sid]
    ([.update(..).eq('id', scanId)]). *)
Definition apply_op (sid : string) (row : ScanRow) (op : DbOp) : ScanRow :=
  match op with
  | UpdateScan i st p =>
    if String.eqb i sid
    then {| row_status := st; row_progress := p; row_summary := row_summary row |}
    else row
  | CompleteScan i s =>
    if String.eqb i sid
    then {| row_status := "completed"; row_progress := js_of_Z 100;
            row_summary := Some (ScanSummary s) |}
    else row
  | FailScan i e =>
    if String.eqb i sid
    then {| row_status := "failed"; row_progress := row_progress row;
            row_summary := Some (ErrorSummary e) |}
    else row
  | _ => row
  end.

(** The successive states of the row, the first one included. *)
Fixpoint history (sid : string) (row : ScanRow) (ops : list DbOp) : list ScanRow :=
  match ops with
  | [] => [row]
  | op :: rest => row :: history sid (apply_op sid row op) rest
  end.

Definition terminal (st : string) : Prop := st = "completed" \/ st = "failed".

(** A world with an empty log. *)
Definition start (b : bool) : World := {| browser := b; db := [] |}.

(** What a [scan] call sends to the store, and what it returns. *)
Definition sent (scan : Eff unit (list Issue)) : list DbOp :=
  db (snd (fst (scan tt (start false)))).

Definition returned (scan : Eff unit (list Issue)) : list Issue :=
  match snd (scan tt (start false)) with
  | Returned found => found
  | Threw _ => []
  end.

Definition module_ops (m : ScannerModule) (env : Env) (url scanId : string) : list DbOp :=
  sent (module_scan m env url scanId).

Definition module_found (m : ScannerModule) (env : Env) (url scanId : string) : list Issue :=
  returned (module_scan m env url scanId).

(** What one [performCompleteScan] call sends to the store, when the browser
    is ([b = true]) or is not yet launched. *)
Definition scan_log (env : Env) (request : ScanRequest) (b : bool) : list DbOp :=
  db (snd (fst (performCompleteScan env request tt (start b)))).

(** The enabled modules, in the order the orchestrator runs them. *)
Definition enabled (t : Tests) : list ScannerModule :=
  (if on (performance t) then [Performance] else []) ++
  (if on (accessibility t) then [Accessibility] else []) ++
  (if on (seo t) then [SEO] else []) ++
  (if on (security t) then [Security] else []) ++
  (if on (best_practices t) then [BestPractices] else []).

(** The issues returned by the enabled modules, in that order. *)
Definition collected (env : Env) (request : ScanRequest) : list Issue :=
  concat (map (fun m => module_found m env (url request) (scanId request))
              (enabled (testsToRun_of (settings request)))).

(** ** The score, as the specification words it *)

(** The deduction table critical 20, high 10, medium 5, low 2. *)
Definition weight (severity : string) : Z :=
  if String.eqb severity "critical" then 20
  else if String.eqb severity "high" then 10
  else if String.eqb severity "medium" then 5
  else if String.eqb severity "low" then 2
  else 0.

Fixpoint total_weight (l : list Issue) : Z :=
  match l with
  | [] => 0
  | i :: rest => weight (severity i) + total_weight rest
  end.

Definition spec_score (l : list Issue) : Z := Z.max 0 (100 - total_weight l).

Definition known_severity (s : string) : Prop :=
  s = "critical" \/ s = "high" \/ s = "medium" \/ s = "low".

(** A request about [qa_tests] or [qa_issues]: the modules send these. *)
Definition is_module_op (op : DbOp) : bool :=
  match op with
  | InsertTest _ _ _ _ _ | UpdateTest _ _ | InsertIssue _ => true
  | _ => false
  end.

Definition module_op (op : DbOp) : Prop := Is_true (is_module_op op).

(** The requests about [qa_scans]. *)
Definition scan_row_ops (ops : list DbOp) : list DbOp :=
  List.filter (fun op => negb (is_module_op op)) ops.

(** The [progress] values written to [qa_scans], the 100 of [completeScan]
    included. *)
Definition progress_writes (ops : list DbOp) : list jsnum :=
  omap (fun op =>
          match op with
          | UpdateScan _ _ p => Some p
          | CompleteScan _ _ => Some (js_of_Z 100)
          | _ => None
          end) ops.

(** Order on the numbers that are finite. *)
Definition js_le (a b : jsnum) : Prop :=
  match a, b with
  | Fin x, Fin y => (x <= y)%Q
  | _, _ => False
  end.

(** [p] is the number 100. *)
Definition is_100 (p : jsnum) : Prop :=
  match p with
  | Fin q => (q == 100)%Q
  | NonFinite => False
  end.

(** A [qa_tests] insert, or the update that completes a test. *)
Definition plain (op : DbOp) : Prop :=
  match op with
  | InsertTest _ _ _ _ _ | UpdateTest _ (TestCompleted _) => True
  | _ => False
  end.

(** A computation of a module that keeps [testId], pushes one issue for
    every [qa_issues] row it inserts, with the same severity, one of the four
    known ones, inserts only rows that satisfy [P], marks no test failed,
    leaves [qa_scans] alone, and does not depend on the world. *)
Definition tracks (P : IssueRow -> Prop) {A} (m : Eff ModuleLocals A) : Prop :=
  forall l, exists found ops r,
    map severity found = recorded ops /\
    Forall known_severity (recorded ops) /\
    (marked_failed ops = [] /\ Forall module_op ops /\ Forall P (issue_rows ops)) /\
    forall w,
      m l w = (({| issues := issues l ++ found; testId := testId l |},
                add_ops w ops), r).


(** A row whose title is none of [ts]. *)
Definition untitled (ts : list string) (row : IssueRow) : Prop :=
  existsb (String.eqb (title row)) ts = false.

(** ** The log of one scan, spelled out *)

(** The module phase: the requests of each enabled module, each followed by
    the progress update of the orchestrator; [k] modules ran before. *)
Fixpoint modules_log (env : Env) (url sid : string) (total k : Z)
  (ms : list ScannerModule) : list DbOp :=
  match ms with
  | [] => []
  | m :: rest =>
    module_ops m env url sid ++
    UpdateScan sid "running" (module_progress (k + 1) total) ::
    modules_log env url sid total (k + 1) rest
  end.

(** The set-up: the launch when the browser is not there yet, the new
    context, the new page and the navigation; the first throw wins. *)
Definition setup (env : Env) (b : bool) : outcome unit :=
  match (if b then Returned tt else launch env) with
  | Threw e => Threw e
  | Returned _ =>
    match newContext env with
    | Threw e => Threw e
    | Returned _ =>
      match newPage env with
      | Threw e => Threw e
      | Returned _ => page_goto env
      end
    end
  end.

(** [this.browser] after the set-up. *)
Definition browser_after (env : Env) (b : bool) : bool :=
  if b then true
  else match launch env with Returned _ => true | Threw _ => false end.

Definition summary_of (found : list Issue) (total : Z) : Summary :=
  {| totalIssues := Z.of_nat (length found);
     criticalIssues := count_severity "critical" found + count_severity "high" found;
     overallScore := calculateOverallScore found;
     completedTests := total;
     totalTests := total |}.

(** The number of enabled modules. *)
Definition enabled_count (request : ScanRequest) : Z :=
  Z.of_nat (length (enabled (testsToRun_of (settings request)))).

Definition expected_log (env : Env) (request : ScanRequest) (b : bool) : list DbOp :=
  let sid := scanId request in
  UpdateScan sid "running" (js_of_Z 0) ::
  match setup env b with
  | Threw e => [FailScan sid (message_of e)]
  | Returned _ =>
    UpdateScan sid "running" (js_of_Z 5) ::
    modules_log env (url request) sid (enabled_count request) 0
      (enabled (testsToRun_of (settings request))) ++
    CompleteScan sid (summary_of (collected env request) (enabled_count request)) ::
    match context_close env with
    | Threw e => [FailScan sid (message_of e)]
    | Returned _ => []
    end
  end.

(** The states the [qa_scans] row of a scan goes through, for [N] enabled
    modules and the summary [s] of the completed scan. *)
Inductive reachable_row (N : Z) (s : Summary) : ScanRow -> Prop :=
| row_queued : reachable_row N s queued_row
| row_started :
    reachable_row N s
      {| row_status := "running"; row_progress := js_of_Z 0; row_summary := None |}
| row_setup_failed e :
    reachable_row N s
      {| row_status := "failed"; row_progress := js_of_Z 0;
         row_summary := Some (ErrorSummary e) |}
| row_navigated :
    reachable_row N s
      {| row_status := "running"; row_progress := js_of_Z 5; row_summary := None |}
| row_module j :
    1 <= j <= N ->
    reachable_row N s
      {| row_status := "running"; row_progress := module_progress j N;
         row_summary := None |}
| row_completed :
    reachable_row N s
      {| row_status := "completed"; row_progress := js_of_Z 100;
         row_summary := Some (ScanSummary s) |}
| row_close_failed e :
    reachable_row N s
      {| row_status := "failed"; row_progress := js_of_Z 100;
         row_summary := Some (ErrorSummary e) |}.

(** ** Example pages and requests *)

Definition created (i : string) : option TestRow := Some {| id := i |}.

(** A page with an empty title, no meta description and two H1 elements. *)
Definition bare_page : SEOScanner.Env :=
  {| SEOScanner.test := created "test-seo";
     SEOScanner.page_title := Returned "";
     SEOScanner.meta_count := Returned 0%nat;
     SEOScanner.meta_content := Returned None;
     SEOScanner.h1_count := Returned 2%nat |}.

(** A response without any header. *)
Definition no_headers : SecurityScanner.Env :=
  {| SecurityScanner.test := created "test-security";
     SecurityScanner.page_goto :=
       Returned (Some {| SecurityScanner.headers := ∅ |}) |}.

(** Lighthouse cannot reach the browser: no [wsEndpoint]. *)
Definition no_endpoint : PerformanceScanner.Env :=
  {| PerformanceScanner.test := created "test-performance";
     PerformanceScanner.context_browser := Some tt;
     PerformanceScanner.ws_port :=
       Threw (ErrorObj "browser.wsEndpoint is not a function");
     PerformanceScanner.lighthouse := Returned None |}.

Definition no_violation : AccessibilityScanner.Env :=
  {| AccessibilityScanner.test := created "test-accessibility";
     AccessibilityScanner.analyze := Returned [] |}.

Definition quiet_console : BestPracticesScanner.Env :=
  {| BestPracticesScanner.test := created "test-best-practices";
     BestPracticesScanner.console := [];
     BestPracticesScanner.page_goto := Returned tt |}.

Definition example_env : Env :=
  {| launch := Returned tt;
     newContext := Returned tt;
     newPage := Returned tt;
     page_goto := Returned tt;
     perf_env := no_endpoint;
     a11y_env := no_violation;
     seo_env := bare_page;
     sec_env := no_headers;
     bp_env := quiet_console;
     context_close := Returned tt |}.

Definition request_for (u : string) (t : option Tests) : ScanRequest :=
  {| url := u; scanId := "scan-1"; userId := "user-1";
     projectId := None; clientId := None;
     settings := {| tests := t |} |}.

Definition seo_and_security : Tests :=
  {| performance := Some false; accessibility := Some false;
     seo := Some true; security := Some true;
     best_practices := Some false |}.

Definition all_false : Tests :=
  {| performance := Some false; accessibility := Some false;
     seo := Some false; security := Some false;
     best_practices := Some false |}.

Definition only_seo : Tests :=
  {| performance := None; accessibility := None;
     seo := Some true; security := None;
     best_practices := None |}.

Definition three_modules : Tests :=
  {| performance := Some false; accessibility := None;
     seo := Some true; security := Some true;
     best_practices := Some true |}.

(** The title is empty and counting the meta elements throws. *)
Definition meta_count_throws : SEOScanner.Env :=
  {| SEOScanner.test := created "test-seo";
     SEOScanner.page_title := Returned "";
     SEOScanner.meta_count := Threw (ErrorObj "Target page has been closed");
     SEOScanner.meta_content := Returned None;
     SEOScanner.h1_count := Returned 1%nat |}.

(** As [example_env], with an SEO module that fails half way. *)
Definition failing_seo_env : Env :=
  {| launch := Returned tt;
     newContext := Returned tt;
     newPage := Returned tt;
     page_goto := Returned tt;
     perf_env := no_endpoint;
     a11y_env := no_violation;
     seo_env := meta_count_throws;
     sec_env := no_headers;
     bp_env := quiet_console;
     context_close := Returned tt |}.

(** A page whose title has 61 characters. *)
Definition long_title_page : SEOScanner.Env :=
  {| SEOScanner.test := created "test-seo";
     SEOScanner.page_title :=
       Returned "Qavo Scanner - automated quality audits for every page you ow";
     SEOScanner.meta_count := Returned 1%nat;
     SEOScanner.meta_content := Returned (Some "Audits of web pages.");
     SEOScanner.h1_count := Returned 1%nat |}.

(** The scheme of a URL: the characters before its first colon. *)
Fixpoint url_scheme (url : string) : string :=
  match url with
  | EmptyString => EmptyString
  | String c rest =>
    if Ascii.eqb c ":"%char then EmptyString else String c (url_scheme rest)
  end.

(** ** The requests of one module, in full *)

(** The issue a module pushes for a row it inserts. *)
Definition issue_of (row : IssueRow) : Issue := {| severity := row_severity row |}.

(** A computation of a module that inserts rows satisfying [Tag], pushes
    the issue of each, keeps [testId], and sends nothing else but, at its
    very end, the requests [fin] of its outcome and of the issues pushed so
    far. *)
Definition runs {A} (Tag : IssueRow -> Prop)
  (fin : outcome A -> list Issue -> list DbOp) (m : Eff ModuleLocals A) : Prop :=
  forall l w, exists rows r,
    Forall Tag rows /\
    m l w = (({| issues := issues l ++ map issue_of rows; testId := testId l |},
              add_ops w (map InsertIssue rows
                         ++ fin r (issues l ++ map issue_of rows))), r).

Definition nothing_more {A} : outcome A -> list Issue -> list DbOp :=
  fun _ _ => [].

(** The update that completes test [t], with the score [sc] of the issues. *)
Definition completes {A} (t : string) (sc : list Issue -> jsnum)
  : outcome A -> list Issue -> list DbOp :=
  fun r found =>
    match r with
    | Returned _ => [UpdateTest t (TestCompleted (sc found))]
    | Threw _ => []
    end.

(** A computation of a module that pushes at most [n] issues. *)
Definition bounded {A} (n : nat) (m : Eff ModuleLocals A) : Prop :=
  forall l w, (length (issues (fst (fst (m l w)))) <= length (issues l) + n)%nat.

(** A row of module [m] for the scan [sid] of [url], under the test [t]. *)
Definition tagged (m : ScannerModule) (sid url : string) (t : TestRow)
  (row : IssueRow) : Prop :=
  test_id row = id t /\ scan_id row = sid /\ category row = module_category m /\
  location_url row = url /\ status row = "open".

(** The points a module takes off its score for each issue. *)
Definition rate (m : ScannerModule) : Z :=
  match m with
  | Accessibility => 5
  | _ => 10
  end.

(** The score a module gives its test when it completes: Lighthouse's for
    Performance, [max(0, 100 - rate * issues)] for the others. *)
Definition completed_score (m : ScannerModule) (env : Env) (found : list Issue)
  : jsnum :=
  match m with
  | Performance =>
    match PerformanceScanner.lighthouse (perf_env env) with
    | Returned (Some lhr) =>
      Fin (PerformanceScanner.or_0 (PerformanceScanner.performance_score lhr) * 100)%Q
    | _ => js_of_Z 0
    end
  | _ => flat_score (rate m) found
  end.

(** The most issues one [scan] of a module can return; Accessibility has no
    such bound. *)
Definition most_issues (m : ScannerModule) : option nat :=
  match m with
  | Performance => Some 2%nat
  | Accessibility => None
  | SEO => Some 3%nat
  | Security => Some 3%nat
  | BestPractices => Some 1%nat
  end.

(** ** More example pages *)

(** An image without a text alternative, found twice, and a page without a
    language, found once with no impact given. *)
Definition two_violations : AccessibilityScanner.Env :=
  {| AccessibilityScanner.test := created "test-accessibility";
     AccessibilityScanner.analyze :=
       Returned
         [ {| AccessibilityScanner.impact := Some "serious";
              AccessibilityScanner.help := "Images must have alternate text";
              AccessibilityScanner.helpUrl := "https://dequeuniversity.com/rules/axe/image-alt";
              AccessibilityScanner.v_description :=
                "Ensures <img> elements have alternate text";
              AccessibilityScanner.nodes :=
                [ {| AccessibilityScanner.html := "<img src=a.png>";
                     AccessibilityScanner.target := ["img"];
                     AccessibilityScanner.failureSummary := None |};
                  {| AccessibilityScanner.html := "<img src=b.png>";
                     AccessibilityScanner.target := ["main"; "img"];
                     AccessibilityScanner.failureSummary :=
                       Some "Fix any of the following: no alt attribute" |} ] |};
           {| AccessibilityScanner.impact := None;
              AccessibilityScanner.help := "<html> must have a lang attribute";
              AccessibilityScanner.helpUrl := "https://dequeuniversity.com/rules/axe/html-has-lang";
              AccessibilityScanner.v_description :=
                "Ensures every HTML document has a lang attribute";
              AccessibilityScanner.nodes :=
                [ {| AccessibilityScanner.html := "<html>";
                     AccessibilityScanner.target := ["html"];
                     AccessibilityScanner.failureSummary := None |} ] |} ] |}.

(** A Lighthouse result with a slow server and a good largest paint. *)
Definition slow_server_lhr : PerformanceScanner.Lhr :=
  {| PerformanceScanner.audits :=
       list_to_map
         [ ("server-response-time",
            {| PerformanceScanner.a_score := Some 0%Q;
               PerformanceScanner.a_title := "Reduce initial server response time";
               PerformanceScanner.a_description := "Keep the server response time short.";
               PerformanceScanner.displayValue := Some "Root document took 1,200 ms" |});
           ("largest-contentful-paint",
            {| PerformanceScanner.a_score := Some 1%Q;
               PerformanceScanner.a_title := "Largest Contentful Paint";
               PerformanceScanner.a_description := "Largest Contentful Paint marks the time.";
               PerformanceScanner.displayValue := Some "1.1 s" |}) ];
     PerformanceScanner.performance_score := Some (74 # 100)%Q |}.

Definition slow_server : PerformanceScanner.Env :=
  {| PerformanceScanner.test := created "test-performance";
     PerformanceScanner.context_browser := Some tt;
     PerformanceScanner.ws_port := Returned "9222";
     PerformanceScanner.lighthouse := Returned (Some slow_server_lhr) |}.

(** ** SEOScanner, the version with the meta description read in a [try]
    block of its own *)

Module SEOScannerAlt.

Record Env : Type := {
  test : option TestRow;                  (* data of the qa_tests insert *)
  page_title : outcome string;            (* page.title() *)
  meta_content : outcome (option string); (* page.locator('meta[name="description"]')
                                                  .getAttribute('content') *)
  h1_count : outcome nat                  (* page.locator('h1').count() *)
}.

Definition createIssue {L}
  (testId scanId url title description severity recommendation : string)
  : Eff L unit :=
  send (InsertIssue {|
    test_id := testId;
    scan_id := scanId;
    title := title;
    description := description;
    row_severity := severity;
    category := "seo";
    element := None;
    location_url := url;
    location_selector := None;
    recommendation := recommendation;
    status := "open" |}).

Definition scan_try (env : Env) (url scanId : string) : Eff ModuleLocals unit :=
  test <- insert_test scanId "SEO Audit" "seo" (test env) ;;
  match test with
  | None => throw (ErrorObj "Failed to create SEO test record.")
  | Some test =>
    let testId := id test in
    assign_testId testId ;;;

    title <- await (page_title env) ;;
    (if negb (truthy title) then
       createIssue testId scanId url "Missing Title Tag"
         "The title tag is missing from the page." "high"
         "Add a unique and descriptive title tag to the page head." ;;;
       push {| severity := "high" |}
     else if Nat.ltb 60 (String.length title) then
       createIssue testId scanId url "Title Tag Too Long"
         ("The title tag is " +:+ pretty (String.length title)
            +:+ " characters long. It should be 60 characters or less.")
         "medium"
         "Shorten the title tag to be more concise and impactful." ;;;
       push {| severity := "medium" |}
     else ret tt) ;;;

    try_catch
      (metaDescription <- await (meta_content env) ;;
       if negb (truthy_opt metaDescription) then
         createIssue testId scanId url "Missing Meta Description"
           "The meta description is missing." "high"
           "Add a compelling meta description to improve click-through rates from search results." ;;;
         push {| severity := "high" |}
       else if Nat.ltb 160 (String.length (default "" metaDescription)) then
         createIssue testId scanId url "Meta Description Too Long"
           ("The meta description is "
              +:+ pretty (String.length (default "" metaDescription))
              +:+ " characters long. It should be 160 characters or less.")
           "medium"
           "Shorten the meta description to ensure it is fully visible in search results." ;;;
         push {| severity := "medium" |}
       else ret tt)
      (fun e =>
         createIssue testId scanId url "Missing Meta Description"
           "The meta description is missing." "high"
           "Add a compelling meta description to improve click-through rates from search results." ;;;
         push {| severity := "high" |}) ;;;

    h1Count <- await (h1_count env) ;;
    (if Nat.eqb h1Count 0 then
       createIssue testId scanId url "Missing H1 Tag"
         "The page is missing an H1 tag." "high"
         "Add a single, descriptive H1 tag to the page to indicate the main topic." ;;;
       push {| severity := "high" |}
     else if Nat.ltb 1 h1Count then
       createIssue testId scanId url "Multiple H1 Tags"
         ("The page has " +:+ pretty h1Count
            +:+ " H1 tags. There should be only one.")
         "medium"
         "Consolidate the H1 tags into a single, primary heading." ;;;
       push {| severity := "medium" |}
     else ret tt) ;;;

    l <- get_locals ;;
    let score := flat_score 10 (issues l) in
    send (UpdateTest testId (TestCompleted score))
  end.

Definition scan {L} (env : Env) (url scanId : string) : Eff L (list Issue) :=
  call fresh
    (try_catch (scan_try env url scanId) on_error ;;;
     return_issues).

End SEOScannerAlt.

(** The page of [bare_page], as this version reads it: no meta description
    to read the content of. *)
Definition bare_page_alt : SEOScannerAlt.Env :=
  {| SEOScannerAlt.test := created "test-seo";
     SEOScannerAlt.page_title := Returned "";
     SEOScannerAlt.meta_content :=
       Threw (ErrorObj "locator.getAttribute: Timeout 30000ms exceeded.");
     SEOScannerAlt.h1_count := Returned 2%nat |}.

(** ** More readings of the log *)

(** The [qa_tests] rows inserted: scan, name and category. *)
Definition test_inserts (ops : list DbOp) : list (string * string * string) :=
  omap (fun op =>
          match op with
          | InsertTest sid name cat _ _ => Some (sid, name, cat)
          | _ => None
          end) ops.

(** The scan a request is about, for the requests that name one. *)
Definition op_scan (op : DbOp) : option string :=
  match op with
  | InsertTest sid _ _ _ _ => Some sid
  | UpdateTest _ _ => None
  | InsertIssue row => Some (scan_id row)
  | UpdateScan sid _ _ => Some sid
  | CompleteScan sid _ => Some sid
  | FailScan sid _ => Some sid
  end.

(** A request that names no scan but [sid]. *)
Definition of_scan (sid : string) (op : DbOp) : Prop :=
  forall i, op_scan op = Some i -> i = sid.

(** A row with one of the two severities counted as critical issues. *)
Definition critical_or_high (row : IssueRow) : bool :=
  String.eqb (row_severity row) "critical" || String.eqb (row_severity row) "high".

(** The same environment with another outcome of [chromium.launch]. *)
Definition with_launch (o : outcome unit) (env : Env) : Env :=
  {| launch := o;
     newContext := newContext env;
     newPage := newPage env;
     page_goto := page_goto env;
     perf_env := perf_env env;
     a11y_env := a11y_env env;
     seo_env := seo_env env;
     sec_env := sec_env env;
     bp_env := bp_env env;
     context_close := context_close env |}.

(** Chromium is not installed. *)
Definition no_chromium : Env :=
  with_launch (Threw (ErrorObj "browserType.launch: Executable doesn't exist")) example_env.

(** ** The scan service (server.ts, [POST /api/scan]) *)

Module Server.

(** [req.body], as far as the handler reads it: every field is absent or
    present, the strings as strings, [settings] as an object. *)
Record Body : Type := {
  url : option string;
  scanId : option string;
  userId : option string;
  projectId : option string;
  clientId : option string;
  settings : option Settings
}.

(** The JSON of a reply. *)
Inductive Json : Type :=
| Failure (error : string)                 (* { success: false, error } *)
| Accepted (scanId message : string).      (* { success: true, scanId, message } *)

Record Reply : Type := { code : Z; json : Json }.

(** The request handed to the orchestrator; [settings || {}]. *)
Definition request_of (body : Body) : ScanRequest :=
  {| ScanOrchestrator.url := default "" (url body);
     ScanOrchestrator.scanId := default "" (scanId body);
     ScanOrchestrator.userId := default "" (userId body);
     ScanOrchestrator.projectId := projectId body;
     ScanOrchestrator.clientId := clientId body;
     ScanOrchestrator.settings := default {| tests := None |} (settings body) |}.

Section Handler.

(** [new URL(url)] does not throw. *)
Variable URL_parses : string -> bool.

(** The handler. The scan is started and not awaited: its requests reach
    the store after the reply; the log is the one they leave. *)
Definition post_api_scan (env : Env) (body : Body) : Eff unit Reply :=
  try_catch
    (if negb (truthy_opt (url body)) || negb (truthy_opt (scanId body))
        || negb (truthy_opt (userId body))
     then
       ret {| code := 400;
              json := Failure "Missing required fields: url, scanId, userId" |}
     else
       valid <- try_catch
                  (if URL_parses (default "" (url body))
                   then ret true
                   else throw (ErrorObj "Invalid URL"))
                  (fun _ => ret false) ;;
       if negb valid
       then ret {| code := 400; json := Failure "Invalid URL format" |}
       else
         try_catch (performCompleteScan env (request_of body))
                   (fun error => ret tt) ;;;
         ret {| code := 202;
                json := Accepted (default "" (scanId body))
                          "Comprehensive QA scan accepted and started" |})
    (fun error =>
       ret {| code := 500;
              json := Failure (match error with
                               | ErrorObj m => m
                               | NotAnError => "Internal server error"
                               end) |}).

(** The handler accepts the body. *)
Definition acceptable (body : Body) : bool :=
  truthy_opt (url body) && truthy_opt (scanId body) && truthy_opt (userId body)
  && URL_parses (default "" (url body)).

End Handler.

End Server.

(** A URL parser that asks for a scheme followed by a colon. *)
Definition has_scheme (u : string) : bool :=
  negb (String.eqb (url_scheme u) "") && negb (String.eqb (url_scheme u) u).


(** ** ScanService (the accessibility-only service behind the first
    [POST /api/scan]) *)

Module ScanService.

(** An axe violation, as [AxeViolation] declares it. *)
Record Node : Type := {
  html : string;
  target : list string;
  failureSummary : string
}.

Record AxeViolation : Type := {
  v_id : string;
  impact : string;
  v_description : string;
  help : string;
  helpUrl : string;
  nodes : list Node
}.

Record ScanRequest : Type := {
  url : string;
  scanId : string;
  userId : string;
  projectId : option string;
  clientId : option string
}.

(** A row of [qa_issues], as this service inserts it. *)
Record IssueRow : Type := {
  scan_id : string;
  title : string;
  description : string;
  row_severity : string;
  category : string;
  element : string;
  screenshot : option string;          (* a data URL, or null *)
  location_url : string;
  location_selector : option string;   (* [node.target[0]] *)
  recommendation : string;
  status : string
}.

(** The requests sent to the store. *)
Inductive Request : Type :=
| UpdateScan (scanId status : string) (progress : Z)
| CompleteScan (scanId : string) (summary : Summary)
| FailScan (scanId errorMessage : string)
| InsertIssue (row : IssueRow)
| InsertTest (scan_id name category status : string) (score progress : Z).

Record Store : Type := {
  browser : bool;           (* [this.browser] is not null *)
  log : list Request
}.

(** What the browser, axe and the store do during one scan. *)
Record Env : Type := {
  launch : outcome unit;                         (* chromium.launch(..) *)
  newContext : outcome unit;
  newPage : outcome unit;
  page_goto : outcome unit;
  addScriptTag : outcome unit;                   (* page.addScriptTag({ path: .. }) *)
  axe_run : outcome (list AxeViolation);         (* (await page.evaluate(..)).violations *)
  element_screenshot : option string -> outcome string;
                                                 (* the base64 of the element's screenshot *)
  insert_error : IssueRow -> bool;               (* the [error] of the qa_issues insert *)
  context_close : outcome unit
}.

(** The same state and exception monad, over this service's store. *)
Definition Run (L A : Type) : Type := L -> Store -> (L * Store) * outcome A.

Definition ret {L A} (a : A) : Run L A := fun l s => ((l, s), Returned a).

Definition bind {L A B} (m : Run L A) (k : A -> Run L B) : Run L B :=
  fun l s =>
    match m l s with
    | (ls, Returned a) => k a (fst ls) (snd ls)
    | (ls, Threw e) => (ls, Threw e)
    end.

Definition throw {L A} (e : JsThrown) : Run L A := fun l s => ((l, s), Threw e).

Definition try_catch {L A} (body : Run L A) (handler : JsThrown -> Run L A) : Run L A :=
  fun l s =>
    match body l s with
    | (ls, Returned a) => (ls, Returned a)
    | (ls, Threw e) => handler e (fst ls) (snd ls)
    end.

Definition await {L A} (o : outcome A) : Run L A := fun l s => ((l, s), o).

Definition get_locals {L} : Run L L := fun l s => ((l, s), Returned l).
Definition set_locals {L} (l' : L) : Run L unit := fun _ s => ((l', s), Returned tt).
Definition get_store {L} : Run L Store := fun l s => ((l, s), Returned s).

Definition send {L} (r : Request) : Run L unit :=
  fun l s => ((l, {| browser := browser s; log := log s ++ [r] |}), Returned tt).

Definition set_browser {L} (b : bool) : Run L unit :=
  fun l s => ((l, {| browser := b; log := log s |}), Returned tt).

Definition call {L L' A} (init : L') (m : Run L' A) : Run L A :=
  fun l s =>
    match m init s with
    | ((_, s'), r) => ((l, s'), r)
    end.

Declare Scope run_scope.
Delimit Scope run_scope with run.
Notation "x <- c ;; k" := (bind c (fun x => k))
  (at level 100, c at next level, right associativity) : run_scope.
Notation "c ;;; k" := (bind c (fun _ => k))
  (at level 100, right associativity) : run_scope.
Notation "'when' b 'then' c" := (if b then c else ret tt)
  (at level 100, b at next level, c at level 100) : run_scope.
Local Open Scope run_scope.

Fixpoint for_of {L A} (xs : list A) (body : A -> Run L unit) : Run L unit :=
  match xs with
  | [] => ret tt
  | x :: rest => body x ;;; for_of rest body
  end.

Definition initialize {L} (env : Env) : Run L unit :=
  await (launch env) ;;;
  set_browser true.

Definition updateScanStatus {L} (scanId status : string) (progress : Z) : Run L unit :=
  send (UpdateScan scanId status progress).

Definition completeScan {L} (scanId : string) (summary : Summary) : Run L unit :=
  send (CompleteScan scanId summary).

Definition failScan {L} (scanId errorMessage : string) : Run L unit :=
  send (FailScan scanId errorMessage).

(** [map[impact] || 'medium'] *)
Definition mapImpactToSeverity (impact : string) : string :=
  let map : gmap string string :=
    list_to_map [("critical", "critical"); ("serious", "high");
                 ("moderate", "medium"); ("minor", "low")] in
  match map !! impact with
  | Some s => if truthy s then s else "medium"
  | None => "medium"
  end.

Definition calculateScore (issues : list Issue) : Z :=
  let weights : gmap string Z :=
    list_to_map [("critical", 20); ("high", 10); ("medium", 5); ("low", 2)] in
  let deduction :=
    fold_left (fun sum issue =>
                 sum + match weights !! severity issue with
                       | Some w => if Z.eqb w 0 then 0 else w
                       | None => 0
                       end)
              issues 0 in
  Z.max 0 (100 - deduction).

(** [Math.max(0, 100 - (issuesCount * 5))], inserted as a completed test. *)
Definition createTestRecord {L} (scanId name category : string) (issuesCount : Z)
  : Run L unit :=
  let score := Z.max 0 (100 - issuesCount * 5) in
  send (InsertTest scanId name category "completed" score 100).

(** An error of the injection or of the run is logged and swallowed. *)
Definition runAccessibilityScan {L} (env : Env) : Run L (list AxeViolation) :=
  try_catch
    (await (addScriptTag env) ;;;
     violations <- await (axe_run env) ;;
     ret violations)
    (fun error => ret []).

(** [issues.push(i)] *)
Definition push (i : Issue) : Run (list Issue) unit :=
  issues <- get_locals ;;
  set_locals (issues ++ [i]).

(** The row of one node. *)
Definition issue_row (violation : AxeViolation) (node : Node) (scanId url : string)
  (severity : string) (selector : option string) (screenshotBase64 : option string)
  : IssueRow :=
  {| scan_id := scanId;
     title := help violation;
     description :=
       (if truthy (failureSummary node) then failureSummary node
        else v_description violation);
     row_severity := severity;
     category := "accessibility";
     element := html node;
     screenshot :=
       match screenshotBase64 with
       | Some b => if truthy b then Some ("data:image/png;base64," +:+ b) else None
       | None => None
       end;
     location_url := url;
     location_selector := selector;
     recommendation :=
       "Fix: " +:+ help violation +:+ ". See " +:+ helpUrl violation
         +:+ " for more information.";
     status := "open" |}.

Definition processViolations {L} (env : Env) (violations : list AxeViolation)
  (scanId url : string) : Run L (list Issue) :=
  call []
    (for_of violations (fun violation =>
       let severity := mapImpactToSeverity (impact violation) in
       for_of (nodes violation) (fun node =>
         try_catch
           (let selector := head (target node) in
            screenshotBase64 <-
              try_catch
                (b <- await (element_screenshot env selector) ;;
                 ret (Some b))
                (fun screenshotError => ret None) ;;
            let row := issue_row violation node scanId url severity selector
                         screenshotBase64 in
            send (InsertIssue row) ;;;
            if insert_error env row
            then ret tt                                   (* continue *)
            else push {| severity := severity |})
           (fun nodeError => ret tt))) ;;;
     issues <- get_locals ;;
     ret issues).

Definition performScan {L} (env : Env) (request : ScanRequest) : Run L unit :=
  let url := url request in
  let scanId := scanId request in
  try_catch
    (updateScanStatus scanId "running" 0 ;;;

     s <- get_store ;;
     (when negb (browser s) then initialize env) ;;;

     await (newContext env) ;;;
     await (newPage env) ;;;
     await (page_goto env) ;;;
     updateScanStatus scanId "running" 20 ;;;

     accessibilityResults <- runAccessibilityScan env ;;
     updateScanStatus scanId "running" 40 ;;;

     issuesCreated <- processViolations env accessibilityResults scanId url ;;
     updateScanStatus scanId "running" 80 ;;;

     createTestRecord scanId "Accessibility Audit" "accessibility"
       (Z.of_nat (length issuesCreated)) ;;;

     let summary := {|
       totalIssues := Z.of_nat (length issuesCreated);
       criticalIssues :=
         Z.of_nat (length (List.filter
                             (fun i => String.eqb (severity i) "critical"
                                       || String.eqb (severity i) "high")
                             issuesCreated));
       overallScore := calculateScore issuesCreated;
       completedTests := 1;
       totalTests := 1 |} in
     completeScan scanId summary ;;;

     await (context_close env))
    (fun error =>
       failScan scanId (message_of error) ;;;
       throw error).

(** *** What one scan does, spelled out *)

(** The row a node gets, its screenshot taken or not. *)
Definition node_row (env : Env) (scanId url : string) (violation : AxeViolation)
  (node : Node) : IssueRow :=
  issue_row violation node scanId url (mapImpactToSeverity (impact violation))
    (head (target node))
    match element_screenshot env (head (target node)) with
    | Returned b => Some b
    | Threw _ => None
    end.

(** The rows of all the nodes, in order. *)
Definition node_rows (env : Env) (scanId url : string) (violations : list AxeViolation)
  : list IssueRow :=
  flat_map (fun violation => List.map (node_row env scanId url violation) (nodes violation))
           violations.

(** The issues of the rows the store took. *)
Definition saved (env : Env) (rows : list IssueRow) : list Issue :=
  List.map (fun row => {| severity := row_severity row |})
           (List.filter (fun row => negb (insert_error env row)) rows).

(** The violations the analysis hands over: none when it throws. *)
Definition analysed (env : Env) : list AxeViolation :=
  match addScriptTag env with
  | Threw _ => []
  | Returned _ =>
    match axe_run env with
    | Returned violations => violations
    | Threw _ => []
    end
  end.

(** The set-up: the first throw wins. *)
Definition setup (env : Env) (b : bool) : outcome unit :=
  match (if b then Returned tt else launch env) with
  | Threw e => Threw e
  | Returned _ =>
    match newContext env with
    | Threw e => Threw e
    | Returned _ =>
      match newPage env with
      | Threw e => Threw e
      | Returned _ => page_goto env
      end
    end
  end.

Definition requests {L} (env : Env) (request : ScanRequest) (l : L) (b : bool)
  : list Request :=
  log (snd (fst (performScan env request l {| browser := b; log := [] |}))).

Definition thrown {L} (env : Env) (request : ScanRequest) (l : L) (b : bool)
  : outcome unit :=
  snd (performScan env request l {| browser := b; log := [] |}).

(** *** The first scan service (src/server.ts, [POST /api/scan]) *)

(** The handler reads [url], [scanId], [userId], [projectId] and [clientId]
    of the body; the scan is started and not awaited. *)
Definition request_of (body : Server.Body) : ScanRequest :=
  {| url := default "" (Server.url body);
     scanId := default "" (Server.scanId body);
     userId := default "" (Server.userId body);
     projectId := Server.projectId body;
     clientId := Server.clientId body |}.

Section Handler.

(** [new URL(url)] does not throw. *)
Variable URL_parses : string -> bool.

Definition post_api_scan (env : Env) (body : Server.Body) : Run unit Server.Reply :=
  try_catch
    (if negb (truthy_opt (Server.url body)) || negb (truthy_opt (Server.scanId body))
        || negb (truthy_opt (Server.userId body))
     then
       ret {| Server.code := 400;
              Server.json :=
                Server.Failure "Missing required fields: url, scanId, userId" |}
     else
       valid <- try_catch
                  (if URL_parses (default "" (Server.url body))
                   then ret true
                   else throw (ErrorObj "Invalid URL"))
                  (fun _ => ret false) ;;
       if negb valid
       then ret {| Server.code := 400; Server.json := Server.Failure "Invalid URL format" |}
       else
         try_catch (performScan env (request_of body))
                   (fun error => ret tt) ;;;
         ret {| Server.code := 200;
                Server.json :=
                  Server.Accepted (default "" (Server.scanId body))
                    "Scan started successfully" |})
    (fun error =>
       ret {| Server.code := 500;
              Server.json :=
                Server.Failure (match error with
                                | ErrorObj m => m
                                | NotAnError => "Internal server error"
                                end) |}).

End Handler.

End ScanService.

(** An image without a text alternative, found twice. *)
Definition two_images : list ScanService.AxeViolation :=
  [ {| ScanService.v_id := "image-alt";
       ScanService.impact := "serious";
       ScanService.v_description := "Ensures <img> elements have alternate text";
       ScanService.help := "Images must have alternate text";
       ScanService.helpUrl := "https://dequeuniversity.com/rules/axe/image-alt";
       ScanService.nodes :=
         [ {| ScanService.html := "<img src=a.png>";
              ScanService.target := ["#a"];
              ScanService.failureSummary := "" |};
           {| ScanService.html := "<img src=b.png>";
              ScanService.target := ["#b"];
              ScanService.failureSummary := "Fix any of the following: no alt attribute" |} ] |} ].

(** axe cannot be injected. *)
Definition no_axe : ScanService.Env :=
  {| ScanService.launch := Returned tt;
     ScanService.newContext := Returned tt;
     ScanService.newPage := Returned tt;
     ScanService.page_goto := Returned tt;
     ScanService.addScriptTag := Threw (ErrorObj "Cannot find module 'axe-core/axe.min.js'");
     ScanService.axe_run := Returned two_images;
     ScanService.element_screenshot := (fun _ => Returned "iVBORw0KGgo=");
     ScanService.insert_error := (fun _ => false);
     ScanService.context_close := Returned tt |}.

Definition old_request : ScanService.ScanRequest :=
  {| ScanService.url := "http://example.com";
     ScanService.scanId := "scan-1";
     ScanService.userId := "user-1";
     ScanService.projectId := None;
     ScanService.clientId := None |}.

(** ** The start-scan edge function *)

Module StartScan.

(** The JSON body of the request. *)
Record ScanRequest : Type := {
  url : option string;
  projectId : option string;
  clientId : option string;
  settings : option Settings
}.

(** The row handed to the [qa_scans] insert. *)
Record ScanInsert : Type := {
  i_url : string;
  i_status : string;
  i_progress : Z;
  project_id : option string;
  client_id : option string;
  i_settings : Settings;
  summary : Summary;
  created_by : string
}.

(** The [data] of the insert: the row created. *)
Record Scan : Type := { id : string; scan_url : string; scan_status : string }.

(** The requests sent to the store. *)
Inductive Request : Type :=
| InsertScan (row : ScanInsert)
| FailScan (id : string) (details : string).
    (* update { status: 'failed',
                summary: { error: 'Failed to start scan service', details } } *)

(** The answer of the scan service to [fetch]. *)
Record ServiceResponse : Type := {
  ok : bool;
  status : Z;
  text : outcome string
}.

Inductive Json : Type :=
| NoBody
| Error (error : string)
| NotConfigured (scanId : string)
| NotStarted (details : string) (statusCode : Z)
| Started (scanId url status : string)
| Internal (message : string).

Record Response : Type := { code : Z; json : Json }.

(** What the request carries and what the world answers. The body handed
    to [fetch] is the one the scan service reads; the [webhookUrl] sent
    along is not read there. *)
Record Env : Type := {
  method : string;
  createClient : outcome unit;                (* createClient(url ?? '', key ?? '') *)
  Authorization : option string;
  getUser : outcome (option string * bool);   (* the user's id, and [authError] *)
  req_json : outcome ScanRequest;
  insert : ScanInsert -> option Scan * bool;  (* [data] and [scanError] *)
  SCAN_SERVICE_URL : option string;
  fetch : Server.Body -> outcome ServiceResponse
}.

Section Function.

(** [new URL(url)] does not throw. *)
Variable URL_parses : string -> bool.

(** The [catch] of the function. *)
Definition internal (sent : list Request) (error : JsThrown)
  : list Request * Response :=
  (sent, {| code := 500; json := Internal (message_of error) |}).

Definition serve (env : Env) : list Request * Response :=
  if String.eqb (method env) "OPTIONS"
  then ([], {| code := 200; json := NoBody |})
  else
    match createClient env with
    | Threw e => internal [] e
    | Returned _ =>
    if negb (truthy_opt (Authorization env))
    then ([], {| code := 401; json := Error "Missing authorization header" |})
    else
      match getUser env with
      | Threw e => internal [] e
      | Returned (user, authError) =>
        (* [if (authError || !user)] *)
        match user with
        | None => ([], {| code := 401; json := Error "Unauthorized" |})
        | Some user_id =>
          if authError
          then ([], {| code := 401; json := Error "Unauthorized" |})
          else
            match req_json env with
            | Threw e => internal [] e
            | Returned body =>
              let settings := default {| tests := None |} (settings body) in
              if negb (truthy_opt (url body))
              then ([], {| code := 400; json := Error "URL is required" |})
              else
                let url := default "" (url body) in
                if negb (URL_parses url)
                then ([], {| code := 400; json := Error "Invalid URL format" |})
                else
                  let row :=
                    {| i_url := url;
                       i_status := "queued";
                       i_progress := 0;
                       project_id := projectId body;
                       client_id := clientId body;
                       i_settings := settings;
                       summary :=
                         {| totalIssues := 0; criticalIssues := 0; overallScore := 0;
                            completedTests := 0; totalTests := 1 |};
                       created_by := user_id |} in
                  let '(scan, scanError) := insert env row in
                  if scanError
                  then ([InsertScan row],
                        {| code := 500; json := Error "Failed to create scan record" |})
                  else
                    match scan with
                    | None =>
                      internal [InsertScan row]
                        (ErrorObj "Cannot read properties of null (reading 'id')")
                    | Some scan =>
                      if negb (truthy_opt (SCAN_SERVICE_URL env))
                      then ([InsertScan row],
                            {| code := 503; json := NotConfigured (id scan) |})
                      else
                        match fetch env
                                {| Server.url := Some url;
                                   Server.scanId := Some (id scan);
                                   Server.userId := Some user_id;
                                   Server.projectId := projectId body;
                                   Server.clientId := clientId body;
                                   Server.settings := Some settings |} with
                        | Threw e => internal [InsertScan row] e
                        | Returned scanResponse =>
                          if negb (ok scanResponse)
                          then
                            let errorText :=
                              match text scanResponse with
                              | Returned t => t
                              | Threw _ => "Unknown error"
                              end in
                            ([InsertScan row; FailScan (id scan) errorText],
                             {| code := 500;
                                json := NotStarted errorText (status scanResponse) |})
                          else
                            ([InsertScan row],
                             {| code := 200;
                                json := Started (id scan) (scan_url scan)
                                          (scan_status scan) |})
                        end
                    end
            end
        end
      end
    end.

(** [fetch] answered by the scan service itself: its reply to the body. *)
Definition service (senv : ScanOrchestrator.Env) (w : World) (body : Server.Body)
  : outcome ServiceResponse :=
  match snd (Server.post_api_scan URL_parses senv body tt w) with
  | Returned reply =>
    Returned {| ok := Z.leb 200 (Server.code reply) && Z.leb (Server.code reply) 299;
                status := Server.code reply;
                text :=
                  Returned match Server.json reply with
                           | Server.Failure error => error
                           | Server.Accepted _ message => message
                           end |}
  | Threw e => Threw e
  end.

End Function.

End StartScan.

(** A signed-in user asks for a scan of a URL and gives no settings. *)
Definition plain_request (fetch : Server.Body -> outcome StartScan.ServiceResponse)
  : StartScan.Env :=
  {| StartScan.method := "POST";
     StartScan.createClient := Returned tt;
     StartScan.Authorization := Some "Bearer token";
     StartScan.getUser := Returned (Some "user-1", false);
     StartScan.req_json :=
       Returned {| StartScan.url := Some "https://example.com";
                   StartScan.projectId := None;
                   StartScan.clientId := None;
                   StartScan.settings := None |};
     StartScan.insert :=
       (fun row => (Some {| StartScan.id := "scan-1";
                            StartScan.scan_url := StartScan.i_url row;
                            StartScan.scan_status := StartScan.i_status row |},
                    false));
     StartScan.SCAN_SERVICE_URL := Some "https://scanner.example.com";
     StartScan.fetch := fetch |}.

(** * Properties *)

(** ** The log *)

Lemma add_ops_nil w : add_ops w [] = w.
Proof. destruct w; unfold add_ops; simpl. now rewrite app_nil_r. Qed.

Lemma add_ops_app w a b : add_ops (add_ops w a) b = add_ops w (a ++ b).
Proof. unfold add_ops; simpl. now rewrite app_assoc. Qed.

Lemma issue_rows_app a b : issue_rows (a ++ b) = issue_rows a ++ issue_rows b.
Proof. apply omap_app. Qed.

Lemma recorded_app a b : recorded (a ++ b) = recorded a ++ recorded b.
Proof. unfold recorded. now rewrite issue_rows_app, map_app. Qed.

Lemma marked_failed_app a b : marked_failed (a ++ b) = marked_failed a ++ marked_failed b.
Proof. apply omap_app. Qed.

Lemma progress_writes_app a b :
  progress_writes (a ++ b) = progress_writes a ++ progress_writes b.
Proof. apply omap_app. Qed.

Lemma summaries_app a b : summaries (a ++ b) = summaries a ++ summaries b.
Proof. apply omap_app. Qed.

Lemma locals_eta (l : ModuleLocals) :
  {| issues := issues l ++ []; testId := testId l |} = l.
Proof. destruct l; simpl. now rewrite app_nil_r. Qed.

(** ** Closure properties of [tracks] *)

Section Tracks.

Variable P : IssueRow -> Prop.
Context {A B : Type}.

Lemma tracks_ret (a : A) : tracks P (ret a).
Proof.
  intros l. exists [], [], (Returned a). repeat split; try constructor.
  intros w. unfold ret. now rewrite locals_eta, add_ops_nil.
Qed.

Lemma tracks_throw e : tracks P (@throw ModuleLocals A e).
Proof.
  intros l. exists [], [], (Threw e). repeat split; try constructor.
  intros w. unfold throw. now rewrite locals_eta, add_ops_nil.
Qed.

Lemma tracks_await (o : outcome A) : tracks P (await o).
Proof.
  intros l. exists [], [], o. repeat split; try constructor.
  intros w. unfold await. now rewrite locals_eta, add_ops_nil.
Qed.

Lemma tracks_bind (m : Eff ModuleLocals A) (k : A -> Eff ModuleLocals B) :
  tracks P m -> (forall a, tracks P (k a)) -> tracks P (bind m k).
Proof.
  intros Hm Hk l.
  destruct (Hm l) as (f1 & o1 & r1 & Hs1 & Hk1 & (Hf1 & Hm1 & Hp1) & Hrun1).
  destruct r1 as [a|e].
  - destruct (Hk a {| issues := issues l ++ f1; testId := testId l |})
      as (f2 & o2 & r2 & Hs2 & Hk2 & (Hf2 & Hm2 & Hp2) & Hrun2).
    exists (f1 ++ f2), (o1 ++ o2), r2. repeat split.
    + now rewrite map_app, recorded_app, Hs1, Hs2.
    + rewrite recorded_app. now apply Forall_app.
    + now rewrite marked_failed_app, Hf1, Hf2.
    + now apply Forall_app.
    + rewrite issue_rows_app. now apply Forall_app.
    + intros w. unfold bind. rewrite Hrun1. simpl.
      rewrite Hrun2. simpl. now rewrite add_ops_app, app_assoc.
  - exists f1, o1, (Threw e). repeat split; auto.
    intros w. unfold bind. now rewrite Hrun1.
Qed.

End Tracks.

Section TracksRows.

Variable P : IssueRow -> Prop.

(** A call whose result is known. *)
Lemma tracks_bind_returned {A B} (a : A) (k : A -> Eff ModuleLocals B) :
  tracks P (k a) -> tracks P (bind (await (Returned a)) k).
Proof.
  intros Hk l. destruct (Hk l) as (found & ops & r & H1 & H2 & H3 & Hrun).
  exists found, ops, r. repeat (split; [assumption|]).
  intros w. rewrite <- Hrun. reflexivity.
Qed.

Lemma tracks_get_locals : tracks P get_locals.
Proof.
  intros l. exists [], [], (Returned l). repeat split; try constructor.
  intros w. unfold get_locals. now rewrite locals_eta, add_ops_nil.
Qed.

Lemma tracks_send op : plain op -> tracks P (send op).
Proof.
  intros Hop l. exists [], [op], (Returned tt).
  destruct op as [| t [|] | | | |]; simpl in Hop; try contradiction;
    (split; [reflexivity|]; split; [constructor|];
     split; [split; [reflexivity | split; repeat constructor]|];
     intros w; unfold send; now rewrite locals_eta).
Qed.

(** Inserting a row and pushing an issue of the same severity. *)
Lemma tracks_record row sev :
  row_severity row = sev -> known_severity sev -> P row ->
  tracks P (send (InsertIssue row) ;;; push {| severity := sev |}).
Proof.
  intros Hsev Hknown Hrow l.
  exists [{| severity := sev |}], [InsertIssue row], (Returned tt).
  subst sev. split; [reflexivity|]. split; [constructor; [exact Hknown | constructor]|].
  split; [split; [reflexivity | split; repeat constructor; exact Hrow]|].
  intros w. reflexivity.
Qed.

(** Inserting a row and pushing the issue made of its severity, as the
    [createIssue] of the SEO and Best Practices modules has it. *)
Lemma tracks_created row :
  known_severity (row_severity row) -> P row ->
  tracks P (i <- (send (InsertIssue row) ;;; ret {| severity := row_severity row |}) ;;
            push i).
Proof.
  intros Hknown Hrow l.
  exists [{| severity := row_severity row |}], [InsertIssue row], (Returned tt).
  split; [reflexivity|]. split; [constructor; [exact Hknown | constructor]|].
  split; [split; [reflexivity | split; repeat constructor; exact Hrow]|].
  intros w. reflexivity.
Qed.

Lemma tracks_for_of {X} (xs : list X) (body : X -> Eff ModuleLocals unit) :
  (forall x, tracks P (body x)) -> tracks P (AccessibilityScanner.for_of xs body).
Proof.
  intros Hbody. induction xs as [|x rest IH]; simpl.
  - apply tracks_ret.
  - apply tracks_bind; auto.
Qed.

End TracksRows.

Lemma known_critical : known_severity "critical".
Proof. unfold known_severity; auto. Qed.
Lemma known_high : known_severity "high".
Proof. unfold known_severity; auto. Qed.
Lemma known_medium : known_severity "medium".
Proof. unfold known_severity; auto. Qed.
Lemma known_low : known_severity "low".
Proof. unfold known_severity; auto. Qed.

Create HintDb known.
#[local] Hint Resolve known_critical known_high known_medium known_low : known.

(** The four entries of [mapping], and nothing else. *)
Lemma mapping_lookup (i : string) :
  AccessibilityScanner.mapping !! i =
  if String.eqb i "critical" then Some "critical"
  else if String.eqb i "serious" then Some "high"
  else if String.eqb i "moderate" then Some "medium"
  else if String.eqb i "minor" then Some "low"
  else None.
Proof.
  unfold AccessibilityScanner.mapping. simpl.
  repeat (rewrite lookup_insert; case_decide as Hd;
          [subst i; reflexivity
          | apply String.eqb_neq in Hd; rewrite String.eqb_sym in Hd; rewrite Hd;
            clear Hd]).
  apply lookup_empty.
Qed.

Lemma mapImpact_known impact : known_severity (AccessibilityScanner.mapImpact impact).
Proof.
  unfold AccessibilityScanner.mapImpact.
  destruct impact as [i|]; auto with known.
  destruct (truthy i); auto with known.
  rewrite mapping_lookup.
  repeat (destruct (String.eqb i _); [simpl; auto with known|]).
  auto with known.
Qed.

(** [weights[severity] || 0] is the specification's table. *)
Lemma weight_or_0_weight (s : string) : weight_or_0 s = weight s.
Proof.
  unfold weight_or_0, weight, weights. simpl.
  repeat (rewrite lookup_insert; case_decide as Hd;
          [subst s; reflexivity
          | apply String.eqb_neq in Hd; rewrite String.eqb_sym in Hd; rewrite Hd;
            clear Hd]).
  now rewrite lookup_empty.
Qed.

(** ** The shape every [scan] method has *)

(** The [try] block: the [qa_tests] insert, the check of its [data], the
    assignment of [testId], and then the module's own checks [k]. *)
Lemma try_shape P sid name cat data msg (k : TestRow -> Eff ModuleLocals unit) :
  (forall t, tracks P (k t)) ->
  exists found ops r,
    map severity found = recorded ops /\
    Forall known_severity (recorded ops) /\
    (marked_failed ops = [] /\ Forall module_op ops /\ Forall P (issue_rows ops)) /\
    (data = None -> found = [] /\ ops = [] /\ r = Threw (ErrorObj msg)) /\
    forall w,
      (test <- insert_test sid name cat data ;;
       match test with
       | None => throw (ErrorObj msg)
       | Some test => assign_testId (id test) ;;; k test
       end) fresh w
      = (({| issues := found; testId := id <$> data |},
          add_ops w (InsertTest sid name cat "running" 0 :: ops)), r).
Proof.
  intros Hk. destruct data as [t|].
  - destruct (Hk t {| issues := []; testId := Some (id t) |})
      as (found & ops & r & Hs & Hkn & Hf & Hrun).
    exists found, ops, r. repeat (split; [assumption || discriminate|]).
    intros w. unfold bind, insert_test, send, ret, assign_testId, get_locals,
      set_locals. simpl. rewrite Hrun. unfold add_ops. simpl.
    now rewrite <- app_assoc.
  - exists [], [], (Threw (ErrorObj msg)).
    split; [reflexivity|]. split; [constructor|].
    split; [split; [reflexivity | split; constructor]|].
    split; [intros _; auto|]. intros w. reflexivity.
Qed.

(** [scan] in terms of its [try] block: it returns the [issues] array as the
    block left it, and when the block threw and [testId] is set, the test is
    marked failed. *)
Lemma skeleton_run {L} (body : Eff ModuleLocals unit) (l : L) (w : World) :
  call fresh (try_catch body on_error ;;; return_issues) l w =
  match body fresh w with
  | ((l', w'), Returned _) => ((l, w'), Returned (issues l'))
  | ((l', w'), Threw _) =>
    ((l, if truthy_opt (testId l')
         then add_ops w' [UpdateTest (default "" (testId l')) TestFailed]
         else w'),
     Returned (issues l'))
  end.
Proof.
  unfold call, try_catch. unfold bind at 1.
  destruct (body fresh w) as [[l' w'] [[]|e]]; [reflexivity|].
  cbv [on_error return_issues bind get_locals ret fst snd].
  destruct (testId l') as [t|]; simpl; [|reflexivity].
  destruct (truthy t); reflexivity.
Qed.

(** The side conditions on an inserted row: its severity is known, and it
    satisfies the predicate at hand. *)
Ltac row_ok :=
  cbv beta; cbn [row_severity title];
  first [ exact I | reflexivity | solve [auto using mapImpact_known with known] ].

Ltac tracks_step :=
  cbv beta iota zeta;
  lazymatch goal with
  | |- tracks _ (bind (send (InsertIssue _)) (fun _ => push _)) =>
    apply tracks_record; row_ok
  | |- tracks _ (bind (SEOScanner.createIssue _ _ _ _ _ _ _) _) =>
    unfold SEOScanner.createIssue; apply tracks_created; row_ok
  | |- tracks _ (bind (BestPracticesScanner.createIssue _ _ _ _ _ _ _) _) =>
    unfold BestPracticesScanner.createIssue; apply tracks_created; row_ok
  | |- tracks _ (bind (SecurityScanner.createIssue _ _ _ _ _ _ _) _) =>
    unfold SecurityScanner.createIssue; apply tracks_record; row_ok
  | |- tracks _ (bind (await (Returned _)) _) => apply tracks_bind_returned
  | |- tracks _ (bind _ _) => apply tracks_bind; [|intros ?]
  | |- tracks _ (if ?b then _ else _) =>
    first [ progress (change b with true) | progress (change b with false)
          | destruct b ]
  | |- tracks _ (match ?x with _ => _ end) => destruct x
  | |- tracks _ (ret _) => apply tracks_ret
  | |- tracks _ (throw _) => apply tracks_throw
  | |- tracks _ (await _) => apply tracks_await
  | |- tracks _ get_locals => apply tracks_get_locals
  | |- tracks _ (send _) => apply tracks_send; exact I
  | |- tracks _ (PerformanceScanner.the_audit _) => unfold PerformanceScanner.the_audit
  | |- tracks _ (AccessibilityScanner.for_of _ _) => apply tracks_for_of; intros ?
  end.

(** The [try] block of every module, run on fresh locals. *)
Lemma module_try_run m env url sid :
  exists found ops r,
    map severity found = recorded ops /\
    Forall known_severity (recorded ops) /\
    (marked_failed ops = [] /\ Forall module_op ops) /\
    (module_test m env = None -> found = [] /\ ops = [] /\ exists e, r = Threw e) /\
    forall w,
      module_try m env url sid fresh w
      = (({| issues := found; testId := id <$> module_test m env |},
          add_ops w (InsertTest sid (module_name m) (module_category m) "running" 0
                       :: ops)), r).
Proof.
  destruct m; simpl;
    [ unfold PerformanceScanner.scan_try
    | unfold AccessibilityScanner.scan_try
    | unfold SEOScanner.scan_try
    | unfold SecurityScanner.scan_try
    | unfold BestPracticesScanner.scan_try ];
    cbv zeta;
    match goal with
    | |- context [throw (ErrorObj ?msg)] =>
      match goal with
      | |- context [insert_test sid ?name ?cat ?data] =>
        edestruct (try_shape (fun _ => True) sid name cat data msg)
          as (found & ops & r & H1 & H2 & (H3 & H3' & _) & H4 & H5);
          [| exists found, ops, r; split; [exact H1|]; split; [exact H2|];
             split; [split; [exact H3 | exact H3']|]; split;
             [ intros Hnone; destruct (H4 Hnone) as (? & ? & ?); eauto | exact H5 ] ]
      end
    end.
  all: intros t; repeat tracks_step.
Qed.

(** [scan] of every module: it never throws, and what it sends and returns
    does not depend on the world it starts in. *)
Lemma module_scan_shape m env url sid :
  @module_scan unit m env url sid =
  call fresh (try_catch (module_try m env url sid) on_error ;;; return_issues).
Proof. destruct m; reflexivity. Qed.

Lemma module_scan_run {L} m env url sid (l : L) (w : World) :
  module_scan m env url sid l w
  = ((l, add_ops w (module_ops m env url sid)),
     Returned (module_found m env url sid)).
Proof.
  unfold module_ops, module_found, sent, returned. rewrite module_scan_shape.
  assert (Hshape : @module_scan L m env url sid =
    call fresh (try_catch (module_try m env url sid) on_error ;;; return_issues))
    by (destruct m; reflexivity).
  rewrite Hshape, !skeleton_run.
  destruct (module_try_run m env url sid) as (found & ops & r & _ & _ & _ & _ & Hrun).
  rewrite !Hrun. destruct r as [[]|e]; simpl; [reflexivity|].
  destruct (truthy_opt (id <$> module_test m env)); simpl; [|reflexivity].
  unfold add_ops; simpl. now rewrite <- app_assoc.
Qed.

(** The issues a module returns are, one for one, the [qa_issues] rows it
    inserted, all of a known severity. *)
Lemma module_found_recorded m env url sid :
  map severity (module_found m env url sid) = recorded (module_ops m env url sid) /\
  Forall known_severity (map severity (module_found m env url sid)).
Proof.
  unfold module_ops, module_found, sent, returned.
  rewrite module_scan_shape, skeleton_run.
  destruct (module_try_run m env url sid) as (found & ops & r & Hs & Hk & _ & _ & Hrun).
  rewrite Hrun.
  assert (Hrec : forall tail, recorded tail = [] ->
            recorded (InsertTest sid (module_name m) (module_category m) "running" 0
                        :: ops ++ tail) = recorded ops).
  { intros tail Ht. change (InsertTest ?a ?b ?c ?d ?e :: ops ++ tail)
      with ([InsertTest a b c d e] ++ ops ++ tail).
    rewrite !recorded_app, Ht. simpl. now rewrite app_nil_r. }
  destruct r as [[]|e]; simpl.
  - rewrite Hs. split; [|now rewrite <- Hs in Hk |- *].
    symmetry. rewrite <- (app_nil_r ops) at 1. now apply Hrec.
  - destruct (truthy_opt (id <$> module_test m env)); simpl;
      (split; [|now rewrite Hs]); rewrite Hs; symmetry.
    + now apply Hrec.
    + rewrite <- (app_nil_r ops) at 1. now apply Hrec.
Qed.

(** ** The orchestrator *)

(** [Object.values(testsToRun).filter(v => v).length] counts the enabled
    modules. *)
Lemma totalTests_enabled (t : Tests) :
  length (List.filter (fun v => v) (Object_values t)) = length (enabled t).
Proof.
  destruct t as [[[|]|] [[|]|] [[|]|] [[|]|] [[|]|]]; reflexivity.
Qed.

(** One module block of [performCompleteScan]. *)
Lemma block_run (flag : option bool) m env url sid total (l : Locals) (w : World) :
  (when on flag then
     found <- module_scan m env url sid ;;
     after_module sid total found) l w
  = ((if on flag
      then {| completed := completed l + 1;
              allIssues := allIssues l ++ module_found m env url sid |}
      else l,
      if on flag
      then add_ops w (module_ops m env url sid ++
                      [UpdateScan sid "running" (module_progress (completed l + 1) total)])
      else w),
     Returned tt).
Proof.
  destruct (on flag); [|reflexivity].
  unfold bind at 1. rewrite module_scan_run.
  cbv [after_module push_all incr_completed updateScanStatus bind get_locals
       set_locals send fst snd add_ops browser db completed allIssues].
  now rewrite <- app_assoc.
Qed.

Lemma bind_unfold {L A B} (m : Eff L A) (k : A -> Eff L B) l w :
  bind m k l w =
  match m l w with
  | (lw, Returned a) => k a (fst lw) (snd lw)
  | (lw, Threw e) => (lw, Threw e)
  end.
Proof. reflexivity. Qed.

(** The module phase, from the locals and the world the set-up leaves
    behind, and on to what follows it. *)
Lemma modules_run {A} env request (k : Locals -> Eff Locals A) (w : World) :
  let sid := scanId request in
  let t := testsToRun_of (settings request) in
  let total := enabled_count request in
  ((when on (performance t) then
      perfIssues <- PerformanceScanner.scan (perf_env env) (url request) sid ;;
      after_module sid total perfIssues) ;;;
   (when on (accessibility t) then
      a11yIssues <- AccessibilityScanner.scan (a11y_env env) (url request) sid ;;
      after_module sid total a11yIssues) ;;;
   (when on (seo t) then
      seoIssues <- SEOScanner.scan (seo_env env) (url request) sid ;;
      after_module sid total seoIssues) ;;;
   (when on (security t) then
      secIssues <- SecurityScanner.scan (sec_env env) (url request) sid ;;
      after_module sid total secIssues) ;;;
   (when on (best_practices t) then
      bpIssues <- BestPracticesScanner.scan (bp_env env) (url request) sid ;;
      after_module sid total bpIssues) ;;;
   l <- get_locals ;; k l) {| completed := 0; allIssues := [] |} w
  = k {| completed := enabled_count request; allIssues := collected env request |}
      {| completed := enabled_count request; allIssues := collected env request |}
      (add_ops w (modules_log env (url request) sid total 0 (enabled t))).
Proof.
  intros sid t total.
  change (PerformanceScanner.scan (perf_env env) (url request) sid)
    with (@module_scan Locals Performance env (url request) sid).
  change (AccessibilityScanner.scan (a11y_env env) (url request) sid)
    with (@module_scan Locals Accessibility env (url request) sid).
  change (SEOScanner.scan (seo_env env) (url request) sid)
    with (@module_scan Locals SEO env (url request) sid).
  change (SecurityScanner.scan (sec_env env) (url request) sid)
    with (@module_scan Locals Security env (url request) sid).
  change (BestPracticesScanner.scan (bp_env env) (url request) sid)
    with (@module_scan Locals BestPractices env (url request) sid).
  do 5 (rewrite bind_unfold, block_run; cbv beta iota delta [fst snd]).
  rewrite bind_unfold. unfold get_locals. cbv beta iota delta [fst snd].
  unfold collected, enabled_count, enabled. fold t.
  destruct (on (performance t)), (on (accessibility t)), (on (seo t)),
    (on (security t)), (on (best_practices t));
    cbv [completed allIssues]; simpl;
    rewrite ?add_ops_app, ?add_ops_nil, ?app_nil_r, <- ?app_assoc; simpl;
    rewrite <- ?app_assoc; reflexivity.
Qed.

(** Symbolic execution of the set-up and of the end of
    [performCompleteScan]: one [await] at a time, the failing branch closed
    by [failScan]. *)
Ltac await_step o :=
  rewrite bind_unfold; unfold await at 1;
  destruct o as [[]|?e]; cbv beta iota delta [fst snd].

Ltac run_failed :=
  cbv [failScan send fst snd browser db]; rewrite <- ?app_assoc; reflexivity.

Ltac run_modules env request Hmods :=
  await_step (newContext env); [|run_failed];
  await_step (newPage env); [|run_failed];
  await_step (page_goto env); [|run_failed];
  rewrite bind_unfold; cbv [updateScanStatus send];
  cbv beta iota delta [fst snd browser db];
  rewrite bind_unfold; unfold set_locals at 1; cbv beta iota delta [fst snd];
  rewrite Hmods;
  rewrite bind_unfold; cbv [completeScan send];
  cbv beta iota delta [fst snd browser db add_ops allIssues];
  unfold await at 1;
  fold (summary_of (collected env request) (enabled_count request));
  destruct (context_close env) as [[]|?e];
  cbv [failScan send fst snd browser db]; rewrite <- ?app_assoc; reflexivity.

(** One call of [performCompleteScan], from any world: it never throws, and
    it appends [expected_log] to the log. *)
Lemma performCompleteScan_run {L} env request (l : L) (w : World) :
  performCompleteScan env request l w
  = ((l, {| browser := browser_after env (browser w);
            db := db w ++ expected_log env request (browser w) |}),
     Returned tt).
Proof.
  unfold performCompleteScan, call, try_catch, scan_try, expected_log, setup,
    browser_after.
  cbv zeta. rewrite totalTests_enabled. fold (enabled_count request).
  assert (Hmods := fun A k w => @modules_run A env request k w). cbv zeta in Hmods.
  destruct w as [b log].
  rewrite bind_unfold. cbv [updateScanStatus send]. cbv beta iota delta [fst snd browser db].
  rewrite bind_unfold. unfold get_world at 1. cbv beta iota delta [fst snd browser db].
  rewrite bind_unfold.
  destruct b; cbv beta iota delta [negb initialize].
  - unfold ret at 1. cbv beta iota delta [fst snd].
    run_modules env request Hmods.
  - rewrite bind_unfold. unfold await at 1.
    destruct (launch env) as [[]|e]; cbv beta iota delta [fst snd]; [|run_failed].
    unfold set_browser at 1. cbv beta iota delta [fst snd browser db].
    run_modules env request Hmods.
Qed.

(** The log of one scan is [expected_log]. *)
Lemma scan_log_expected env request b :
  scan_log env request b = expected_log env request b.
Proof. unfold scan_log. now rewrite performCompleteScan_run. Qed.

(** [scan] of a module, summed up: what it returns and sends in terms of the
    outcome [r] of its [try] block. *)
Lemma module_scan_spec m env url sid :
  exists found ops r,
    map severity found = recorded ops /\
    Forall known_severity (recorded ops) /\
    (marked_failed ops = [] /\ Forall module_op ops) /\
    (module_test m env = None -> found = [] /\ ops = [] /\ exists e, r = Threw e) /\
    (forall w,
      module_try m env url sid fresh w
      = (({| issues := found; testId := id <$> module_test m env |},
          add_ops w (InsertTest sid (module_name m) (module_category m) "running" 0
                       :: ops)), r)) /\
    module_found m env url sid = found /\
    module_ops m env url sid =
      InsertTest sid (module_name m) (module_category m) "running" 0 :: ops ++
      match r with
      | Returned _ => []
      | Threw _ =>
        if truthy_opt (id <$> module_test m env)
        then [UpdateTest (default "" (id <$> module_test m env)) TestFailed]
        else []
      end.
Proof.
  destruct (module_try_run m env url sid) as (found & ops & r & Hs & Hk & Hf & Hn & Hrun).
  exists found, ops, r. repeat (split; [assumption|]).
  unfold module_ops, module_found, sent, returned.
  rewrite module_scan_shape, skeleton_run, Hrun.
  destruct r as [[]|e]; simpl.
  - now rewrite app_nil_r.
  - destruct (truthy_opt (id <$> module_test m env)); simpl; [easy|].
    now rewrite app_nil_r.
Qed.

(** A module only sends requests about [qa_tests] and [qa_issues]. *)
Lemma module_ops_module_op m env url sid :
  Forall module_op (module_ops m env url sid).
Proof.
  destruct (module_scan_spec m env url sid)
    as (found & ops & r & _ & _ & [_ Hm] & _ & _ & _ & ->).
  constructor; [exact I|]. apply Forall_app. split; [exact Hm|].
  destruct r; [constructor|].
  destruct (truthy_opt _); repeat constructor.
Qed.

Lemma module_op_no_progress ops :
  Forall module_op ops -> progress_writes ops = [] /\ summaries ops = [].
Proof.
  induction 1 as [|op ops Hop _ [IH1 IH2]]; [easy|].
  destruct op; simpl in Hop; try contradiction; simpl; auto.
Qed.

(** The row of the scan is not touched by the requests of a module. *)
Lemma history_module_ops sid row ops rest row' :
  Forall module_op ops ->
  In row' (history sid row (ops ++ rest)) <-> In row' (history sid row rest).
Proof.
  induction 1 as [|op ops Hop _ IH]; [easy|].
  simpl. destruct op; simpl in Hop; try contradiction; simpl;
    (rewrite IH; destruct rest; simpl; tauto).
Qed.

(** ** The score *)

Lemma fold_weights (l : list Issue) (acc : Z) :
  fold_left (fun sum issue => sum + weight_or_0 (severity issue)) l acc
  = acc + total_weight l.
Proof.
  revert acc. induction l as [|i l IH]; intros acc; simpl.
  - lia.
  - rewrite IH, weight_or_0_weight. lia.
Qed.

Lemma calculateOverallScore_spec (l : list Issue) :
  calculateOverallScore l = spec_score l.
Proof.
  unfold calculateOverallScore, spec_score. now rewrite fold_weights.
Qed.

Lemma collected_known env request :
  Forall known_severity (map severity (collected env request)).
Proof.
  unfold collected.
  induction (enabled (testsToRun_of (settings request))) as [|m ms IH]; simpl.
  - constructor.
  - rewrite map_app. apply Forall_app. split; [|exact IH].
    apply module_found_recorded.
Qed.

Lemma modules_log_no_summary env url sid total ms k :
  summaries (modules_log env url sid total k ms) = [].
Proof.
  revert k. induction ms as [|m ms IH]; intros k; simpl; [reflexivity|].
  rewrite summaries_app.
  destruct (module_op_no_progress _ (module_ops_module_op m env url sid)) as [_ ->].
  simpl. apply IH.
Qed.

(** The summaries written during one scan: one when the set-up succeeds,
    none otherwise. *)
Lemma summaries_scan_log env request b :
  summaries (scan_log env request b) =
  match setup env b with
  | Returned _ => [summary_of (collected env request) (enabled_count request)]
  | Threw _ => []
  end.
Proof.
  rewrite scan_log_expected. unfold expected_log.
  destruct (setup env b); simpl; [|reflexivity].
  rewrite summaries_app, modules_log_no_summary. simpl.
  destruct (context_close env); reflexivity.
Qed.

(** C1. The overall score the orchestrator writes into the summary is
    [max(0, 100 - sum of weight(severity))] over the issues returned by the
    enabled modules, with the weights critical 20, high 10, medium 5, low 2;
    every such severity is one of these four; and the score of an empty
    issue list is 100. *)
Theorem overall_score_weighted_deduction :
  (forall issues, calculateOverallScore issues = spec_score issues) /\
  calculateOverallScore [] = 100 /\
  (forall env request b s,
     In s (summaries (scan_log env request b)) ->
     overallScore s = spec_score (collected env request) /\
     totalIssues s = Z.of_nat (length (collected env request)) /\
     Forall known_severity (map severity (collected env request))).
Proof.
  split; [exact calculateOverallScore_spec|]. split; [reflexivity|].
  intros env request b s Hs. rewrite summaries_scan_log in Hs.
  destruct (setup env b); [|contradiction].
  destruct Hs as [<-|[]]. simpl.
  split; [apply calculateOverallScore_spec|]. split; [reflexivity|].
  apply collected_known.
Qed.

Lemma overall_score_weighted_deduction_witness :
  In (summary_of (collected example_env (request_for "http://example.com" None)) 5)
     (summaries (scan_log example_env (request_for "http://example.com" None) true)) /\
  overallScore
    (summary_of (collected example_env (request_for "http://example.com" None)) 5)
  = spec_score (collected example_env (request_for "http://example.com" None)).
Proof.
  assert (H : In (summary_of (collected example_env (request_for "http://example.com" None)) 5)
     (summaries (scan_log example_env (request_for "http://example.com" None) true))).
  { vm_compute. left. reflexivity. }
  split; [exact H|].
  exact (proj1 (proj2 (proj2 overall_score_weighted_deduction) _ _ _ _ H)).
Defined.

(** ** Progress *)

Lemma enabled_count_le_5 request : enabled_count request <= 5.
Proof.
  unfold enabled_count, enabled.
  destruct (on (performance _)), (on (accessibility _)), (on (seo _)),
    (on (security _)), (on (best_practices _)); cbn; lia.
Qed.

(** A count from 0 to 5 is one of six values. *)
Ltac each_count n :=
  assert (n = 0 \/ n = 1 \/ n = 2 \/ n = 3 \/ n = 4 \/ n = 5)
    as [->|[->|[->|[->|[->| ->]]]]] by lia;
  try lia.

(** The value of a progress that is finite. *)
Ltac progress_value :=
  match goal with
  | |- exists q, ?p = Fin q /\ _ =>
    let v := eval vm_compute in p in
    match v with
    | Fin ?q => exists q; split; [vm_compute; reflexivity|]
    end
  end.

(** There are at most five modules, so the doubles the code writes can be
    computed one by one. *)
Lemma module_progress_mono (j k N : Z) :
  0 < N <= 5 -> 0 <= j -> j <= k -> k <= N ->
  js_le (module_progress j N) (module_progress k N).
Proof.
  intros HN Hj Hjk Hk.
  each_count N; each_count k; each_count j; vm_compute; discriminate.
Qed.

(** After [k] of [N] modules the progress lies between 10 and 90. *)
Lemma module_progress_bounds (k N : Z) :
  0 < N <= 5 -> 0 <= k <= N ->
  exists q, module_progress k N = Fin q /\ (10 <= q)%Q /\ (q <= 90)%Q.
Proof.
  intros HN Hk.
  each_count N; each_count k; progress_value; split; vm_compute; discriminate.
Qed.

(** The progress updates of the module phase: one per module, for the
    counts [k + 1], [k + 2], ... of completed modules. *)
Lemma progress_modules_log env url sid total ms k :
  progress_writes (modules_log env url sid total k ms)
  = map (fun j => module_progress j total) (seqZ (k + 1) (Z.of_nat (length ms))).
Proof.
  revert k. induction ms as [|m ms IH]; intros k.
  - reflexivity.
  - cbn [modules_log length]. rewrite progress_writes_app.
    destruct (module_op_no_progress _ (module_ops_module_op m env url sid)) as [-> _].
    rewrite seqZ_cons by lia. cbn [map app]. simpl progress_writes. rewrite IH.
    do 3 f_equal; lia.
Qed.

Lemma seqZ_sorted (n : nat) (m : Z) : StronglySorted Z.le (seqZ m (Z.of_nat n)).
Proof.
  revert m. induction n as [|n IH]; intros m.
  - constructor.
  - rewrite seqZ_cons by lia. constructor.
    + replace (Z.pred (Z.of_nat (S n))) with (Z.of_nat n) by lia. apply IH.
    + apply Forall_seqZ. lia.
Qed.

Lemma progress_sorted (N : Z) (js : list Z) :
  0 < N <= 5 -> List.Forall (fun j => 0 <= j <= N) js ->
  StronglySorted Z.le js ->
  StronglySorted js_le (map (fun j => module_progress j N) js).
Proof.
  intros HN Hrange Hsorted.
  induction Hsorted as [|j js _ IH Hall]; simpl; constructor.
  - apply IH. now inversion Hrange.
  - apply List.Forall_forall. intros p Hp.
    apply in_map_iff in Hp as (k & <- & Hk).
    pose proof (proj1 (List.Forall_forall _ _) Hrange) as Hr.
    pose proof (proj1 (List.Forall_forall _ _) Hall k Hk) as Hjk.
    apply module_progress_mono; [lia| | exact Hjk |].
    + apply (Hr j). now left.
    + apply (Hr k). now right.
Qed.

(** The requests of the modules, split at the module of index [i]. *)
Lemma modules_log_middle env url sid total (ms : list ScannerModule) :
  forall k i m,
    ms !! i = Some m ->
    modules_log env url sid total k ms
    = modules_log env url sid total k (take i ms)
      ++ module_ops m env url sid
      ++ UpdateScan sid "running" (module_progress (k + Z.of_nat i + 1) total)
      :: modules_log env url sid total (k + Z.of_nat i + 1) (drop (S i) ms).
Proof.
  induction ms as [|m0 ms IH]; intros k i m Hi; [discriminate|].
  destruct i as [|i].
  - injection Hi as ->. cbn [take drop modules_log app].
    replace (k + Z.of_nat 0 + 1) with (k + 1) by lia. reflexivity.
  - cbn [take drop modules_log]. cbn in Hi.
    rewrite (IH (k + 1) i m Hi), <- !app_assoc. cbn [app].
    replace (k + 1 + Z.of_nat i + 1) with (k + Z.of_nat (S i) + 1) by lia.
    reflexivity.
Qed.

(** ** The row of the scan *)

Lemma head_in_history sid row ops : In row (history sid row ops).
Proof. destruct ops; simpl; auto. Qed.

(** Only the requests about [qa_scans] matter for the row. *)
Lemma history_scan_row_ops sid ops row row' :
  In row' (history sid row ops) <-> In row' (history sid row (scan_row_ops ops)).
Proof.
  revert row. induction ops as [|op ops IH]; intros row; [reflexivity|].
  cbn [scan_row_ops List.filter]. fold (scan_row_ops ops).
  destruct (is_module_op op) eqn:Hop; cbn [negb history In].
  - assert (Hsame : apply_op sid row op = row)
      by (destruct op; simpl in Hop; try discriminate; reflexivity).
    rewrite Hsame, IH. split; [intros [<-|H]; auto using head_in_history | auto].
  - now rewrite IH.
Qed.

Lemma scan_row_ops_app a b : scan_row_ops (a ++ b) = scan_row_ops a ++ scan_row_ops b.
Proof. apply List.filter_app. Qed.

Lemma scan_row_ops_module ops : Forall module_op ops -> scan_row_ops ops = [].
Proof.
  induction 1 as [|op ops Hop _ IH]; [reflexivity|].
  cbn [scan_row_ops List.filter]. fold (scan_row_ops ops).
  unfold module_op in Hop. destruct (is_module_op op); [exact IH|contradiction].
Qed.

Lemma scan_row_ops_modules_log env url sid total ms k :
  scan_row_ops (modules_log env url sid total k ms)
  = map (fun j => UpdateScan sid "running" (module_progress j total))
        (seqZ (k + 1) (Z.of_nat (length ms))).
Proof.
  revert k. induction ms as [|m ms IH]; intros k.
  - reflexivity.
  - cbn [modules_log length]. rewrite scan_row_ops_app.
    rewrite (scan_row_ops_module _ (module_ops_module_op m env url sid)).
    rewrite seqZ_cons by lia. cbn [map app scan_row_ops List.filter is_module_op negb].
    fold (scan_row_ops (modules_log env url sid total (k + 1) ms)). rewrite IH.
    do 3 f_equal; lia.
Qed.

(** The rows of the module phase and of what follows it. *)
Lemma history_updates sid N s tail (js : list Z) row row' :
  row_summary row = None ->
  In row' (history sid row
             (map (fun j => UpdateScan sid "running" (module_progress j N)) js
              ++ CompleteScan sid s :: tail)) ->
  row' = row \/
  (exists j, In j js /\
     row' = {| row_status := "running"; row_progress := module_progress j N;
               row_summary := None |}) \/
  In row' (history sid {| row_status := "completed"; row_progress := js_of_Z 100;
                          row_summary := Some (ScanSummary s) |} tail).
Proof.
  revert row. induction js as [|j js IH]; intros row Hnone; cbn [map app history In].
  - cbn [apply_op]. rewrite String.eqb_refl. intuition.
  - cbn [apply_op]. rewrite String.eqb_refl, Hnone. intros [<-|H]; [auto|].
    apply IH in H; [|reflexivity].
    destruct H as [->|[(j' & Hj' & ->)|H]]; eauto 6.
Qed.

Lemma enabled_count_nonneg request : 0 <= enabled_count request.
Proof. unfold enabled_count. lia. Qed.

(** Every state of the row during one scan is one of [reachable_row]. *)
Lemma scan_rows_reachable env request b row :
  In row (history (scanId request) queued_row (scan_log env request b)) ->
  reachable_row (enabled_count request)
    (summary_of (collected env request) (enabled_count request)) row.
Proof.
  rewrite history_scan_row_ops, scan_log_expected. unfold expected_log.
  cbn [scan_row_ops List.filter is_module_op negb history In apply_op].
  rewrite String.eqb_refl.
  intros [<-|H]; [constructor|]. revert H.
  destruct (setup env b) as [[]|e].
  - cbn [scan_row_ops List.filter is_module_op negb history In apply_op].
    rewrite String.eqb_refl.
    intros [<-|H]; [constructor|]. revert H.
    match goal with
    | |- context [List.filter ?f (?a ++ ?c :: ?t)] =>
      change (List.filter f (a ++ c :: t)) with (scan_row_ops (a ++ c :: t))
    end.
    rewrite scan_row_ops_app, scan_row_ops_modules_log.
    cbn [scan_row_ops List.filter is_module_op negb].
    intros H. apply history_updates in H; [|reflexivity].
    destruct H as [->|[(j & Hj & ->)|H]].
    + constructor.
    + constructor. apply list_elem_of_In, elem_of_seqZ in Hj.
      unfold enabled_count. lia.
    + revert H. destruct (context_close env) as [[]|e];
        cbn [List.filter is_module_op negb history In apply_op];
        rewrite ?String.eqb_refl; cbn [row_progress].
      * intros [<-|[]]. constructor.
      * intros [<-|[<-|[]]]; constructor.
  - cbn [List.filter is_module_op negb history In apply_op].
    rewrite String.eqb_refl. cbn [row_progress].
    intros [<-|[<-|[]]]; constructor.
Qed.

(** C5. Whenever the row of a scan is in the completed state, its summary
    has [totalTests] and [completedTests] equal to the number of enabled
    modules, whatever happened inside the modules. *)
Theorem completed_scan_counts_enabled_modules env request b row :
  In row (history (scanId request) queued_row (scan_log env request b)) ->
  row_status row = "completed" ->
  exists s,
    row_summary row = Some (ScanSummary s) /\
    totalTests s = enabled_count request /\
    completedTests s = enabled_count request.
Proof.
  intros Hin Hst. apply scan_rows_reachable in Hin.
  destruct Hin; try discriminate Hst.
  eexists. split; [reflexivity|]. split; reflexivity.
Qed.

Lemma completed_scan_counts_enabled_modules_witness :
  marked_failed (scan_log example_env (request_for "http://example.com" None) true)
    = ["test-performance"] /\
  exists s,
    Some (ScanSummary
            (summary_of (collected example_env (request_for "http://example.com" None)) 5))
      = Some (ScanSummary s) /\
    totalTests s = 5 /\ completedTests s = 5.
Proof.
  split; [vm_compute; reflexivity|].
  apply (completed_scan_counts_enabled_modules example_env
           (request_for "http://example.com" None) true
           {| row_status := "completed"; row_progress := js_of_Z 100;
              row_summary :=
                Some (ScanSummary
                        (summary_of
                           (collected example_env
                              (request_for "http://example.com" None)) 5)) |}).
  - vm_compute. repeat (first [left; reflexivity | right]).
  - reflexivity.
Defined.

(** The progress values written during a scan whose set-up succeeds. *)
Lemma progress_writes_scan_log env request b :
  progress_writes (scan_log env request b) =
  js_of_Z 0 ::
  match setup env b with
  | Returned _ =>
    js_of_Z 5 ::
    map (fun k => module_progress k (enabled_count request))
        (seqZ 1 (enabled_count request)) ++ [js_of_Z 100]
  | Threw _ => []
  end.
Proof.
  rewrite scan_log_expected. unfold expected_log.
  destruct (setup env b) as [[]|e]; [|reflexivity].
  match goal with
  | |- progress_writes (UpdateScan _ _ ?p :: UpdateScan _ _ ?q :: ?rest) = _ =>
    change (p :: q :: progress_writes rest = 
            js_of_Z 0 :: js_of_Z 5 ::
              map (fun k => module_progress k (enabled_count request))
                  (seqZ 1 (enabled_count request)) ++ [js_of_Z 100])
  end.
  rewrite progress_writes_app, progress_modules_log. do 3 f_equal.
  destruct (context_close env); reflexivity.
Qed.

(** C6, as the code has it. Once the navigation has succeeded the progress
    is set to 5. The enabled modules then run in order: the requests of the
    k-th of the N enabled modules come after those of the modules before it
    and their progress updates, and are followed at once by the update of
    the row to [10 + (k / N) * 80], computed in double precision; after the
    last module comes the completion, which writes 100, and no progress is
    written after it. The value written after the k-th module is above 10
    and at most 90, it is 90 after the last module and only then, it is the
    number 10 + 80 k / N itself unless N is 3, and it is within 2^-47 of
    that number in any case. *)
Theorem progress_band_10_to_90 env request b :
  setup env b = Returned tt ->
  let sid := scanId request in
  let N := enabled_count request in
  let ms := enabled (testsToRun_of (settings request)) in
  progress_writes (scan_log env request b)
  = js_of_Z 0 :: js_of_Z 5 :: map (fun k => module_progress k N) (seqZ 1 N)
    ++ [js_of_Z 100] /\
  (forall i m,
     ms !! i = Some m ->
     exists closing,
       scan_log env request b
       = UpdateScan sid "running" (js_of_Z 0)
         :: UpdateScan sid "running" (js_of_Z 5)
         :: modules_log env (url request) sid N 0 (take i ms)
         ++ module_ops m env (url request) sid
         ++ UpdateScan sid "running" (module_progress (Z.of_nat i + 1) N)
         :: modules_log env (url request) sid N (Z.of_nat i + 1) (drop (S i) ms)
         ++ CompleteScan sid (summary_of (collected env request) N)
         :: closing /\
       progress_writes closing = []) /\
  (forall k,
     1 <= k <= N ->
     exists q,
       module_progress k N = Fin q /\
       (10 < q)%Q /\ (q <= 90)%Q /\
       (k = N <-> (q == 90)%Q) /\
       (N <> 3 -> (q == 10 + inject_Z k / inject_Z N * 80)%Q) /\
       (Qabs (q - (10 + inject_Z k / inject_Z N * 80)) <= 1 # 2 ^ 47)%Q).
Proof.
  intros Hsetup. cbv zeta. split; [|split].
  - now rewrite progress_writes_scan_log, Hsetup.
  - intros i m Hi. rewrite scan_log_expected. unfold expected_log.
    rewrite Hsetup, (modules_log_middle _ _ _ _ _ 0 i m Hi), <- !app_assoc.
    exists (match context_close env with
            | Threw e => [FailScan (scanId request) (message_of e)]
            | Returned _ => []
            end).
    split.
    + reflexivity.
    + destruct (context_close env); reflexivity.
  - intros k Hk. pose proof (enabled_count_le_5 request) as H5.
    generalize dependent (enabled_count request). intros N Hk H5.
    each_count N; each_count k; progress_value;
      repeat (apply conj);
      first
        [ intros Hne; exfalso; apply Hne; reflexivity
        | intros Heq; discriminate Heq
        | intros Heq; vm_compute in Heq; discriminate Heq
        | intros _; reflexivity
        | vm_compute; reflexivity
        | vm_compute; discriminate ].
Qed.

Lemma progress_band_10_to_90_witness :
  progress_writes
    (scan_log example_env (request_for "http://example.com" (Some three_modules)) true)
  = [js_of_Z 0; js_of_Z 5;
     Fin (5160374573028693 # 140737488355328);
     Fin (4456687131252053 # 70368744177664);
     js_of_Z 90; js_of_Z 100].
Proof.
  destruct (progress_band_10_to_90 example_env
              (request_for "http://example.com" (Some three_modules)) true eq_refl)
    as (Hwrites & _).
  exact Hwrites.
Defined.

(** C6 as stated fails: with one enabled module, the value written after
    the navigation is X = 5 and the value written after the first and last
    module is 90, not X + (1/1) * (100 - X) = 100. *)
Lemma progress_band_counterexample :
  exists X q,
    progress_writes
      (scan_log example_env (request_for "http://example.com" (Some only_seo)) true)
    = [js_of_Z 0; Fin X; Fin q; js_of_Z 100] /\
    ~ (q == X + (1 # 1) / (1 # 1) * (100 - X))%Q.
Proof.
  exists 5%Q, 90%Q. split.
  - rewrite progress_writes_scan_log. vm_compute. reflexivity.
  - intros H. vm_compute in H. discriminate H.
Qed.

(** C7. The progress values written to the row, from its initial 0 on, never
    decrease, and the row's progress is 100 only when its status is completed
    or failed. *)
Theorem progress_never_decreases_100_only_terminal env request b :
  StronglySorted js_le
    (row_progress queued_row :: progress_writes (scan_log env request b)) /\
  (forall row,
     In row (history (scanId request) queued_row (scan_log env request b)) ->
     is_100 (row_progress row) -> terminal (row_status row)).
Proof.
  split.
  - rewrite progress_writes_scan_log.
    assert (H0 : forall l, Forall (js_le (js_of_Z 0)) l -> StronglySorted js_le l ->
                           StronglySorted js_le (js_of_Z 0 :: js_of_Z 0 :: l)).
    { intros l Hall Hs. repeat constructor; auto. easy. }
    cbn [row_progress queued_row]. apply H0.
    + destruct (setup env b); [|constructor].
      constructor; [easy|]. apply Forall_app. split; [|repeat constructor; easy].
      apply Forall_map, Forall_seqZ. intros k Hk.
      destruct (module_progress_bounds k (enabled_count request)) as (q & -> & Hq & _);
        [pose proof (enabled_count_le_5 request); lia|lia|].
      simpl. eapply Qle_trans; [|exact Hq]. easy.
    + destruct (setup env b); [|constructor].
      constructor.
      * destruct (Z.le_gt_cases (enabled_count request) 0) as [Hle|Hgt].
        -- rewrite seqZ_nil by lia. repeat constructor.
        -- apply StronglySorted_app. split; [|split].
           ++ intros p1 p2 Hp1 Hp2. apply list_elem_of_fmap in Hp1 as (k & -> & Hk).
              apply elem_of_seqZ in Hk. apply list_elem_of_singleton in Hp2 as ->.
              destruct (module_progress_bounds k (enabled_count request))
                as (q & -> & _ & Hq);
                [pose proof (enabled_count_le_5 request); lia|lia|].
              simpl. eapply Qle_trans; [exact Hq|]. easy.
           ++ apply progress_sorted;
                [pose proof (enabled_count_le_5 request); lia| |].
              ** apply List.Forall_forall. intros k Hk.
                 apply list_elem_of_In, elem_of_seqZ in Hk. lia.
              ** rewrite <- (Z2Nat.id (enabled_count request)) by lia.
                 apply seqZ_sorted.
           ++ repeat constructor.
      * apply Forall_app. split; [|repeat constructor; easy].
        apply Forall_map, Forall_seqZ. intros k Hk.
        destruct (module_progress_bounds k (enabled_count request)) as (q & -> & Hq & _);
          [pose proof (enabled_count_le_5 request); lia|lia|].
        simpl. eapply Qle_trans; [|exact Hq]. easy.
  - intros row Hin H100. apply scan_rows_reachable in Hin.
    destruct Hin as [| |e| |j Hj| |e]; cbn [row_progress row_status queued_row] in H100 |- *;
      try (unfold terminal; auto; fail);
      try (vm_compute in H100; discriminate H100).
    destruct (module_progress_bounds j (enabled_count request)) as (q & Hq & _ & Hle);
      [pose proof (enabled_count_le_5 request); lia|lia|].
    rewrite Hq in H100. simpl in H100.
    rewrite H100 in Hle. vm_compute in Hle. contradiction.
Qed.

Lemma progress_never_decreases_100_only_terminal_witness :
  terminal "completed".
Proof.
  apply (proj2 (progress_never_decreases_100_only_terminal example_env
                  (request_for "http://example.com" None) true)
           {| row_status := "completed"; row_progress := js_of_Z 100;
              row_summary :=
                Some (ScanSummary
                        (summary_of
                           (collected example_env
                              (request_for "http://example.com" None)) 5)) |}).
  - vm_compute. repeat (first [left; reflexivity | right]).
  - reflexivity.
Defined.

(** C10. With every module flag false and a set-up that succeeds, the scan
    completes: after the two set-up updates (progress 0 and 5) the only
    request is the completion, no per-module progress is computed, and the
    summary has no issue, no test, and the score 100. *)
Theorem no_module_enabled_scan_completes env request b :
  tests (settings request) = Some all_false ->
  setup env b = Returned tt ->
  let sid := scanId request in
  let summary := {| totalIssues := 0; criticalIssues := 0; overallScore := 100;
                    completedTests := 0; totalTests := 0 |} in
  scan_log env request b
  = UpdateScan sid "running" (js_of_Z 0) ::
    UpdateScan sid "running" (js_of_Z 5) ::
    CompleteScan sid summary ::
    match context_close env with
    | Returned _ => []
    | Threw e => [FailScan sid (message_of e)]
    end
  /\ In {| row_status := "completed"; row_progress := js_of_Z 100;
           row_summary := Some (ScanSummary summary) |}
        (history sid queued_row (scan_log env request b))
  /\ progress_writes (scan_log env request b) = [js_of_Z 0; js_of_Z 5; js_of_Z 100].
Proof.
  intros Htests Hsetup sid summary.
  assert (Hlog : scan_log env request b
    = UpdateScan sid "running" (js_of_Z 0) ::
      UpdateScan sid "running" (js_of_Z 5) ::
      CompleteScan sid summary ::
      match context_close env with
      | Returned _ => []
      | Threw e => [FailScan sid (message_of e)]
      end).
  { rewrite scan_log_expected. unfold expected_log, collected, enabled_count,
      testsToRun_of. rewrite Hsetup, Htests. reflexivity. }
  rewrite Hlog. split; [reflexivity|]. split.
  - cbn [history In apply_op]. rewrite !String.eqb_refl.
    do 3 right. apply head_in_history.
  - destruct (context_close env); reflexivity.
Qed.

Lemma no_module_enabled_scan_completes_witness :
  scan_log example_env (request_for "http://example.com" (Some all_false)) false
  = [UpdateScan "scan-1" "running" (js_of_Z 0);
     UpdateScan "scan-1" "running" (js_of_Z 5);
     CompleteScan "scan-1"
       {| totalIssues := 0; criticalIssues := 0; overallScore := 100;
          completedTests := 0; totalTests := 0 |}].
Proof.
  destruct (no_module_enabled_scan_completes example_env
              (request_for "http://example.com" (Some all_false)) false)
    as (Hlog & _ & _); [reflexivity | reflexivity | exact Hlog].
Defined.

(** ** Errors inside a module *)




(** ** Running a module step by step *)

Lemma run_insert_test {L} sid name cat data (l : L) w :
  insert_test sid name cat data l w
  = ((l, add_ops w [InsertTest sid name cat "running" 0]), Returned data).
Proof. reflexivity. Qed.

Lemma run_assign t l w :
  assign_testId t l w = (({| issues := issues l; testId := Some t |}, w), Returned tt).
Proof. reflexivity. Qed.

Lemma run_await {L A} (o : outcome A) (l : L) w : await o l w = ((l, w), o).
Proof. reflexivity. Qed.

Lemma run_created row l w :
  (i <- (send (InsertIssue row) ;;; ret {| severity := row_severity row |}) ;; push i) l w
  = (({| issues := issues l ++ [{| severity := row_severity row |}];
         testId := testId l |},
      add_ops w [InsertIssue row]), Returned tt).
Proof. reflexivity. Qed.

Lemma run_record row sev l w :
  (send (InsertIssue row) ;;; push {| severity := sev |}) l w
  = (({| issues := issues l ++ [{| severity := sev |}]; testId := testId l |},
      add_ops w [InsertIssue row]), Returned tt).
Proof. reflexivity. Qed.

(** What [scan] sends and returns, from the outcome of its [try] block. *)
Lemma skeleton_result (body : Eff ModuleLocals unit) l' w' r :
  body fresh (start false) = ((l', w'), r) ->
  issue_rows (sent (call fresh (try_catch body on_error ;;; return_issues)))
    = issue_rows (db w') /\
  returned (call fresh (try_catch body on_error ;;; return_issues)) = issues l'.
Proof.
  intros Hbody. unfold sent, returned. rewrite skeleton_run, Hbody.
  destruct r as [[]|e]; [easy|]. cbn [fst snd].
  destruct (truthy_opt (testId l')); [|easy].
  split; [|reflexivity]. unfold add_ops. cbn [db].
  rewrite issue_rows_app. cbn. now rewrite app_nil_r.
Qed.

Lemma rows_titled_app t a b :
  rows_titled t (a ++ b) = rows_titled t a ++ rows_titled t b.
Proof. unfold rows_titled. now rewrite issue_rows_app, List.filter_app. Qed.

Lemma untitled_rows ts (rows : list IssueRow) :
  Forall (untitled ts) rows ->
  forall t, In t ts ->
  List.filter (fun row => String.eqb (title row) t) rows = [].
Proof.
  intros Hall t Hin. induction Hall as [|row rows Hrow _ IH]; [reflexivity|].
  cbn [List.filter]. rewrite IH.
  destruct (String.eqb_spec (title row) t) as [Heq|]; [|reflexivity].
  unfold untitled in Hrow. apply not_true_iff_false in Hrow. exfalso. apply Hrow.
  apply existsb_exists. exists t. split; [exact Hin|]. subst t. apply String.eqb_refl.
Qed.

(** One step of a [try] block: the first statement of a sequence. *)
Ltac step := rewrite bind_unfold; cbv beta iota delta [fst snd].

(** The rest of a [try] block: it is run through [tracks P], and what it
    pushes and sends is named. *)
Ltac run_tail P :=
  match goal with
  | |- context [@bind ModuleLocals ?A ?B ?m ?k ?l ?w] =>
    let Hrest := fresh "Hrest" in
    assert (Hrest : tracks P (@bind ModuleLocals A B m k)) by (repeat tracks_step);
    let found := fresh "found" in
    let ops := fresh "ops" in
    let r := fresh "r" in
    let Hp := fresh "Hp" in
    let Hr := fresh "Hr" in
    destruct (Hrest l) as (found & ops & r & _ & _ & (_ & _ & Hp) & Hr);
    rewrite Hr; clear Hr Hrest
  end.

Lemma length_61_truthy (s : string) : String.length s = 61%nat -> truthy s = true.
Proof. destruct s; [discriminate|reflexivity]. Qed.

(** The SEO [try] block on a title of 61 characters. *)
Lemma seo_long_title_run mc mcont h1 url sid t s :
  String.length s = 61%nat ->
  exists l' w' r row found ops,
    SEOScanner.scan_try
      {| SEOScanner.test := Some t; SEOScanner.page_title := Returned s;
         SEOScanner.meta_count := mc; SEOScanner.meta_content := mcont;
         SEOScanner.h1_count := h1 |} url sid fresh (start false) = ((l', w'), r) /\
    issues l' = {| severity := "medium" |} :: found /\
    issue_rows (db w') = row :: issue_rows ops /\
    title row = "Title Tag Too Long" /\ row_severity row = "medium" /\
    Forall (untitled ["Title Tag Too Long"; "Missing Title Tag"]) (issue_rows ops).
Proof.
  intros Hlen. unfold SEOScanner.scan_try. cbv zeta.
  cbn [SEOScanner.test SEOScanner.page_title SEOScanner.meta_count
       SEOScanner.meta_content SEOScanner.h1_count].
  step. rewrite run_insert_test. cbv beta iota delta [fst snd].
  step. rewrite run_assign. cbv beta iota delta [fst snd].
  step. rewrite run_await. cbv beta iota delta [fst snd].
  rewrite (length_61_truthy s Hlen), Hlen.
  change (negb true) with false. change (Nat.ltb 60 61) with true. cbv iota.
  step. unfold SEOScanner.createIssue at 1. rewrite run_created.
  cbv beta iota delta [fst snd].
  run_tail (untitled ["Title Tag Too Long"; "Missing Title Tag"]).
  do 3 eexists. eexists. exists found, ops.
  split; [reflexivity|]. split; [reflexivity|].
  split; [unfold add_ops, start; cbn [db]; rewrite !issue_rows_app; reflexivity|].
  split; [reflexivity|]. split; [reflexivity|]. exact Hp.
Qed.

(** The SEO [try] block on an empty title. *)
Lemma seo_empty_title_run mc mcont h1 url sid t :
  exists l' w' r row found ops,
    SEOScanner.scan_try
      {| SEOScanner.test := Some t; SEOScanner.page_title := Returned "";
         SEOScanner.meta_count := mc; SEOScanner.meta_content := mcont;
         SEOScanner.h1_count := h1 |} url sid fresh (start false) = ((l', w'), r) /\
    issues l' = {| severity := "high" |} :: found /\
    issue_rows (db w') = row :: issue_rows ops /\
    title row = "Missing Title Tag" /\ row_severity row = "high" /\
    Forall (untitled ["Title Tag Too Long"; "Missing Title Tag"]) (issue_rows ops).
Proof.
  unfold SEOScanner.scan_try. cbv zeta.
  cbn [SEOScanner.test SEOScanner.page_title SEOScanner.meta_count
       SEOScanner.meta_content SEOScanner.h1_count].
  step. rewrite run_insert_test. cbv beta iota delta [fst snd].
  step. rewrite run_assign. cbv beta iota delta [fst snd].
  step. rewrite run_await. cbv beta iota delta [fst snd].
  change (negb (truthy "")) with true. cbv iota.
  step. unfold SEOScanner.createIssue at 1. rewrite run_created.
  cbv beta iota delta [fst snd].
  run_tail (untitled ["Title Tag Too Long"; "Missing Title Tag"]).
  do 3 eexists. eexists. exists found, ops.
  split; [reflexivity|]. split; [reflexivity|].
  split; [unfold add_ops, start; cbn [db]; rewrite !issue_rows_app; reflexivity|].
  split; [reflexivity|]. split; [reflexivity|]. exact Hp.
Qed.

(** The SEO [try] block on a page with exactly one H1. *)
Lemma seo_one_h1_run test title mc mcont url sid :
  exists l' w' r,
    SEOScanner.scan_try
      {| SEOScanner.test := test; SEOScanner.page_title := title;
         SEOScanner.meta_count := mc; SEOScanner.meta_content := mcont;
         SEOScanner.h1_count := Returned 1%nat |} url sid fresh (start false)
    = ((l', w'), r) /\
    Forall (untitled ["Missing H1 Tag"; "Multiple H1 Tags"]) (issue_rows (db w')).
Proof.
  unfold SEOScanner.scan_try. cbv zeta.
  cbn [SEOScanner.test SEOScanner.page_title SEOScanner.meta_count
       SEOScanner.meta_content SEOScanner.h1_count].
  match goal with
  | |- context [throw (ErrorObj ?msg)] =>
    match goal with
    | |- context [insert_test sid ?name ?cat ?data] =>
      edestruct (try_shape (untitled ["Missing H1 Tag"; "Multiple H1 Tags"])
                   sid name cat data msg)
        as (found & ops & r & _ & _ & (_ & _ & Hp) & _ & Hrun)
    end
  end.
  2: { rewrite Hrun. do 3 eexists. split; [reflexivity|]. exact Hp. }
  intros t. repeat tracks_step.
Qed.

(** C8. The SEO module, its TestRun record created: a title of 61
    characters gives exactly one row titled "Title Tag Too Long", of medium
    severity, and no "Missing Title Tag" row; an empty title gives exactly
    one row titled "Missing Title Tag", of high severity, and no "Title Tag
    Too Long" row; a page with exactly one H1 gives no "Missing H1 Tag" and no
    "Multiple H1 Tags" row. The issue of the title check is the first one
    returned. *)
Theorem seo_title_and_h1_checks (env : SEOScanner.Env) url sid t :
  SEOScanner.test env = Some t ->
  let ops := sent (SEOScanner.scan env url sid) in
  let found := returned (SEOScanner.scan env url sid) in
  (forall s, SEOScanner.page_title env = Returned s -> String.length s = 61%nat ->
     (exists row, rows_titled "Title Tag Too Long" ops = [row] /\
                  row_severity row = "medium") /\
     rows_titled "Missing Title Tag" ops = [] /\
     exists rest, found = {| severity := "medium" |} :: rest) /\
  (SEOScanner.page_title env = Returned "" ->
     (exists row, rows_titled "Missing Title Tag" ops = [row] /\
                  row_severity row = "high") /\
     rows_titled "Title Tag Too Long" ops = [] /\
     exists rest, found = {| severity := "high" |} :: rest) /\
  (SEOScanner.h1_count env = Returned 1%nat ->
     rows_titled "Missing H1 Tag" ops = [] /\ rows_titled "Multiple H1 Tags" ops = []).
Proof.
  destruct env as [test title mc mcont h1].
  cbn [SEOScanner.test SEOScanner.page_title SEOScanner.h1_count].
  intros ->. unfold rows_titled, SEOScanner.scan.
  split; [|split].
  - intros s -> Hlen.
    destruct (seo_long_title_run mc mcont h1 url sid t s Hlen)
      as (l' & w' & r & row & found & ops & Hrun & Hl & Hw & Ht & Hs & Hp).
    destruct (skeleton_result _ _ _ _ Hrun) as [-> ->]. rewrite Hw, Hl.
    cbn [List.filter]. rewrite Ht. cbn [String.eqb Ascii.eqb Bool.eqb].
    rewrite !(untitled_rows _ _ Hp) by (cbn; auto).
    split; [eauto|]. split; [reflexivity|eauto].
  - intros ->.
    destruct (seo_empty_title_run mc mcont h1 url sid t)
      as (l' & w' & r & row & found & ops & Hrun & Hl & Hw & Ht & Hs & Hp).
    destruct (skeleton_result _ _ _ _ Hrun) as [-> ->]. rewrite Hw, Hl.
    cbn [List.filter]. rewrite Ht. cbn [String.eqb Ascii.eqb Bool.eqb].
    rewrite !(untitled_rows _ _ Hp) by (cbn; auto).
    split; [eauto|]. split; [reflexivity|eauto].
  - intros ->.
    destruct (seo_one_h1_run (Some t) title mc mcont url sid)
      as (l' & w' & r & Hrun & Hp).
    destruct (skeleton_result _ _ _ _ Hrun) as [-> _].
    rewrite !(untitled_rows _ _ Hp) by (cbn; auto). split; reflexivity.
Qed.

Lemma seo_title_and_h1_checks_witness :
  (exists row,
     rows_titled "Title Tag Too Long"
       (sent (SEOScanner.scan long_title_page "http://example.com" "scan-1")) = [row] /\
     row_severity row = "medium") /\
  rows_titled "Missing H1 Tag"
    (sent (SEOScanner.scan long_title_page "http://example.com" "scan-1")) = [].
Proof.
  destruct (seo_title_and_h1_checks long_title_page "http://example.com" "scan-1"
              {| id := "test-seo" |} eq_refl) as (Hlong & _ & Hone).
  split.
  - exact (proj1 (Hlong _ eq_refl eq_refl)).
  - exact (proj1 (Hone eq_refl)).
Defined.

(** ** The Security checks *)

(** The Security [try] block on a URL that does not begin with "https". *)
Lemma security_no_https_run url sid t resp :
  String.prefix "https" url = false ->
  exists l' w' r row found ops,
    SecurityScanner.scan_try
      {| SecurityScanner.test := Some t; SecurityScanner.page_goto := Returned resp |}
      url sid fresh (start false) = ((l', w'), r) /\
    issues l' = {| severity := "high" |} :: found /\
    issue_rows (db w') = row :: issue_rows ops /\
    title row = "No HTTPS" /\ row_severity row = "high" /\
    Forall (untitled ["No HTTPS"]) (issue_rows ops).
Proof.
  intros Hprefix. unfold SecurityScanner.scan_try. cbv zeta.
  cbn [SecurityScanner.test SecurityScanner.page_goto].
  step. rewrite run_insert_test. cbv beta iota delta [fst snd].
  step. rewrite run_assign. cbv beta iota delta [fst snd].
  step. rewrite run_await. cbv beta iota delta [fst snd].
  rewrite Hprefix. change (negb false) with true. cbv iota.
  step. unfold SecurityScanner.createIssue at 1. rewrite run_record.
  cbv beta iota delta [fst snd].
  run_tail (untitled ["No HTTPS"]).
  do 3 eexists. eexists. exists found, ops.
  split; [reflexivity|]. split; [reflexivity|].
  split; [unfold add_ops, start; cbn [db]; rewrite !issue_rows_app; reflexivity|].
  split; [reflexivity|]. split; [reflexivity|]. exact Hp.
Qed.

(** A string without a colon begins a URL when it begins its scheme. *)
Lemma prefix_url_scheme (p url : string) :
  forallb (fun c => negb (Ascii.eqb c ":")) (list_ascii_of_string p) = true ->
  String.prefix p (url_scheme url) = String.prefix p url.
Proof.
  revert url. induction p as [|a p IH]; intros url Hp.
  { destruct url as [|c url]; cbn [url_scheme String.prefix]; [reflexivity|].
    destruct (Ascii.eqb c ":"); reflexivity. }
  cbn in Hp. apply andb_prop in Hp as [Ha Hp].
  destruct url as [|c url]; [reflexivity|].
  cbn [url_scheme String.prefix].
  destruct (ascii_dec a c) as [<-|Hne].
  - apply negb_true_iff in Ha. rewrite Ha. cbn [String.prefix].
    destruct (ascii_dec a a); [|contradiction]. now apply IH.
  - destruct (Ascii.eqb c ":"); cbn [String.prefix]; [reflexivity|].
    destruct (ascii_dec a c); [contradiction|reflexivity].
Qed.

(** C9. The Security module, its TestRun record created and its navigation
    to the URL done: for every URL whose scheme does not begin with "https"
    (of the schemes a browser navigates to, only https itself does), and so
    for every "http://..." URL, it inserts exactly one row titled
    "No HTTPS", of high severity, whatever the response and its headers are,
    and even without a response; the issue is the first one it returns. *)
Theorem security_flags_non_https_url (env : SecurityScanner.Env) url sid t resp :
  SecurityScanner.test env = Some t ->
  SecurityScanner.page_goto env = Returned resp ->
  String.prefix "https" (url_scheme url) = false ->
  (exists row,
     rows_titled "No HTTPS" (sent (SecurityScanner.scan env url sid)) = [row] /\
     row_severity row = "high") /\
  (exists rest,
     returned (SecurityScanner.scan env url sid) = {| severity := "high" |} :: rest) /\
  (forall tail,
     url_scheme ("http://" +:+ tail) = "http" /\
     String.prefix "https" (url_scheme ("http://" +:+ tail)) = false).
Proof.
  destruct env as [test goto]. cbn [SecurityScanner.test SecurityScanner.page_goto].
  intros -> -> Hscheme. rewrite prefix_url_scheme in Hscheme by reflexivity.
  unfold rows_titled, SecurityScanner.scan.
  destruct (security_no_https_run url sid t resp Hscheme)
    as (l' & w' & r & row & found & ops & Hrun & Hl & Hw & Ht & Hs & Hp).
  destruct (skeleton_result _ _ _ _ Hrun) as [-> ->]. rewrite Hw, Hl.
  cbn [List.filter]. rewrite Ht. cbn [String.eqb Ascii.eqb Bool.eqb].
  rewrite !(untitled_rows _ _ Hp) by (cbn; auto).
  split; [eauto|]. split; [eauto|]. intros tail. split; reflexivity.
Qed.

Lemma security_flags_non_https_url_witness :
  exists row,
    rows_titled "No HTTPS"
      (sent (SecurityScanner.scan no_headers "http://example.com" "scan-1")) = [row] /\
    row_severity row = "high".
Proof.
  destruct (security_flags_non_https_url no_headers
              "http://example.com" "scan-1" {| id := "test-security" |}
              (Some {| SecurityScanner.headers := ∅ |})
              eq_refl eq_refl eq_refl) as (Hrow & _).
  exact Hrow.
Defined.

(** ** End to end: SEO and Security on a bare page served over http *)

(** What the two modules return on such a page. *)
Lemma seo_bare_page_found url sid t mcont :
  returned (SEOScanner.scan
              {| SEOScanner.test := Some t; SEOScanner.page_title := Returned "";
                 SEOScanner.meta_count := Returned 0%nat;
                 SEOScanner.meta_content := mcont;
                 SEOScanner.h1_count := Returned 2%nat |} url sid)
  = [{| severity := "high" |}; {| severity := "high" |}; {| severity := "medium" |}].
Proof. vm_compute. reflexivity. Qed.

Lemma security_plain_http_found tail sid t resp :
  let securityHeaders :=
    match resp with
    | Some r => SecurityScanner.headers r
    | None => ∅
    end in
  SecurityScanner.header_missing securityHeaders "content-security-policy" = true ->
  SecurityScanner.header_missing securityHeaders "x-frame-options" = true ->
  returned (SecurityScanner.scan
              {| SecurityScanner.test := Some t;
                 SecurityScanner.page_goto := Returned resp |}
              ("http://" +:+ tail) sid)
  = [{| severity := "high" |}; {| severity := "medium" |}; {| severity := "medium" |}].
Proof.
  intros securityHeaders Hcsp Hxfo. subst securityHeaders.
  unfold returned, SecurityScanner.scan. rewrite skeleton_run.
  unfold SecurityScanner.scan_try. cbv zeta.
  cbn [SecurityScanner.test SecurityScanner.page_goto].
  step. rewrite run_insert_test. cbv beta iota delta [fst snd].
  step. rewrite run_assign. cbv beta iota delta [fst snd].
  step. rewrite run_await. cbv beta iota delta [fst snd].
  rewrite Hcsp, Hxfo.
  change (negb (String.prefix "https" ("http://" +:+ tail))) with true. cbv iota.
  unfold SecurityScanner.createIssue.
  do 3 (step; rewrite run_record; cbv beta iota delta [fst snd]).
  reflexivity.
Qed.

(** C2, as the code has it. With exactly the SEO and Security modules
    enabled, on a page with an empty title, no meta description element and
    two H1 elements, served over an http:// URL whose response has neither a
    Content-Security-Policy nor an X-Frame-Options header: the SEO module
    returns 2 high and 1 medium issue, the Security module 1 high and 2
    medium, which makes 3 high and 3 medium, and the overall score is
    100 - (3 * 10 + 3 * 5) = 55. *)
Theorem seo_and_security_end_to_end env request b tail t1 t2 resp :
  setup env b = Returned tt ->
  enabled (testsToRun_of (settings request)) = [SEO; Security] ->
  url request = "http://" +:+ tail ->
  SEOScanner.test (seo_env env) = Some t1 ->
  SEOScanner.page_title (seo_env env) = Returned "" ->
  SEOScanner.meta_count (seo_env env) = Returned 0%nat ->
  SEOScanner.h1_count (seo_env env) = Returned 2%nat ->
  SecurityScanner.test (sec_env env) = Some t2 ->
  SecurityScanner.page_goto (sec_env env) = Returned resp ->
  (let securityHeaders :=
     match resp with
     | Some r => SecurityScanner.headers r
     | None => ∅
     end in
   SecurityScanner.header_missing securityHeaders "content-security-policy" = true /\
   SecurityScanner.header_missing securityHeaders "x-frame-options" = true) ->
  module_found SEO env (url request) (scanId request)
  = [{| severity := "high" |}; {| severity := "high" |}; {| severity := "medium" |}] /\
  module_found Security env (url request) (scanId request)
  = [{| severity := "high" |}; {| severity := "medium" |}; {| severity := "medium" |}] /\
  count_severity "high" (collected env request) = 3 /\
  count_severity "medium" (collected env request) = 3 /\
  summaries (scan_log env request b)
  = [{| totalIssues := 6; criticalIssues := 3; overallScore := 55;
        completedTests := 2; totalTests := 2 |}].
Proof.
  intros Hsetup Henabled Hurl Ht1 Htitle Hmeta Hh1 Ht2 Hgoto [Hcsp Hxfo].
  assert (Hseo : module_found SEO env (url request) (scanId request)
    = [{| severity := "high" |}; {| severity := "high" |}; {| severity := "medium" |}]).
  { unfold module_found, module_scan.
    destruct (seo_env env) as [test title mc mcont h1].
    cbn [SEOScanner.test SEOScanner.page_title SEOScanner.meta_count
         SEOScanner.h1_count] in Ht1, Htitle, Hmeta, Hh1.
    subst test title mc h1. apply seo_bare_page_found. }
  assert (Hsec : module_found Security env (url request) (scanId request)
    = [{| severity := "high" |}; {| severity := "medium" |}; {| severity := "medium" |}]).
  { unfold module_found, module_scan. rewrite Hurl.
    destruct (sec_env env) as [test goto].
    cbn [SecurityScanner.test SecurityScanner.page_goto] in Ht2, Hgoto.
    subst test goto. now apply security_plain_http_found. }
  assert (Hall : collected env request
    = [{| severity := "high" |}; {| severity := "high" |}; {| severity := "medium" |};
       {| severity := "high" |}; {| severity := "medium" |}; {| severity := "medium" |}]).
  { unfold collected. rewrite Henabled. cbn [map concat]. now rewrite Hseo, Hsec. }
  split; [exact Hseo|]. split; [exact Hsec|].
  rewrite summaries_scan_log, Hsetup, Hall. unfold enabled_count.
  rewrite Henabled. split; [reflexivity|]. split; reflexivity.
Qed.

Lemma seo_and_security_end_to_end_witness :
  summaries
    (scan_log example_env (request_for "http://example.com" (Some seo_and_security)) true)
  = [{| totalIssues := 6; criticalIssues := 3; overallScore := 55;
        completedTests := 2; totalTests := 2 |}].
Proof.
  refine (proj2 (proj2 (proj2 (proj2
    (seo_and_security_end_to_end example_env
       (request_for "http://example.com" (Some seo_and_security)) true
       "example.com" {| id := "test-seo" |} {| id := "test-security" |}
       (Some {| SecurityScanner.headers := ∅ |})
       eq_refl eq_refl eq_refl eq_refl eq_refl eq_refl eq_refl eq_refl eq_refl _))))).
  split; reflexivity.
Defined.

Lemma example_summaries :
  summaries
    (scan_log example_env (request_for "http://example.com" (Some seo_and_security)) true)
  = [{| totalIssues := 6; criticalIssues := 3; overallScore := 55;
        completedTests := 2; totalTests := 2 |}].
Proof. vm_compute. reflexivity. Qed.

(** C2 as stated fails: on such a page the SEO module returns 2 high and 1
    medium issue, there are 3 medium issues in all, not 4, and the overall
    score is 55, not 50. *)
Lemma seo_and_security_counterexample :
  let request := request_for "http://example.com" (Some seo_and_security) in
  SEOScanner.page_title (seo_env example_env) = Returned "" /\
  SEOScanner.meta_count (seo_env example_env) = Returned 0%nat /\
  SEOScanner.h1_count (seo_env example_env) = Returned 2%nat /\
  SecurityScanner.page_goto (sec_env example_env)
    = Returned (Some {| SecurityScanner.headers := ∅ |}) /\
  module_found SEO example_env (url request) (scanId request)
    = [{| severity := "high" |}; {| severity := "high" |}; {| severity := "medium" |}] /\
  count_severity "medium" (collected example_env request) <> 4 /\
  (forall s, In s (summaries (scan_log example_env request true)) ->
             overallScore s = 55 /\ overallScore s <> 50).
Proof.
  cbv zeta. repeat (split; [reflexivity|]).
  split; [vm_compute; discriminate|].
  intros s Hs. rewrite example_summaries in Hs. destruct Hs as [<-|[]].
  split; [reflexivity|discriminate].
Qed.

(** * Further properties *)

(** ** Closure properties of [runs] *)

Section Runs.

Variable Tag : IssueRow -> Prop.

Lemma runs_ret {A} (a : A) : runs Tag nothing_more (ret a).
Proof.
  intros l w. exists [], (Returned a). split; [constructor|].
  unfold ret, nothing_more. cbn [map app]. now rewrite locals_eta, add_ops_nil.
Qed.

Lemma runs_throw {A} (fin : outcome A -> list Issue -> list DbOp) e :
  (forall e' found, fin (Threw e') found = []) -> runs Tag fin (throw e).
Proof.
  intros Hfin l w. exists [], (Threw e). split; [constructor|].
  unfold throw. cbn [map app]. now rewrite Hfin, locals_eta, add_ops_nil.
Qed.

Lemma runs_await {A} (o : outcome A) : runs Tag nothing_more (await o).
Proof.
  intros l w. exists [], o. split; [constructor|].
  unfold await, nothing_more. cbn [map app]. now rewrite locals_eta, add_ops_nil.
Qed.

Lemma runs_get_locals : runs Tag nothing_more get_locals.
Proof.
  intros l w. exists [], (Returned l). split; [constructor|].
  unfold get_locals, nothing_more. cbn [map app].
  now rewrite locals_eta, add_ops_nil.
Qed.

Lemma runs_bind {A B} (fin : outcome B -> list Issue -> list DbOp)
  (m : Eff ModuleLocals A) (k : A -> Eff ModuleLocals B) :
  (forall e found, fin (Threw e) found = []) ->
  runs Tag nothing_more m -> (forall a, runs Tag fin (k a)) ->
  runs Tag fin (bind m k).
Proof.
  intros Hfin Hm Hk l w. destruct (Hm l w) as (rows1 & r1 & Ht1 & Hrun1).
  rewrite bind_unfold, Hrun1. destruct r1 as [a|e]; cbv beta iota delta [fst snd].
  - destruct (Hk a {| issues := issues l ++ map issue_of rows1; testId := testId l |}
                (add_ops w (map InsertIssue rows1
                            ++ nothing_more (Returned a)
                                 (issues l ++ map issue_of rows1))))
      as (rows2 & r2 & Ht2 & Hrun2).
    exists (rows1 ++ rows2), r2. split; [now apply Forall_app|].
    rewrite Hrun2. cbn [issues testId]. unfold nothing_more.
    rewrite add_ops_app, !map_app, app_nil_r, <- !app_assoc. reflexivity.
  - exists rows1, (Threw e). split; [exact Ht1|].
    unfold nothing_more. now rewrite Hfin.
Qed.

(** A call whose result is known. *)
Lemma runs_bind_returned {A B} (fin : outcome B -> list Issue -> list DbOp)
  (a : A) (k : A -> Eff ModuleLocals B) :
  runs Tag fin (k a) -> runs Tag fin (bind (await (Returned a)) k).
Proof. intros Hk l w. exact (Hk l w). Qed.

(** A call that throws. *)
Lemma runs_bind_threw {A B} (fin : outcome B -> list Issue -> list DbOp)
  e (k : A -> Eff ModuleLocals B) :
  (forall e' found, fin (Threw e') found = []) ->
  runs Tag fin (bind (await (Threw e)) k).
Proof.
  intros Hfin l w. exists [], (Threw e). split; [constructor|].
  rewrite bind_unfold. unfold await. cbn [map app].
  now rewrite Hfin, locals_eta, add_ops_nil.
Qed.

Lemma runs_record row sev :
  row_severity row = sev -> Tag row ->
  runs Tag nothing_more (send (InsertIssue row) ;;; push {| severity := sev |}).
Proof.
  intros <- Hrow l w. exists [row], (Returned tt). split; [now constructor|].
  reflexivity.
Qed.

Lemma runs_created row :
  Tag row ->
  runs Tag nothing_more
    (i <- (send (InsertIssue row) ;;; ret {| severity := row_severity row |}) ;;
     push i).
Proof.
  intros Hrow l w. exists [row], (Returned tt). split; [now constructor|].
  reflexivity.
Qed.

Lemma runs_for_of {X} (xs : list X) (body : X -> Eff ModuleLocals unit) :
  (forall x, runs Tag nothing_more (body x)) ->
  runs Tag nothing_more (AccessibilityScanner.for_of xs body).
Proof.
  intros Hbody. induction xs as [|x rest IH]; simpl.
  - apply runs_ret.
  - apply runs_bind; auto.
Qed.

(** The last statements of a [try] block: the update that completes the
    test, with the flat score of the issues or with a score known before. *)
Lemma runs_flat_score t k :
  runs Tag (completes t (flat_score k))
    (l <- get_locals ;; send (UpdateTest t (TestCompleted (flat_score k (issues l))))).
Proof.
  intros l w. exists [], (Returned tt). split; [constructor|].
  unfold completes. cbn [map app]. rewrite app_nil_r.
  destruct l. reflexivity.
Qed.

Lemma runs_known_score t s :
  runs Tag (completes t (fun _ => s)) (send (UpdateTest t (TestCompleted s))).
Proof.
  intros l w. exists [], (Returned tt). split; [constructor|].
  unfold completes. cbn [map app]. rewrite app_nil_r.
  destruct l. reflexivity.
Qed.

End Runs.

(** The side condition on an inserted row: it carries the tags. *)
Ltac tag_ok := cbv [tagged module_category]; cbn; repeat split; reflexivity.

Ltac runs_step :=
  cbv beta iota zeta;
  lazymatch goal with
  | |- runs _ _ (bind get_locals (fun l => send (UpdateTest _ (TestCompleted (flat_score _ (issues l)))))) =>
    apply runs_flat_score
  | |- runs _ _ (send (UpdateTest _ (TestCompleted _))) => apply runs_known_score
  | |- runs _ _ (bind (send (InsertIssue _)) (fun _ => push _)) =>
    apply runs_record; [reflexivity | tag_ok]
  | |- runs _ _ (bind (SEOScanner.createIssue _ _ _ _ _ _ _) _) =>
    unfold SEOScanner.createIssue; apply runs_created; tag_ok
  | |- runs _ _ (bind (BestPracticesScanner.createIssue _ _ _ _ _ _ _) _) =>
    unfold BestPracticesScanner.createIssue; apply runs_created; tag_ok
  | |- runs _ _ (bind (SecurityScanner.createIssue _ _ _ _ _ _ _) _) =>
    unfold SecurityScanner.createIssue; apply runs_record; [reflexivity | tag_ok]
  | |- runs _ _ (bind (await (Returned _)) _) => apply runs_bind_returned
  | |- runs _ _ (bind (await (Threw _)) _) =>
    apply runs_bind_threw; (intros; reflexivity)
  | |- runs _ _ (bind _ _) =>
    apply runs_bind;
    [ (intros; reflexivity) | | intros ? ]
  | |- runs _ _ (if ?b then _ else _) => destruct b
  | |- runs _ _ (match ?x with _ => _ end) => destruct x
  | |- runs _ _ (ret _) => apply runs_ret
  | |- runs _ _ (throw _) =>
    apply runs_throw; (intros; reflexivity)
  | |- runs _ _ (await _) => apply runs_await
  | |- runs _ _ get_locals => apply runs_get_locals
  | |- runs _ _ (PerformanceScanner.the_audit _) => unfold PerformanceScanner.the_audit
  | |- runs _ _ (AccessibilityScanner.for_of _ _) => apply runs_for_of; intros ?
  end.

(** The [try] block of a module whose TestRun record [t] was created: the
    insert of the test, the assignment of [testId], and then the checks
    [k t], which end by completing the test. *)
Lemma try_runs Tag sc sid name cat t msg (k : TestRow -> Eff ModuleLocals unit) :
  runs Tag (completes (id t) sc) (k t) ->
  exists rows r,
    Forall Tag rows /\
    (test <- insert_test sid name cat (Some t) ;;
     match test with
     | None => throw (ErrorObj msg)
     | Some test => assign_testId (id test) ;;; k test
     end) fresh (start false)
    = (({| issues := map issue_of rows; testId := Some (id t) |},
        add_ops (start false)
          (InsertTest sid name cat "running" 0 :: map InsertIssue rows
           ++ completes (id t) sc r (map issue_of rows))), r).
Proof.
  intros Hk.
  destruct (Hk {| issues := []; testId := Some (id t) |}
              (add_ops (start false) [InsertTest sid name cat "running" 0]))
    as (rows & r & Ht & Hrun).
  exists rows, r. split; [exact Ht|].
  transitivity (k t {| issues := []; testId := Some (id t) |}
                  (add_ops (start false) [InsertTest sid name cat "running" 0]));
    [reflexivity|].
  rewrite Hrun. reflexivity.
Qed.

(** The [try] block of every module whose TestRun record was created. *)
Lemma module_try_runs m env url sid t :
  module_test m env = Some t ->
  exists rows r,
    Forall (tagged m sid url t) rows /\
    module_try m env url sid fresh (start false)
    = (({| issues := map issue_of rows; testId := Some (id t) |},
        add_ops (start false)
          (InsertTest sid (module_name m) (module_category m) "running" 0
           :: map InsertIssue rows
           ++ completes (id t) (completed_score m env) r (map issue_of rows))), r).
Proof.
  intros Ht.
  destruct m; cbn [module_test module_try module_name module_category] in *;
    [ unfold PerformanceScanner.scan_try
    | unfold AccessibilityScanner.scan_try
    | unfold SEOScanner.scan_try
    | unfold SecurityScanner.scan_try
    | unfold BestPracticesScanner.scan_try ];
    cbv zeta; rewrite Ht.
  - destruct env as [? ? ? ? [ptest pbrowser pport plh] ? ? ? ? ?].
    cbn [perf_env PerformanceScanner.context_browser PerformanceScanner.ws_port
         PerformanceScanner.lighthouse].
    unfold completed_score.
    cbn [perf_env PerformanceScanner.lighthouse].
    destruct plh as [[lhr|]|e];
      (edestruct (try_runs (tagged Performance sid url t)) as (rows & r & Htag & Hrun);
       [|exists rows, r; split; [exact Htag|exact Hrun]]);
      repeat runs_step.
  - edestruct (try_runs (tagged Accessibility sid url t)) as (rows & r & Htag & Hrun);
      [|exists rows, r; split; [exact Htag|exact Hrun]].
    repeat runs_step.
  - edestruct (try_runs (tagged SEO sid url t)) as (rows & r & Htag & Hrun);
      [|exists rows, r; split; [exact Htag|exact Hrun]].
    repeat runs_step.
  - edestruct (try_runs (tagged Security sid url t)) as (rows & r & Htag & Hrun);
      [|exists rows, r; split; [exact Htag|exact Hrun]].
    repeat runs_step.
  - edestruct (try_runs (tagged BestPractices sid url t)) as (rows & r & Htag & Hrun);
      [|exists rows, r; split; [exact Htag|exact Hrun]].
    repeat runs_step.
Qed.

(** ** Errors inside a module whose TestRun exists *)

(** C3. The [scan] of every module returns and never throws, from any state.
    Once its TestRun record exists: when the [try] block returns, its last
    request marks that TestRun completed with the module's own score, and
    [scan] returns the issues found; when the [try] block throws, at any
    stage, [scan] catches the exception, marks that TestRun failed as its
    one further request, and returns exactly the issues pushed before the
    throw, which are one for one the [qa_issues] rows inserted before it. *)
Theorem module_exception_is_contained :
  (forall L m env url sid (l : L) w,
     exists w' found, module_scan m env url sid l w = ((l, w'), Returned found)) /\
  (forall m env url sid t w l' w' r,
     module_test m env = Some t -> truthy (id t) = true ->
     module_try m env url sid fresh w = ((l', w'), r) ->
     exists rows w'',
       issues l' = map issue_of rows /\
       module_scan m env url sid tt w = ((tt, w''), Returned (issues l')) /\
       match r with
       | Returned _ =>
         db w' = db w
                 ++ InsertTest sid (module_name m) (module_category m) "running" 0
                 :: map InsertIssue rows
                 ++ [UpdateTest (id t)
                       (TestCompleted (completed_score m env (issues l')))] /\
         db w'' = db w'
       | Threw _ =>
         db w' = db w
                 ++ InsertTest sid (module_name m) (module_category m) "running" 0
                 :: map InsertIssue rows /\
         db w'' = db w' ++ [UpdateTest (id t) TestFailed]
       end).
Proof.
  split.
  - intros L m env url sid l w. rewrite module_scan_run. eauto.
  - intros m env url sid t w l' w' r Ht Hid Htry.
    destruct (module_try_runs m env url sid t Ht) as (rows & r0 & _ & Hruns).
    destruct (module_try_run m env url sid) as (found & ops & r1 & _ & _ & _ & _ & Hrun).
    rewrite Hrun in Hruns. injection Hruns as -> _ -> ->.
    rewrite module_scan_shape, skeleton_run, Htry.
    rewrite Hrun in Htry. injection Htry as <- <- <-.
    cbn [issues testId]. rewrite Ht. cbn [fmap option_fmap option_map].
    unfold truthy_opt. rewrite Hid. cbn [default].
    exists rows. destruct r0 as [[]|e]; cbn [completes].
    + eexists. split; [reflexivity|]. split; [reflexivity|].
      split; reflexivity.
    + eexists. split; [reflexivity|]. split; [reflexivity|].
      rewrite app_nil_r. split; reflexivity.
Qed.

Lemma module_exception_is_contained_witness :
  exists w'',
    module_scan SEO failing_seo_env "http://example.com" "scan-1" tt (start true)
    = ((tt, w''), Returned [{| severity := "high" |}]) /\
    db w''
    = db (snd (fst (module_try SEO failing_seo_env "http://example.com" "scan-1"
                      fresh (start true))))
      ++ [UpdateTest "test-seo" TestFailed].
Proof.
  destruct (proj2 module_exception_is_contained SEO failing_seo_env
              "http://example.com" "scan-1" {| id := "test-seo" |} (start true)
              {| issues := [{| severity := "high" |}]; testId := Some "test-seo" |}
              (snd (fst (module_try SEO failing_seo_env "http://example.com" "scan-1"
                           fresh (start true))))
              (Threw (ErrorObj "Target page has been closed")) eq_refl eq_refl)
    as (rows & w'' & _ & Hscan & _ & Hfailed).
  - vm_compute. reflexivity.
  - exists w''. split; [exact Hscan | exact Hfailed].
Defined.

(** X1. The requests of one [scan] call of any module whose TestRun record
    was created (with a non-empty id) are, in this order: the insert of the
    test, one [qa_issues] insert for each issue returned, each carrying the
    test's id, the scan's id, the module's category, the URL and the status
    open, and last exactly one update of that test: completed with the
    module's score when the [try] block returned, failed when it threw. *)
Theorem module_requests_shape m env url sid t :
  module_test m env = Some t -> truthy (id t) = true ->
  exists rows final,
    module_ops m env url sid
    = InsertTest sid (module_name m) (module_category m) "running" 0
      :: map InsertIssue rows ++ [UpdateTest (id t) final] /\
    module_found m env url sid = map issue_of rows /\
    Forall (tagged m sid url t) rows /\
    match snd (module_try m env url sid fresh (start false)) with
    | Returned _ =>
      final = TestCompleted (completed_score m env (module_found m env url sid))
    | Threw _ => final = TestFailed
    end.
Proof.
  intros Ht Hid.
  destruct (module_try_runs m env url sid t Ht) as (rows & r & Htag & Hrun).
  unfold module_ops, module_found, sent, returned.
  rewrite module_scan_shape, skeleton_run, Hrun. cbn [snd testId issues].
  unfold truthy_opt. rewrite Hid. destruct r as [[]|e]; cbn [fst snd completes].
  - exists rows, (TestCompleted (completed_score m env (map issue_of rows))).
    repeat split; auto.
  - exists rows, TestFailed. split; [|auto].
    unfold add_ops, start. cbn [db default app]. now rewrite app_nil_r.
Qed.

Lemma module_requests_shape_witness :
  exists rows final,
    module_ops SEO example_env "http://example.com" "scan-1"
    = InsertTest "scan-1" "SEO Audit" "seo" "running" 0
      :: map InsertIssue rows ++ [UpdateTest "test-seo" final] /\
    Forall (tagged SEO "scan-1" "http://example.com" {| id := "test-seo" |}) rows.
Proof.
  destruct (module_requests_shape SEO example_env "http://example.com" "scan-1"
              {| id := "test-seo" |} eq_refl eq_refl)
    as (rows & final & Hops & _ & Htag & _).
  exists rows, final. split; [exact Hops | exact Htag].
Defined.

(** ** How many issues a module can return *)

Section Bounded.

Lemma bounded_le {A} n n' (m : Eff ModuleLocals A) :
  bounded n m -> (n <= n')%nat -> bounded n' m.
Proof. intros Hm Hle l w. specialize (Hm l w). lia. Qed.

Lemma bounded_ret {A} (a : A) : bounded 0 (ret a).
Proof. intros l w. cbn. lia. Qed.

Lemma bounded_throw {A} e : bounded 0 (@throw ModuleLocals A e).
Proof. intros l w. cbn. lia. Qed.

Lemma bounded_await {A} (o : outcome A) : bounded 0 (await o).
Proof. intros l w. cbn. lia. Qed.

Lemma bounded_get_locals : bounded 0 get_locals.
Proof. intros l w. cbn. lia. Qed.

Lemma bounded_send op : bounded 0 (send op).
Proof. intros l w. cbn. lia. Qed.

Lemma bounded_assign t : bounded 0 (assign_testId t).
Proof. intros l w. cbn. lia. Qed.

Lemma bounded_insert_test sid name cat data :
  bounded 0 (insert_test sid name cat data).
Proof. intros l w. cbn. lia. Qed.

Lemma bounded_record row i : bounded 1 (send (InsertIssue row) ;;; push i).
Proof. intros l w. cbn. rewrite length_app. cbn. lia. Qed.

Lemma bounded_created row i :
  bounded 1 (j <- (send (InsertIssue row) ;;; ret i) ;; push j).
Proof. intros l w. cbn. rewrite length_app. cbn. lia. Qed.

Lemma bounded_bind {A B} n1 n2 (m : Eff ModuleLocals A) (k : A -> Eff ModuleLocals B) :
  bounded n1 m -> (forall a, bounded n2 (k a)) -> bounded (n1 + n2) (bind m k).
Proof.
  intros Hm Hk l w. specialize (Hm l w). rewrite bind_unfold.
  destruct (m l w) as [[l1 w1] [a|e]]; cbn [fst snd] in *.
  - specialize (Hk a l1 w1). lia.
  - lia.
Qed.

Lemma bounded_if {A} n1 n2 (b : bool) (m1 m2 : Eff ModuleLocals A) :
  bounded n1 m1 -> bounded n2 m2 -> bounded (Nat.max n1 n2) (if b then m1 else m2).
Proof.
  intros H1 H2. destruct b; [apply (bounded_le n1) | apply (bounded_le n2)];
    auto; lia.
Qed.

Lemma bounded_option {A X} n1 n2 (o : option X) (m1 : Eff ModuleLocals A)
  (m2 : X -> Eff ModuleLocals A) :
  bounded n1 m1 -> (forall x, bounded n2 (m2 x)) ->
  bounded (Nat.max n1 n2) (match o with Some x => m2 x | None => m1 end).
Proof.
  intros H1 H2. destruct o; [apply (bounded_le n2) | apply (bounded_le n1)];
    auto; lia.
Qed.

Lemma bounded_option_const {A X} n1 n2 (o : option X) (m1 m2 : Eff ModuleLocals A) :
  bounded n1 m1 -> bounded n2 m2 ->
  bounded (Nat.max n1 n2) (match o with Some _ => m2 | None => m1 end).
Proof.
  intros H1 H2. destruct o; [apply (bounded_le n2) | apply (bounded_le n1)];
    auto; lia.
Qed.

End Bounded.

Ltac bounded_step :=
  cbv beta zeta;
  lazymatch goal with
  | |- bounded _ (bind (send (InsertIssue _)) (fun _ => push _)) =>
    apply bounded_record
  | |- bounded _ (bind (SEOScanner.createIssue _ _ _ _ _ _ _) _) =>
    unfold SEOScanner.createIssue; apply bounded_created
  | |- bounded _ (bind (BestPracticesScanner.createIssue _ _ _ _ _ _ _) _) =>
    unfold BestPracticesScanner.createIssue; apply bounded_created
  | |- bounded _ (bind (SecurityScanner.createIssue _ _ _ _ _ _ _) _) =>
    unfold SecurityScanner.createIssue; apply bounded_record
  | |- bounded _ (bind _ _) => eapply bounded_bind; [|intros ?]
  | |- bounded _ (if _ then _ else _) =>
    first [ eapply bounded_if | eapply bounded_option_const ]
  | |- bounded _ (match _ with Some _ => _ | None => _ end) =>
    first [ eapply bounded_option_const | eapply bounded_option; [|intros ?] ]
  | |- bounded _ (ret _) => apply bounded_ret
  | |- bounded _ (throw _) => apply bounded_throw
  | |- bounded _ (await _) => apply bounded_await
  | |- bounded _ get_locals => apply bounded_get_locals
  | |- bounded _ (send _) => apply bounded_send
  | |- bounded _ (assign_testId _) => apply bounded_assign
  | |- bounded _ (insert_test _ _ _ _) => apply bounded_insert_test
  | |- bounded _ (PerformanceScanner.the_audit _) => unfold PerformanceScanner.the_audit
  end.

Lemma module_try_bounded m env url sid n :
  most_issues m = Some n -> bounded n (module_try m env url sid).
Proof.
  destruct m; cbn [most_issues module_try]; intros [= <-];
    [ unfold PerformanceScanner.scan_try
    | unfold SEOScanner.scan_try
    | unfold SecurityScanner.scan_try
    | unfold BestPracticesScanner.scan_try ];
    (eapply bounded_le; [repeat bounded_step | cbn; lia]).
Qed.

(** X2. One [scan] of the SEO or of the Security module returns at most 3
    issues, of the Best Practices module at most 1, of the Performance module
    at most 2; so the flat score [max(0, 100 - 10 * issues)] of the first
    three never reaches its floor: it is [100 - 10 * issues], at least 70
    (90 for Best Practices). *)
Theorem module_issue_bound m env url sid n :
  most_issues m = Some n ->
  (length (module_found m env url sid) <= n)%nat /\
  (m <> Performance ->
   completed_score m env (module_found m env url sid)
   = js_of_Z (100 - 10 * Z.of_nat (length (module_found m env url sid))) /\
   100 - 10 * Z.of_nat n <= 100 - 10 * Z.of_nat (length (module_found m env url sid))).
Proof.
  intros Hn.
  assert (Hlen : (length (module_found m env url sid) <= n)%nat).
  { unfold module_found, returned. rewrite module_scan_shape, skeleton_run.
    pose proof (module_try_bounded m env url sid n Hn fresh (start false)) as Hb.
    destruct (module_try m env url sid fresh (start false)) as [[l' w'] [[]|e]];
      cbn [fst snd issues fresh length] in *; lia. }
  split; [exact Hlen|]. intros Hm.
  destruct m; try discriminate Hn; try contradiction;
    cbn [most_issues] in Hn; injection Hn as <-;
    cbn [completed_score rate]; unfold flat_score;
    (split; [f_equal; lia | lia]).
Qed.

Lemma module_issue_bound_witness :
  (length (module_found SEO example_env "http://example.com" "scan-1") <= 3)%nat.
Proof.
  exact (proj1 (module_issue_bound SEO example_env "http://example.com" "scan-1" 3
                  eq_refl)).
Defined.

(** ** The modules one by one: what each returns *)

(** One statement of a [try] block, run. *)
Ltac run_stmt :=
  rewrite bind_unfold;
  rewrite ?run_insert_test, ?run_assign, ?run_await;
  cbv beta iota delta [fst snd].

(** The conditions left are split, and both sides computed. *)
Ltac by_cases :=
  repeat (match goal with
          | |- context [if negb ?c then _ else _] => destruct c
          | |- context [if ?c then _ else _] => destruct c
          end; cbn [negb]);
  reflexivity.

Lemma header_missing_iff (H : gmap string string) (name : string) :
  SecurityScanner.header_missing H name = true <->
  H !! name = None \/ H !! name = Some "".
Proof.
  unfold SecurityScanner.header_missing, truthy_opt, truthy.
  destruct (H !! name) as [v|]; cbn; [|tauto].
  destruct (String.eqb_spec v ""); cbn; split; auto; try discriminate.
  - subst. auto.
  - intros [?|[=]]; [discriminate|contradiction].
Qed.

(** X3. The Security module, its TestRun record created and its navigation
    done, never fails: it returns a high issue when the URL does not begin
    with "https", then a medium issue when the response has no
    Content-Security-Policy header or an empty one, then a medium issue when
    it has no X-Frame-Options header or an empty one, and nothing else. A
    navigation without a response counts as one without headers. *)
Theorem security_issues_exact (env : SecurityScanner.Env) url sid t resp :
  SecurityScanner.test env = Some t ->
  SecurityScanner.page_goto env = Returned resp ->
  let securityHeaders :=
    match resp with
    | Some r => SecurityScanner.headers r
    | None => ∅
    end in
  let absent name :=
    bool_decide (securityHeaders !! name = None \/ securityHeaders !! name = Some "") in
  snd (SecurityScanner.scan_try env url sid fresh (start false)) = Returned tt /\
  returned (SecurityScanner.scan env url sid)
  = (if String.prefix "https" url then [] else [{| severity := "high" |}])
    ++ (if absent "content-security-policy" then [{| severity := "medium" |}] else [])
    ++ (if absent "x-frame-options" then [{| severity := "medium" |}] else []) /\
  (resp = None ->
   absent "content-security-policy" = true /\ absent "x-frame-options" = true).
Proof.
  destruct env as [test goto]. cbn [SecurityScanner.test SecurityScanner.page_goto].
  intros -> ->. cbv zeta.
  assert (Habs : forall H name,
             bool_decide (H !! name = None \/ H !! name = Some "")
             = SecurityScanner.header_missing H name).
  { intros H name. destruct (SecurityScanner.header_missing H name) eqn:E.
    - apply bool_decide_eq_true. now apply header_missing_iff.
    - apply bool_decide_eq_false. intros Hc. apply header_missing_iff in Hc.
      congruence. }
  rewrite !Habs.
  unfold returned, SecurityScanner.scan. rewrite skeleton_run.
  unfold SecurityScanner.scan_try.
  cbn [SecurityScanner.test SecurityScanner.page_goto].
  do 3 run_stmt.
  split; [|split].
  - by_cases.
  - by_cases.
  - intros ->. split; reflexivity.
Qed.

Lemma security_issues_exact_witness :
  returned (SecurityScanner.scan no_headers "http://example.com" "scan-1")
  = [{| severity := "high" |}] ++ [{| severity := "medium" |}]
    ++ [{| severity := "medium" |}].
Proof.
  destruct (security_issues_exact no_headers "http://example.com" "scan-1"
              {| id := "test-security" |}
              (Some {| SecurityScanner.headers := ∅ |}) eq_refl eq_refl)
    as (_ & Hfound & _).
  exact Hfound.
Defined.

(** X4. The Best Practices module, its TestRun record created: when its
    navigation succeeds it inserts one medium "Console Errors Found" row,
    whose description gives the number of console messages of type error,
    if there is at least one such message, and no row otherwise, however
    many messages of other types there are; it returns the issue of that
    row. When the navigation throws, the messages gathered are dropped: no
    row, no issue. *)
Theorem best_practices_console_errors (env : BestPracticesScanner.Env) url sid t :
  BestPracticesScanner.test env = Some t ->
  let errors :=
    List.filter (fun msg => String.eqb (BestPracticesScanner.type msg) "error")
      (BestPracticesScanner.console env) in
  let rows := issue_rows (sent (BestPracticesScanner.scan env url sid)) in
  returned (BestPracticesScanner.scan env url sid) = map issue_of rows /\
  match BestPracticesScanner.page_goto env with
  | Returned _ =>
    rows =
    match errors with
    | [] => []
    | _ :: _ =>
      [{| test_id := id t; scan_id := sid; title := "Console Errors Found";
          description := "The page has " +:+ pretty (length errors) +:+ " console errors.";
          row_severity := "medium"; category := "best_practices";
          element := None; location_url := url; location_selector := None;
          recommendation :=
            "Check the browser console for details and fix the reported errors.";
          status := "open" |}]
    end
  | Threw _ => rows = []
  end.
Proof.
  destruct env as [test console goto].
  cbn [BestPracticesScanner.test BestPracticesScanner.console
       BestPracticesScanner.page_goto].
  intros ->. cbv zeta.
  unfold returned, sent, BestPracticesScanner.scan. rewrite skeleton_run.
  unfold BestPracticesScanner.scan_try, BestPracticesScanner.listen.
  cbn [BestPracticesScanner.test BestPracticesScanner.console
       BestPracticesScanner.page_goto].
  do 3 run_stmt. rewrite length_map.
  destruct goto as [[]|e].
  - destruct (List.filter _ console) as [|msg errors]; split; reflexivity.
  - split; by_cases.
Qed.

Lemma best_practices_console_errors_witness :
  returned (BestPracticesScanner.scan quiet_console "http://example.com" "scan-1")
  = map issue_of
      (issue_rows (sent (BestPracticesScanner.scan quiet_console
                           "http://example.com" "scan-1"))).
Proof.
  destruct (best_practices_console_errors quiet_console "http://example.com"
              "scan-1" {| id := "test-best-practices" |} eq_refl)
    as (Hfound & _).
  exact Hfound.
Defined.

(** A loop whose body pushes the issues [f x] and sends the requests [g x]
    pushes and sends those of all the elements, in order. *)
Lemma for_of_run {X} (xs : list X) (body : X -> Eff ModuleLocals unit)
  (f : X -> list Issue) (g : X -> list DbOp) :
  (forall x l w,
      body x l w
      = (({| issues := issues l ++ f x; testId := testId l |}, add_ops w (g x)),
         Returned tt)) ->
  forall l w,
    AccessibilityScanner.for_of xs body l w
    = (({| issues := issues l ++ flat_map f xs; testId := testId l |},
        add_ops w (flat_map g xs)), Returned tt).
Proof.
  intros Hbody. induction xs as [|x xs IH]; intros l w.
  - cbn [AccessibilityScanner.for_of flat_map].
    now rewrite locals_eta, add_ops_nil.
  - cbn [AccessibilityScanner.for_of flat_map].
    rewrite bind_unfold, Hbody. cbv beta iota delta [fst snd].
    rewrite IH. cbn [issues testId]. now rewrite add_ops_app, app_assoc.
Qed.

(** X5. The Accessibility module, its TestRun record created and the axe
    analysis done, never fails; it returns one issue for every node of every
    violation, in the order of the analysis, with the severity its
    violation's impact maps to (serious to high, moderate to medium, minor
    to low, critical to itself, anything else or no impact to medium); a
    violation without nodes gives no issue. *)
Theorem accessibility_issue_per_node (env : AccessibilityScanner.Env) url sid t violations :
  AccessibilityScanner.test env = Some t ->
  AccessibilityScanner.analyze env = Returned violations ->
  let severity_of v :=
    match AccessibilityScanner.impact v with
    | Some i =>
      if String.eqb i "critical" then "critical"
      else if String.eqb i "serious" then "high"
      else if String.eqb i "minor" then "low"
      else "medium"
    | None => "medium"
    end in
  snd (AccessibilityScanner.scan_try env url sid fresh (start false)) = Returned tt /\
  returned (AccessibilityScanner.scan env url sid)
  = flat_map (fun v => map (fun _ => {| severity := severity_of v |})
                           (AccessibilityScanner.nodes v))
             violations.
Proof.
  destruct env as [test analyze].
  cbn [AccessibilityScanner.test AccessibilityScanner.analyze].
  intros -> ->. cbv zeta.
  assert (Hsev : forall v,
             AccessibilityScanner.mapImpact (AccessibilityScanner.impact v)
             = match AccessibilityScanner.impact v with
               | Some i =>
                 if String.eqb i "critical" then "critical"
                 else if String.eqb i "serious" then "high"
                 else if String.eqb i "minor" then "low"
                 else "medium"
               | None => "medium"
               end).
  { intros v. unfold AccessibilityScanner.mapImpact.
    destruct (AccessibilityScanner.impact v) as [i|]; [|reflexivity].
    rewrite mapping_lookup. unfold truthy.
    destruct (String.eqb_spec i "critical") as [->|]; [reflexivity|].
    destruct (String.eqb_spec i "serious") as [->|]; [reflexivity|].
    destruct (String.eqb_spec i "moderate") as [->|]; [reflexivity|].
    destruct (String.eqb_spec i "minor") as [->|]; [reflexivity|].
    now destruct (negb (String.eqb i "")). }
  unfold returned, AccessibilityScanner.scan. rewrite skeleton_run.
  unfold AccessibilityScanner.scan_try.
  cbn [AccessibilityScanner.test AccessibilityScanner.analyze].
  do 3 run_stmt. rewrite bind_unfold.
  erewrite for_of_run; cycle 1.
  { intros v l w. cbv zeta.
    erewrite for_of_run; [reflexivity|].
    intros node l' w'. apply run_record. }
  cbv beta iota delta [fst snd]. split; [reflexivity|].
  transitivity
    (flat_map
       (fun v =>
          flat_map
            (fun _ : AccessibilityScanner.Node =>
               [{| severity :=
                     AccessibilityScanner.mapImpact (AccessibilityScanner.impact v) |}])
            (AccessibilityScanner.nodes v))
       violations); [reflexivity|].
  induction violations as [|v vs IH]; [reflexivity|].
  cbn [flat_map]. rewrite IH, Hsev. reflexivity.
Qed.

Lemma accessibility_issue_per_node_witness :
  returned (AccessibilityScanner.scan two_violations "http://example.com" "scan-1")
  = [{| severity := "high" |}; {| severity := "high" |}; {| severity := "medium" |}].
Proof.
  destruct (accessibility_issue_per_node two_violations "http://example.com" "scan-1"
              {| id := "test-accessibility" |} _ eq_refl eq_refl)
    as (_ & Hfound).
  exact Hfound.
Defined.

(** X6. The Performance module, its TestRun record created and Lighthouse
    run: for each of the audits server-response-time and
    largest-contentful-paint, in this order, it returns one high issue when
    the audit's score is not the number 1 (a null score counts as not 1);
    when an audit is missing from the result it fails there, returning what
    it had found before; it completes exactly when both audits are in the
    result. *)
Theorem performance_audit_issues (env : PerformanceScanner.Env) url sid t b port lhr :
  PerformanceScanner.test env = Some t ->
  PerformanceScanner.context_browser env = Some b ->
  PerformanceScanner.ws_port env = Returned port ->
  PerformanceScanner.lighthouse env = Returned (Some lhr) ->
  let srt := PerformanceScanner.audits lhr !! "server-response-time" in
  let lcp := PerformanceScanner.audits lhr !! "largest-contentful-paint" in
  let flagged a :=
    match PerformanceScanner.a_score a with
    | Some q => if Qeq_bool q 1 then [] else [{| severity := "high" |}]
    | None => [{| severity := "high" |}]
    end in
  returned (PerformanceScanner.scan env url sid)
  = match srt with
    | None => []
    | Some a => flagged a ++ match lcp with None => [] | Some a' => flagged a' end
    end /\
  (snd (PerformanceScanner.scan_try env url sid fresh (start false)) = Returned tt
   <-> srt <> None /\ lcp <> None).
Proof.
  destruct env as [test cb ws lh].
  cbn [PerformanceScanner.test PerformanceScanner.context_browser
       PerformanceScanner.ws_port PerformanceScanner.lighthouse].
  intros -> -> -> ->. cbv zeta.
  unfold returned, PerformanceScanner.scan. rewrite skeleton_run.
  unfold PerformanceScanner.scan_try.
  cbn [PerformanceScanner.test PerformanceScanner.context_browser
       PerformanceScanner.ws_port PerformanceScanner.lighthouse].
  do 4 run_stmt.
  unfold PerformanceScanner.score_is_not_1.
  destruct (PerformanceScanner.audits lhr !! "server-response-time") as [a|];
    destruct (PerformanceScanner.audits lhr !! "largest-contentful-paint") as [a'|];
    try destruct (PerformanceScanner.a_score a) as [q|];
    try destruct (PerformanceScanner.a_score a') as [q'|];
    try destruct (Qeq_bool q 1); try destruct (Qeq_bool q' 1);
    (split;
     [ reflexivity
     | split;
       [ intros H; first [ discriminate H | split; discriminate ]
       | intros [H1 H2]; first [ congruence | reflexivity ] ] ]).
Qed.

Lemma performance_audit_issues_witness :
  returned (PerformanceScanner.scan slow_server "http://example.com" "scan-1")
  = [{| severity := "high" |}].
Proof.
  destruct (performance_audit_issues slow_server "http://example.com" "scan-1"
              {| id := "test-performance" |} tt "9222" slow_server_lhr
              eq_refl eq_refl eq_refl eq_refl)
    as (Hfound & _).
  exact Hfound.
Defined.

Lemma run_ret {L A} (a : A) (l : L) w : ret a l w = ((l, w), Returned a).
Proof. reflexivity. Qed.

Lemma run_send {L} op (l : L) w : send op l w = ((l, add_ops w [op]), Returned tt).
Proof. reflexivity. Qed.

Lemma run_get_locals {L} (l : L) w : get_locals l w = ((l, w), Returned l).
Proof. reflexivity. Qed.

(** One statement of a [try] block is run; a condition that is not decided
    is split. *)
Ltac exec_step :=
  match goal with
  | H : ?c = _ |- context [(if ?c then _ else _) _ _] => rewrite H
  | H : ?c = _ |- context [(if negb ?c then _ else _) _ _] => rewrite H; cbn [negb]
  | |- context [bind (bind (send (InsertIssue _)) _) (fun i => push i) _ _] =>
    rewrite run_created
  | |- context [bind (send (InsertIssue _)) (fun _ => push _) _ _] =>
    rewrite run_record
  | |- context [insert_test _ _ _ _ _ _] => rewrite run_insert_test
  | |- context [assign_testId _ _ _] => rewrite run_assign
  | |- context [await _ _ _] => rewrite run_await
  | |- context [ret _ _ _] => rewrite run_ret
  | |- context [get_locals _ _] => rewrite run_get_locals
  | |- context [send _ _ _] => rewrite run_send
  | |- context [try_catch _ _ _ _] => unfold try_catch at 1
  | |- context [(if ?c then ?a else ?b) ?l ?w] =>
    let c' := eval cbv in c in
    lazymatch c' with
    | true => change ((if c then a else b) l w) with (a l w)
    | false => change ((if c then a else b) l w) with (b l w)
    end
  | |- context [(if negb ?c then _ else _) _ _] => destruct c eqn:?; cbn [negb]
  | |- context [(if ?c then _ else _) _ _] => destruct c eqn:?
  | |- context [bind _ _ _ _] => rewrite bind_unfold
  end;
  cbv beta iota delta [fst snd].

Ltac exec := repeat exec_step; by_cases.

(** X7. The SEO module, its TestRun record created and the page read,
    never fails and returns at most one issue for each of its three checks,
    in this order: the title (high when empty, medium when longer than 60
    characters), the meta description (high when there is no such element
    or its content is absent or empty, medium when longer than 160
    characters) and the H1 elements (high when there is none, medium when
    there are several). The content of the meta description is read only
    when there is such an element. *)
Theorem seo_issues_exact (env : SEOScanner.Env) url sid t title metaCount content h1Count :
  SEOScanner.test env = Some t ->
  SEOScanner.page_title env = Returned title ->
  SEOScanner.meta_count env = Returned metaCount ->
  (metaCount <> 0%nat -> SEOScanner.meta_content env = Returned content) ->
  SEOScanner.h1_count env = Returned h1Count ->
  let metaDescription := default "" content in
  snd (SEOScanner.scan_try env url sid fresh (start false)) = Returned tt /\
  returned (SEOScanner.scan env url sid)
  = (if String.eqb title "" then [{| severity := "high" |}]
     else if Nat.ltb 60 (String.length title) then [{| severity := "medium" |}]
     else [])
    ++ (if Nat.eqb metaCount 0 || String.eqb metaDescription ""
        then [{| severity := "high" |}]
        else if Nat.ltb 160 (String.length metaDescription)
        then [{| severity := "medium" |}]
        else [])
    ++ (if Nat.eqb h1Count 0 then [{| severity := "high" |}]
        else if Nat.ltb 1 h1Count then [{| severity := "medium" |}]
        else []).
Proof.
  destruct env as [test pt mc mcont h1].
  cbn [SEOScanner.test SEOScanner.page_title SEOScanner.meta_count
       SEOScanner.meta_content SEOScanner.h1_count].
  intros -> -> -> Hcontent ->. cbv zeta.
  rewrite <- (negb_involutive (String.eqb title "")). fold (truthy title).
  replace (String.eqb (default "" content) "") with (negb (truthy_opt content))
    by (destruct content; [apply negb_involutive | reflexivity]).
  unfold returned, SEOScanner.scan. rewrite skeleton_run.
  unfold SEOScanner.scan_try, SEOScanner.createIssue.
  cbn [SEOScanner.test SEOScanner.page_title SEOScanner.meta_count
       SEOScanner.meta_content SEOScanner.h1_count].
  destruct (Nat.eqb metaCount 0) eqn:Hmeta;
    [|apply Nat.eqb_neq in Hmeta as Hsome; rewrite (Hcontent Hsome)];
    cbn [orb]; split; exec.
Qed.

Lemma seo_issues_exact_witness :
  returned (SEOScanner.scan long_title_page "http://example.com" "scan-1")
  = [{| severity := "medium" |}] ++ [] ++ [].
Proof.
  destruct (seo_issues_exact long_title_page "http://example.com" "scan-1"
              {| id := "test-seo" |}
              "Qavo Scanner - automated quality audits for every page you ow"
              1%nat (Some "Audits of web pages.") 1%nat
              eq_refl eq_refl eq_refl (fun _ => eq_refl) eq_refl)
    as (_ & Hfound).
  exact Hfound.
Defined.

(** ** The orchestrator: scores, logs and rows *)

Lemma weight_nonneg s : 0 <= weight s.
Proof. unfold weight. repeat case_match; lia. Qed.

Lemma total_weight_nonneg l : 0 <= total_weight l.
Proof.
  induction l as [|i l IH]; cbn [total_weight]; [lia|].
  pose proof (weight_nonneg (severity i)). lia.
Qed.

Lemma total_weight_app l l' : total_weight (l ++ l') = total_weight l + total_weight l'.
Proof. induction l as [|i l IH]; cbn [total_weight app]; lia. Qed.

(** X8. The overall score is always between 0 and 100, and finding more
    issues never raises it. *)
Theorem overall_score_range (l l' : list Issue) :
  0 <= calculateOverallScore l <= 100 /\
  calculateOverallScore (l ++ l') <= calculateOverallScore l.
Proof.
  rewrite !calculateOverallScore_spec. unfold spec_score.
  rewrite total_weight_app.
  pose proof (total_weight_nonneg l). pose proof (total_weight_nonneg l'). lia.
Qed.

(** X9. The overall score does not depend on the order in which the issues
    were found. *)
Theorem overall_score_order_insensitive (l l' : list Issue) :
  Permutation l l' -> calculateOverallScore l = calculateOverallScore l'.
Proof.
  intros Hperm. rewrite !calculateOverallScore_spec. unfold spec_score.
  f_equal. f_equal.
  induction Hperm; cbn [total_weight]; lia.
Qed.

Lemma overall_score_order_insensitive_witness :
  calculateOverallScore [{| severity := "high" |}; {| severity := "low" |}]
  = calculateOverallScore [{| severity := "low" |}; {| severity := "high" |}].
Proof.
  apply (overall_score_order_insensitive
           [{| severity := "high" |}; {| severity := "low" |}]
           [{| severity := "low" |}; {| severity := "high" |}]).
  apply perm_swap.
Defined.

(** X10. When the set-up of a scan throws (the launch of the browser, the
    new context, the new page or the navigation), no module runs: the scan
    sends its first progress update and then fails the scan with the
    message of the error, and nothing else. *)
Theorem setup_failure_runs_no_module env request b e :
  setup env b = Threw e ->
  scan_log env request b
  = [UpdateScan (scanId request) "running" (js_of_Z 0);
     FailScan (scanId request) (message_of e)].
Proof.
  intros Hsetup. rewrite scan_log_expected. unfold expected_log.
  now rewrite Hsetup.
Qed.

Lemma setup_failure_runs_no_module_witness :
  scan_log no_chromium (request_for "http://example.com" None) false
  = [UpdateScan "scan-1" "running" (js_of_Z 0);
     FailScan "scan-1" "browserType.launch: Executable doesn't exist"].
Proof.
  apply (setup_failure_runs_no_module no_chromium
           (request_for "http://example.com" None) false
           (ErrorObj "browserType.launch: Executable doesn't exist")).
  reflexivity.
Defined.

Lemma history_head sid row ops : exists rest, history sid row ops = row :: rest.
Proof. destruct ops; cbn [history]; eauto. Qed.

Lemma last_history sid row ops :
  last (history sid row ops) = Some (fold_left (apply_op sid) ops row).
Proof.
  revert row. induction ops as [|op ops IH]; intros row; [reflexivity|].
  cbn [history fold_left]. rewrite last_cons, IH. reflexivity.
Qed.

Lemma fold_module_ops sid ops row :
  Forall module_op ops -> fold_left (apply_op sid) ops row = row.
Proof.
  induction 1 as [|op ops Hop _ IH]; [reflexivity|].
  cbn [fold_left]. rewrite <- IH at 2. f_equal.
  destruct op; cbn in Hop; try contradiction; reflexivity.
Qed.

(** X11. Every scan leaves its [qa_scans] row in a terminal state: failed
    at progress 0 with the error as summary when the set-up throws;
    completed at progress 100 with the summary of the issues collected when
    it succeeds; and failed at progress 100, the error replacing the
    summary just written, when closing the browser context throws after the
    scan was completed. *)
Theorem scan_ends_in_terminal_row env request b :
  last (history (scanId request) queued_row (scan_log env request b))
  = Some
      match setup env b with
      | Threw e =>
        {| row_status := "failed"; row_progress := js_of_Z 0;
           row_summary := Some (ErrorSummary (message_of e)) |}
      | Returned _ =>
        match context_close env with
        | Returned _ =>
          {| row_status := "completed"; row_progress := js_of_Z 100;
             row_summary :=
               Some (ScanSummary (summary_of (collected env request)
                                    (enabled_count request))) |}
        | Threw e =>
          {| row_status := "failed"; row_progress := js_of_Z 100;
             row_summary := Some (ErrorSummary (message_of e)) |}
        end
      end.
Proof.
  rewrite last_history, scan_log_expected. unfold expected_log. f_equal.
  destruct (setup env b) as [[]|e].
  - cbn [fold_left]. rewrite fold_left_app. cbn [fold_left apply_op].
    rewrite String.eqb_refl.
    destruct (context_close env) as [[]|e]; cbn [fold_left apply_op];
      rewrite ?String.eqb_refl; reflexivity.
  - cbn [fold_left apply_op]. rewrite !String.eqb_refl. reflexivity.
Qed.

Lemma module_ops_with_launch o m env url sid :
  module_ops m (with_launch o env) url sid = module_ops m env url sid.
Proof. destruct m; reflexivity. Qed.

Lemma module_found_with_launch o m env url sid :
  module_found m (with_launch o env) url sid = module_found m env url sid.
Proof. destruct m; reflexivity. Qed.

Lemma modules_log_with_launch o env url sid total k ms :
  modules_log (with_launch o env) url sid total k ms
  = modules_log env url sid total k ms.
Proof.
  revert k. induction ms as [|m ms IH]; intros k; [reflexivity|].
  cbn [modules_log]. now rewrite IH, module_ops_with_launch.
Qed.

Lemma collected_with_launch o env request :
  collected (with_launch o env) request = collected env request.
Proof.
  unfold collected. f_equal.
Qed.

(** X12. [performCompleteScan] never throws, whatever the browser and the
    modules do, keeps the requests already in the log, and launches a
    browser only when there is none: with a browser at hand, the outcome of
    a launch changes nothing, and the browser stays. *)
Theorem scan_never_throws_and_reuses_browser env request (w : World) o :
  let run := performCompleteScan env request tt w in
  snd run = Returned tt /\
  (exists ops, db (snd (fst run)) = db w ++ ops) /\
  (browser w = true ->
   browser (snd (fst run)) = true /\
   performCompleteScan (with_launch o env) request tt w = run).
Proof.
  cbv zeta. rewrite !performCompleteScan_run. cbn [fst snd db browser].
  split; [reflexivity|]. split; [eauto|].
  intros ->. split; [reflexivity|].
  unfold browser_after, expected_log, setup.
  cbn [newContext newPage page_goto context_close with_launch].
  now rewrite modules_log_with_launch, collected_with_launch.
Qed.

Lemma scan_never_throws_and_reuses_browser_witness :
  performCompleteScan no_chromium (request_for "http://example.com" None) tt (start true)
  = performCompleteScan example_env (request_for "http://example.com" None) tt (start true).
Proof.
  destruct (scan_never_throws_and_reuses_browser example_env
              (request_for "http://example.com" None) (start true)
              (Threw (ErrorObj "browserType.launch: Executable doesn't exist")))
    as (_ & _ & Hreuse).
  destruct (Hreuse eq_refl) as (_ & Hsame). exact Hsame.
Defined.

(** What one module sends: the insert of its test, the inserts of the
    issues it returns, and at most one update of its test. *)
Lemma module_ops_shape m env url sid :
  exists rows tail,
    module_ops m env url sid
    = InsertTest sid (module_name m) (module_category m) "running" 0
      :: map InsertIssue rows ++ tail /\
    module_found m env url sid = map issue_of rows /\
    Forall (fun row => scan_id row = sid /\ location_url row = url /\
                       category row = module_category m /\ status row = "open")
           rows /\
    (tail = [] \/ exists t u, tail = [UpdateTest t u]).
Proof.
  destruct (module_test m env) as [t|] eqn:Ht.
  - destruct (module_try_runs m env url sid t Ht) as (rows & r & Htag & Hrun).
    unfold module_ops, module_found, sent, returned.
    rewrite module_scan_shape, skeleton_run, Hrun. cbn [snd fst testId issues].
    assert (Hrows :
              Forall (fun row => scan_id row = sid /\ location_url row = url /\
                                 category row = module_category m /\
                                 status row = "open") rows).
    { eapply Forall_impl; [exact Htag|]. intros row (_ & ? & ? & ? & ?). auto. }
    destruct r as [[]|e]; cbn [fst snd completes].
    + exists rows, [UpdateTest (id t) (TestCompleted (completed_score m env (map issue_of rows)))].
      repeat split; eauto.
    + unfold truthy_opt. destruct (truthy (id t)).
      * exists rows, [UpdateTest (id t) TestFailed].
        unfold add_ops, start. cbn [db default app browser].
        rewrite app_nil_r, <- ?app_assoc. repeat split; eauto.
      * exists rows, []. unfold add_ops, start. cbn [db default app browser].
        repeat split; eauto.
  - destruct (module_scan_spec m env url sid)
      as (found & ops & r & _ & _ & _ & Hnone & _ & Hfound & Hops).
    destruct (Hnone Ht) as (-> & -> & e & ->).
    rewrite Hops, Hfound, Ht. exists [], []. cbn. repeat split; auto.
Qed.

Lemma test_inserts_app a b : test_inserts (a ++ b) = test_inserts a ++ test_inserts b.
Proof. apply omap_app. Qed.

Lemma test_inserts_module m env url sid :
  test_inserts (module_ops m env url sid) = [(sid, module_name m, module_category m)].
Proof.
  destruct (module_ops_shape m env url sid) as (rows & tail & -> & _ & _ & Htail).
  change (test_inserts
            ([InsertTest sid (module_name m) (module_category m) "running" 0]
             ++ (map InsertIssue rows ++ tail))
          = [(sid, module_name m, module_category m)]).
  rewrite !test_inserts_app.
  replace (test_inserts (map InsertIssue rows)) with (@nil (string * string * string))
    by (induction rows; auto).
  destruct Htail as [->|(t & u & ->)]; reflexivity.
Qed.

Lemma test_inserts_modules_log env url sid total k ms :
  test_inserts (modules_log env url sid total k ms)
  = map (fun m => (sid, module_name m, module_category m)) ms.
Proof.
  revert k. induction ms as [|m ms IH]; intros k; [reflexivity|].
  cbn [modules_log map]. rewrite test_inserts_app, test_inserts_module.
  cbn [app]. f_equal. apply IH.
Qed.

Lemma test_inserts_completed env url sid total ms s tail :
  test_inserts tail = [] ->
  test_inserts
    (UpdateScan sid "running" (js_of_Z 0)
     :: UpdateScan sid "running" (js_of_Z 5)
     :: modules_log env url sid total 0 ms ++ CompleteScan sid s :: tail)
  = map (fun m => (sid, module_name m, module_category m)) ms.
Proof.
  intros Htail.
  change (test_inserts
            ([UpdateScan sid "running" (js_of_Z 0); UpdateScan sid "running" (js_of_Z 5)]
             ++ modules_log env url sid total 0 ms ++ [CompleteScan sid s] ++ tail)
          = map (fun m => (sid, module_name m, module_category m)) ms).
  rewrite !test_inserts_app, test_inserts_modules_log, Htail.
  cbn. now rewrite app_nil_r.
Qed.

(** X13. A scan whose set-up succeeds sends exactly one [qa_tests] insert
    for each enabled module, in the order Performance, Accessibility, SEO,
    Security, Best Practices, each under the scan's id and with the module's
    name and category, whatever the store answers and whatever happens
    inside the modules; a scan whose set-up throws sends none. *)
Theorem one_test_insert_per_enabled_module env request b :
  test_inserts (scan_log env request b)
  = match setup env b with
    | Returned _ =>
      map (fun m => (scanId request, module_name m, module_category m))
          (enabled (testsToRun_of (settings request)))
    | Threw _ => []
    end.
Proof.
  rewrite scan_log_expected. unfold expected_log.
  destruct (setup env b) as [[]|e]; [|reflexivity].
  apply test_inserts_completed.
  destruct (context_close env); reflexivity.
Qed.

(** ** The rows of one scan *)

Lemma issue_rows_inserts rows : issue_rows (map InsertIssue rows) = rows.
Proof.
  unfold issue_rows. induction rows as [|row rows IH]; [reflexivity|].
  cbn. now rewrite IH.
Qed.

Lemma issue_rows_skip op ops :
  match op with InsertIssue _ => False | _ => True end ->
  issue_rows (op :: ops) = issue_rows ops.
Proof. destruct op; intros H; try reflexivity. contradiction. Qed.

(** The issues a module returns are those of the rows it inserts. *)
Lemma module_rows m env url sid :
  module_found m env url sid = map issue_of (issue_rows (module_ops m env url sid)) /\
  Forall (fun row => scan_id row = sid /\ location_url row = url /\
                     category row = module_category m /\ status row = "open")
         (issue_rows (module_ops m env url sid)).
Proof.
  destruct (module_ops_shape m env url sid) as (rows & tail & -> & -> & Hrows & Htail).
  rewrite issue_rows_skip by exact I.
  rewrite issue_rows_app, issue_rows_inserts.
  destruct Htail as [->|(t & u & ->)]; cbn [issue_rows omap]; rewrite app_nil_r; auto.
Qed.

Lemma issue_rows_modules_log env url sid total k ms :
  issue_rows (modules_log env url sid total k ms)
  = concat (map (fun m => issue_rows (module_ops m env url sid)) ms).
Proof.
  revert k. induction ms as [|m ms IH]; intros k; [reflexivity|].
  cbn [modules_log map concat].
  rewrite issue_rows_app, issue_rows_skip, IH by exact I. reflexivity.
Qed.

(** The rows of a scan whose set-up succeeds are those of its enabled
    modules. *)
Lemma issue_rows_scan_log env request b :
  setup env b = Returned tt ->
  issue_rows (scan_log env request b)
  = concat (map (fun m => issue_rows (module_ops m env (url request) (scanId request)))
                (enabled (testsToRun_of (settings request)))).
Proof.
  intros Hsetup. rewrite scan_log_expected. unfold expected_log. rewrite Hsetup.
  rewrite !issue_rows_skip by exact I.
  rewrite issue_rows_app, issue_rows_modules_log, issue_rows_skip by exact I.
  destruct (context_close env); cbn; now rewrite app_nil_r.
Qed.

Lemma collected_rows env request b :
  setup env b = Returned tt ->
  collected env request = map issue_of (issue_rows (scan_log env request b)).
Proof.
  intros Hsetup. rewrite (issue_rows_scan_log _ _ _ Hsetup). unfold collected.
  induction (enabled (testsToRun_of (settings request))) as [|m ms IH]; [reflexivity|].
  cbn [map concat]. rewrite map_app, IH. f_equal. apply module_rows.
Qed.

Lemma count_critical_or_high rows :
  count_severity "critical" (map issue_of rows) + count_severity "high" (map issue_of rows)
  = Z.of_nat (length (List.filter critical_or_high rows)).
Proof.
  unfold count_severity.
  induction rows as [|row rows IH]; [reflexivity|].
  cbn [map List.filter issue_of severity]. unfold critical_or_high at 1.
  destruct (String.eqb_spec (row_severity row) "critical") as [Hc|Hc];
    destruct (String.eqb_spec (row_severity row) "high") as [Hh|Hh];
    cbn [orb length]; try lia.
  rewrite Hc in Hh. discriminate.
Qed.

(** X14. The summary a scan writes counts the [qa_issues] rows the scan has
    inserted: its total is their number, its critical issues are the rows
    of severity critical or high, its score is the overall score of the
    rows' severities; so the critical issues never exceed the total. *)
Theorem summary_counts_inserted_rows env request b s :
  In s (summaries (scan_log env request b)) ->
  let rows := issue_rows (scan_log env request b) in
  totalIssues s = Z.of_nat (length rows) /\
  criticalIssues s = Z.of_nat (length (List.filter critical_or_high rows)) /\
  overallScore s = calculateOverallScore (map issue_of rows) /\
  0 <= criticalIssues s <= totalIssues s.
Proof.
  rewrite summaries_scan_log. intros Hs rows.
  destruct (setup env b) as [[]|e] eqn:Hsetup; [|contradiction].
  destruct Hs as [<-|[]]. unfold summary_of.
  cbn [totalIssues criticalIssues overallScore].
  rewrite (collected_rows env request b Hsetup). fold rows.
  rewrite count_critical_or_high, length_map.
  repeat split; try lia.
  apply inj_le. apply filter_length_le.
Qed.

Lemma summary_counts_inserted_rows_witness :
  exists s,
    In s (summaries (scan_log example_env
                       (request_for "http://example.com" (Some seo_and_security)) true)) /\
    totalIssues s
    = Z.of_nat (length (issue_rows
                          (scan_log example_env
                             (request_for "http://example.com" (Some seo_and_security))
                             true))).
Proof.
  eexists. split.
  - rewrite example_summaries. left. reflexivity.
  - refine (proj1 (summary_counts_inserted_rows example_env
                     (request_for "http://example.com" (Some seo_and_security)) true
                     _ _)).
    rewrite example_summaries. left. reflexivity.
Defined.

Lemma module_ops_of_scan m env url sid :
  Forall (of_scan sid) (module_ops m env url sid).
Proof.
  destruct (module_ops_shape m env url sid) as (rows & tail & -> & _ & Hrows & Htail).
  constructor; [intros i [= <-]; reflexivity|].
  apply Forall_app. split.
  - apply Forall_map. eapply Forall_impl; [exact Hrows|].
    intros row (Hsid & _) i [= <-]. exact Hsid.
  - destruct Htail as [->|(t & u & ->)]; repeat constructor. intros i [=].
Qed.

Lemma modules_log_of_scan env url sid total k ms :
  Forall (of_scan sid) (modules_log env url sid total k ms).
Proof.
  revert k. induction ms as [|m ms IH]; intros k; [constructor|].
  cbn [modules_log]. apply Forall_app. split; [apply module_ops_of_scan|].
  constructor; [intros i [= <-]; reflexivity | apply IH].
Qed.

Lemma scan_log_of_scan env request b :
  Forall (of_scan (scanId request)) (scan_log env request b).
Proof.
  rewrite scan_log_expected. unfold expected_log.
  constructor; [intros i [= <-]; reflexivity|].
  destruct (setup env b) as [[]|e].
  - constructor; [intros i [= <-]; reflexivity|].
    apply Forall_app. split; [apply modules_log_of_scan|].
    constructor; [intros i [= <-]; reflexivity|].
    destruct (context_close env); repeat constructor. intros i [= <-]; reflexivity.
  - repeat constructor. intros i [= <-]; reflexivity.
Qed.

Lemma fold_other_scan sid sid' ops row :
  sid' <> sid -> Forall (of_scan sid) ops ->
  fold_left (apply_op sid') ops row = row.
Proof.
  intros Hne Hops. induction Hops as [|op ops Hop _ IH]; [reflexivity|].
  cbn [fold_left]. rewrite <- IH at 2. f_equal.
  destruct op as [| | |i ? ?|i ?|i ?]; cbn [apply_op]; try reflexivity;
    (destruct (String.eqb_spec i sid') as [->|]; [|reflexivity]);
    exfalso; apply Hne; apply Hop; reflexivity.
Qed.

(** X15. A scan writes to nothing but its own: every request that names a
    scan names the scan of the request, every [qa_issues] row carries the
    URL of the request, and the [qa_scans] row of any other scan is left as
    it was. *)
Theorem scan_touches_only_its_own_rows env request b sid' row :
  sid' <> scanId request ->
  Forall (fun op => forall i, op_scan op = Some i -> i = scanId request)
         (scan_log env request b) /\
  Forall (fun r => scan_id r = scanId request /\ location_url r = url request)
         (issue_rows (scan_log env request b)) /\
  last (history sid' row (scan_log env request b)) = Some row.
Proof.
  intros Hne. split; [apply scan_log_of_scan|]. split.
  - destruct (setup env b) as [[]|e] eqn:Hsetup.
    + rewrite (issue_rows_scan_log env request b Hsetup).
      induction (enabled (testsToRun_of (settings request))) as [|m ms IH];
        [constructor|].
      cbn [map concat]. apply Forall_app. split; [|exact IH].
      eapply Forall_impl; [apply module_rows|]. intros r (? & ? & _). auto.
    + rewrite scan_log_expected. unfold expected_log. rewrite Hsetup. constructor.
  - rewrite last_history. f_equal.
    apply (fold_other_scan (scanId request)); [exact Hne | apply scan_log_of_scan].
Qed.

Lemma scan_touches_only_its_own_rows_witness :
  last (history "scan-2" queued_row
          (scan_log example_env (request_for "http://example.com" None) false))
  = Some queued_row.
Proof.
  destruct (scan_touches_only_its_own_rows example_env
              (request_for "http://example.com" None) false "scan-2" queued_row)
    as (_ & _ & Hrow).
  - discriminate.
  - exact Hrow.
Defined.

(** ** The scan service *)

Section ServerProperties.

Variable URL_parses : string -> bool.

(** One call of the handler. *)
Lemma post_api_scan_run env body (w : World) :
  Server.post_api_scan URL_parses env body tt w
  = if Server.acceptable URL_parses body
    then
      ((tt, {| browser := browser_after env (browser w);
               db := db w ++ expected_log env (Server.request_of body) (browser w) |}),
       Returned {| Server.code := 202;
                   Server.json :=
                     Server.Accepted (default "" (Server.scanId body))
                       "Comprehensive QA scan accepted and started" |})
    else
      ((tt, w),
       Returned {| Server.code := 400;
                   Server.json :=
                     Server.Failure
                       (if truthy_opt (Server.url body) && truthy_opt (Server.scanId body)
                           && truthy_opt (Server.userId body)
                        then "Invalid URL format"
                        else "Missing required fields: url, scanId, userId") |}).
Proof.
  unfold Server.post_api_scan, Server.acceptable, try_catch.
  destruct (truthy_opt (Server.url body)); cbn [negb orb andb];
    [destruct (truthy_opt (Server.scanId body)); cbn [negb orb andb];
     [destruct (truthy_opt (Server.userId body)); cbn [negb orb andb]|]|];
    try reflexivity.
  rewrite bind_unfold.
  destruct (URL_parses (default "" (Server.url body))); cbn [fst snd ret throw negb];
    [|reflexivity].
  rewrite bind_unfold, performCompleteScan_run. reflexivity.
Qed.

(** X16. [POST /api/scan], on a body that is a JSON object, never fails and
    never answers 500: it answers 202 when [url], [scanId] and [userId] are
    present and not empty and the URL parses, and 400 otherwise. With 400
    nothing is sent to the store; with 202 the scan of the request built
    from the body has run, and the reply carries its [scanId]. *)
Theorem post_api_scan_validates env body (w : World) :
  let run := Server.post_api_scan URL_parses env body tt w in
  if Server.acceptable URL_parses body
  then
    snd run
    = Returned {| Server.code := 202;
                  Server.json :=
                    Server.Accepted (default "" (Server.scanId body))
                      "Comprehensive QA scan accepted and started" |} /\
    db (snd (fst run))
    = db w ++ scan_log env (Server.request_of body) (browser w)
  else
    (exists reply,
        snd run = Returned reply /\ Server.code reply = 400 /\
        exists error, Server.json reply = Server.Failure error) /\
    snd (fst run) = w.
Proof.
  cbv zeta. rewrite post_api_scan_run, scan_log_expected.
  destruct (Server.acceptable URL_parses body); cbn [fst snd db].
  - split; reflexivity.
  - split; [eauto 6|reflexivity].
Qed.


End ServerProperties.


(** ** ScanService *)

Lemma service_bind_unfold {L A B} (m : ScanService.Run L A)
  (k : A -> ScanService.Run L B) l s :
  ScanService.bind m k l s =
  match m l s with
  | (ls, Returned a) => k a (fst ls) (snd ls)
  | (ls, Threw e) => (ls, Threw e)
  end.
Proof. reflexivity. Qed.

Lemma service_for_of_run {X} (xs : list X)
  (body : X -> ScanService.Run (list Issue) unit)
  (f : X -> list Issue) (g : X -> list ScanService.Request) :
  (forall x l s,
      body x l s
      = ((l ++ f x,
          {| ScanService.browser := ScanService.browser s;
             ScanService.log := ScanService.log s ++ g x |}),
         Returned tt)) ->
  forall l s,
    ScanService.for_of xs body l s
    = ((l ++ flat_map f xs,
        {| ScanService.browser := ScanService.browser s;
           ScanService.log := ScanService.log s ++ flat_map g xs |}),
       Returned tt).
Proof.
  intros Hbody. induction xs as [|x xs IH]; intros l s.
  - cbn [ScanService.for_of flat_map]. rewrite !app_nil_r. now destruct s.
  - cbn [ScanService.for_of flat_map].
    rewrite service_bind_unfold, Hbody. cbv beta iota delta [fst snd].
    rewrite IH. cbn [ScanService.browser ScanService.log].
    now rewrite <- !app_assoc.
Qed.

Lemma saved_app env a b :
  ScanService.saved env (a ++ b) = ScanService.saved env a ++ ScanService.saved env b.
Proof. unfold ScanService.saved. now rewrite List.filter_app, List.map_app. Qed.

(** One node: its row is inserted, with or without a screenshot, and its
    issue is pushed when the store takes the row. *)
Lemma node_run env scanId url violation node (l : list Issue) s :
  ScanService.try_catch
    (let selector := head (ScanService.target node) in
     ScanService.bind
       (ScanService.try_catch
          (ScanService.bind (ScanService.await (ScanService.element_screenshot env selector))
             (fun b => ScanService.ret (Some b)))
          (fun screenshotError => ScanService.ret None))
       (fun screenshotBase64 =>
          let row := ScanService.issue_row violation node scanId url
                       (ScanService.mapImpactToSeverity (ScanService.impact violation))
                       selector screenshotBase64 in
          ScanService.bind (ScanService.send (ScanService.InsertIssue row))
            (fun _ =>
               if ScanService.insert_error env row
               then ScanService.ret tt
               else ScanService.push
                      {| severity :=
                           ScanService.mapImpactToSeverity (ScanService.impact violation) |})))
    (fun nodeError => ScanService.ret tt) l s
  = ((l ++ ScanService.saved env [ScanService.node_row env scanId url violation node],
      {| ScanService.browser := ScanService.browser s;
         ScanService.log :=
           ScanService.log s
           ++ [ScanService.InsertIssue (ScanService.node_row env scanId url violation node)] |}),
     Returned tt).
Proof.
  unfold ScanService.node_row, ScanService.saved.
  cbv zeta. cbn [List.filter List.map].
  unfold ScanService.try_catch, ScanService.bind, ScanService.await,
    ScanService.send, ScanService.ret, ScanService.push, ScanService.get_locals,
    ScanService.set_locals.
  destruct (ScanService.element_screenshot env (head (ScanService.target node)))
    as [b|e]; cbn [fst snd];
    match goal with
    | |- context [ScanService.insert_error env ?row] =>
      destruct (ScanService.insert_error env row)
    end; cbn [negb List.map fst snd ScanService.row_severity ScanService.issue_row];
    rewrite ?app_nil_r; reflexivity.
Qed.

(** [processViolations], run. *)
Lemma processViolations_run {L} env violations scanId url (l : L) s :
  ScanService.processViolations env violations scanId url l s
  = ((l, {| ScanService.browser := ScanService.browser s;
            ScanService.log :=
              ScanService.log s
              ++ List.map ScanService.InsertIssue
                   (ScanService.node_rows env scanId url violations) |}),
     Returned (ScanService.saved env (ScanService.node_rows env scanId url violations))).
Proof.
  unfold ScanService.processViolations, ScanService.call.
  rewrite service_bind_unfold.
  rewrite (service_for_of_run violations _
             (fun v => ScanService.saved env
                         (List.map (ScanService.node_row env scanId url v)
                                   (ScanService.nodes v)))
             (fun v => List.map ScanService.InsertIssue
                         (List.map (ScanService.node_row env scanId url v)
                                   (ScanService.nodes v)))).
  - cbv beta iota delta [fst snd]. cbn [app].
    unfold ScanService.bind, ScanService.get_locals, ScanService.ret. cbn [fst snd].
    unfold ScanService.node_rows.
    f_equal; [f_equal; f_equal; f_equal|f_equal].
    + induction violations as [|v vs IH]; [reflexivity|].
      cbn [flat_map]. now rewrite List.map_app, IH.
    + induction violations as [|v vs IH]; [reflexivity|].
      cbn [flat_map]. now rewrite saved_app, IH.
  - intros v l0 s0. cbv zeta.
    rewrite (service_for_of_run (ScanService.nodes v) _
               (fun node => ScanService.saved env [ScanService.node_row env scanId url v node])
               (fun node => [ScanService.InsertIssue
                               (ScanService.node_row env scanId url v node)])).
    + f_equal. f_equal; [f_equal|f_equal; f_equal].
      * induction (ScanService.nodes v) as [|n ns IH]; [reflexivity|].
        cbn [flat_map List.map].
        change (ScanService.node_row env scanId url v n
                :: List.map (ScanService.node_row env scanId url v) ns)
          with ([ScanService.node_row env scanId url v n]
                ++ List.map (ScanService.node_row env scanId url v) ns).
        now rewrite saved_app, IH.
      * induction (ScanService.nodes v) as [|n ns IH]; [reflexivity|].
        cbn [flat_map List.map app]. now rewrite IH.
    + intros node l1 s1. apply node_run.
Qed.

Lemma service_severity_known impact :
  known_severity (ScanService.mapImpactToSeverity impact).
Proof.
  unfold ScanService.mapImpactToSeverity. cbv zeta.
  change (list_to_map [("critical", "critical"); ("serious", "high");
                       ("moderate", "medium"); ("minor", "low")])
    with AccessibilityScanner.mapping.
  rewrite mapping_lookup. unfold known_severity.
  destruct (String.eqb impact "critical"); [left; reflexivity|].
  destruct (String.eqb impact "serious"); [right; left; reflexivity|].
  destruct (String.eqb impact "moderate"); [right; right; left; reflexivity|].
  destruct (String.eqb impact "minor"); [right; right; right; reflexivity|].
  right; right; left; reflexivity.
Qed.

(** X18. [processViolations] never throws. It inserts one [qa_issues] row
    for every node of every violation, in order, whether or not the
    screenshot of the element could be taken (the row then has no
    screenshot), and returns the issues of the rows the store took, each
    with one of the four severities: a row the store refuses is sent but
    not counted. *)
Theorem processViolations_counts_saved_rows {L} env violations scanId url (l : L) s :
  let run := ScanService.processViolations env violations scanId url l s in
  let rows := ScanService.node_rows env scanId url violations in
  ScanService.log (snd (fst run))
  = ScanService.log s ++ List.map ScanService.InsertIssue rows /\
  length rows
  = length (flat_map ScanService.nodes violations) /\
  (exists issues,
      snd run = Returned issues /\
      issues
      = List.map (fun row => {| severity := ScanService.row_severity row |})
          (List.filter (fun row => negb (ScanService.insert_error env row)) rows) /\
      (length issues <= length rows)%nat /\
      Forall known_severity (List.map severity issues)) /\
  Forall (fun row =>
            ScanService.screenshot row = None \/
            exists node b,
              ScanService.element_screenshot env (head (ScanService.target node))
              = Returned b /\
              ScanService.screenshot row = Some ("data:image/png;base64," +:+ b))
         rows.
Proof.
  cbv zeta. rewrite processViolations_run. cbn [fst snd ScanService.log].
  split; [reflexivity|]. split; [|split].
  - unfold ScanService.node_rows.
    induction violations as [|v vs IH]; [reflexivity|].
    cbn [flat_map]. now rewrite !length_app, length_map, IH.
  - eexists. split; [reflexivity|]. split; [reflexivity|]. split.
    + unfold ScanService.saved. rewrite length_map. apply filter_length_le.
    + unfold ScanService.saved. rewrite List.map_map. cbn [severity].
      apply List.Forall_map.
      apply List.Forall_forall. intros row Hin.
      apply List.filter_In in Hin as [Hin _].
      unfold ScanService.node_rows in Hin.
      apply in_flat_map in Hin as (v & _ & Hin).
      apply in_map_iff in Hin as (node & <- & _).
      apply service_severity_known.
  - apply List.Forall_forall. intros row Hin.
    unfold ScanService.node_rows in Hin.
    apply in_flat_map in Hin as (v & _ & Hin).
    apply in_map_iff in Hin as (node & <- & _).
    unfold ScanService.node_row, ScanService.issue_row. cbn [ScanService.screenshot].
    destruct (ScanService.element_screenshot env (head (ScanService.target node)))
      as [b|e] eqn:Hshot; [|auto].
    destruct (truthy b); [|auto]. right. eauto.
Qed.

Lemma runAccessibilityScan_run {L} env (l : L) s :
  ScanService.runAccessibilityScan env l s
  = ((l, s), Returned (ScanService.analysed env)).
Proof.
  unfold ScanService.runAccessibilityScan, ScanService.analysed,
    ScanService.try_catch, ScanService.bind, ScanService.await, ScanService.ret.
  destruct (ScanService.addScriptTag env) as [[]|e]; [|reflexivity].
  cbn [fst snd]. destruct (ScanService.axe_run env); reflexivity.
Qed.

(** One request is sent. *)
Ltac service_send :=
  rewrite service_bind_unfold;
  unfold ScanService.updateScanStatus, ScanService.createTestRecord,
    ScanService.completeScan;
  cbv zeta; unfold ScanService.send at 1;
  cbv beta iota delta [fst snd]; cbn [ScanService.browser ScanService.log].

(** The [catch] block: the scan is failed and the error thrown again. *)
Ltac service_failed :=
  unfold ScanService.failScan, ScanService.bind, ScanService.send, ScanService.throw;
  cbn [fst snd ScanService.browser ScanService.log app];
  rewrite <- ?app_assoc; reflexivity.

(** An awaited call of the set-up. *)
Ltac service_await o :=
  rewrite service_bind_unfold; unfold ScanService.await at 1;
  destruct o as [[]|?e]; cbv beta iota delta [fst snd]; [|service_failed].

(** The scan, once the browser is there. *)
Ltac service_scan env :=
  service_await (ScanService.newContext env);
  service_await (ScanService.newPage env);
  service_await (ScanService.page_goto env);
  service_send;
  rewrite service_bind_unfold, runAccessibilityScan_run;
  cbv beta iota delta [fst snd];
  service_send;
  rewrite service_bind_unfold, processViolations_run;
  cbv beta iota delta [fst snd]; cbn [ScanService.browser ScanService.log];
  service_send; service_send; service_send;
  unfold ScanService.await;
  destruct (ScanService.context_close env) as [[]|?e];
  [ cbn [app]; rewrite <- ?app_assoc; rewrite ?app_nil_r; reflexivity
  | service_failed ].

(** One call of [performScan]. *)
Lemma performScan_run {L} env request (l : L) b :
  let sid := ScanService.scanId request in
  let rows :=
    ScanService.node_rows env sid (ScanService.url request) (ScanService.analysed env) in
  let issuesCreated := ScanService.saved env rows in
  ScanService.performScan env request l
    {| ScanService.browser := b; ScanService.log := [] |}
  = match ScanService.setup env b with
    | Threw e =>
      ((l, {| ScanService.browser :=
                if b then true
                else match ScanService.launch env with
                     | Returned _ => true
                     | Threw _ => false
                     end;
              ScanService.log :=
                [ScanService.UpdateScan sid "running" 0;
                 ScanService.FailScan sid (message_of e)] |}),
       Threw e)
    | Returned _ =>
      ((l, {| ScanService.browser := true;
              ScanService.log :=
                ScanService.UpdateScan sid "running" 0
                :: ScanService.UpdateScan sid "running" 20
                :: ScanService.UpdateScan sid "running" 40
                :: List.map ScanService.InsertIssue rows
                ++ [ScanService.UpdateScan sid "running" 80;
                    ScanService.InsertTest sid "Accessibility Audit" "accessibility"
                      "completed"
                      (Z.max 0 (100 - Z.of_nat (length issuesCreated) * 5)) 100;
                    ScanService.CompleteScan sid
                      {| totalIssues := Z.of_nat (length issuesCreated);
                         criticalIssues :=
                           Z.of_nat
                             (length
                                (List.filter
                                   (fun i => String.eqb (severity i) "critical"
                                             || String.eqb (severity i) "high")
                                   issuesCreated));
                         overallScore := ScanService.calculateScore issuesCreated;
                         completedTests := 1;
                         totalTests := 1 |}]
                ++ match ScanService.context_close env with
                   | Returned _ => []
                   | Threw e => [ScanService.FailScan sid (message_of e)]
                   end |}),
       ScanService.context_close env)
    end.
Proof.
  cbv zeta. unfold ScanService.performScan, ScanService.setup. cbv zeta.
  unfold ScanService.try_catch at 1.
  service_send.
  rewrite service_bind_unfold. unfold ScanService.get_store at 1.
  cbv beta iota delta [fst snd]. cbn [ScanService.browser].
  rewrite service_bind_unfold.
  destruct b; cbn [negb].
  - unfold ScanService.ret at 1. cbv beta iota delta [fst snd].
    service_scan env.
  - unfold ScanService.initialize at 1.
    rewrite service_bind_unfold. unfold ScanService.await at 1.
    destruct (ScanService.launch env) as [[]|e]; cbv beta iota delta [fst snd];
      [|service_failed].
    unfold ScanService.set_browser at 1. cbv beta iota delta [fst snd].
    cbn [ScanService.browser ScanService.log].
    service_scan env.
Qed.

(** The service scores as the orchestrator does. *)
Lemma calculateScore_same (issues : list Issue) :
  ScanService.calculateScore issues = calculateOverallScore issues.
Proof. reflexivity. Qed.

(** X19. [performScan] ends every scan it starts, and throws again what it
    caught. When it returns, its requests are the progress updates 0, 20
    and 40, the inserts of the rows, the progress update 80, the insert of a
    completed Accessibility Audit test whose score is 100 less 5 for every
    row the store took (and never below 0), and the completion of the scan
    with a summary that counts those rows as its issues, has a score between
    0 and 100, and one test done of one. When it throws, its last request fails the scan with the
    message of the error thrown. *)
Theorem performScan_ends_the_scan {L} env request (l : L) b :
  let sid := ScanService.scanId request in
  let reqs := ScanService.requests env request l b in
  match ScanService.thrown env request l b with
  | Returned _ =>
    exists rows summary,
      let n :=
        Z.of_nat (length (List.filter
                            (fun row => negb (ScanService.insert_error env row)) rows)) in
      reqs
      = [ScanService.UpdateScan sid "running" 0;
         ScanService.UpdateScan sid "running" 20;
         ScanService.UpdateScan sid "running" 40]
        ++ List.map ScanService.InsertIssue rows
        ++ [ScanService.UpdateScan sid "running" 80;
            ScanService.InsertTest sid "Accessibility Audit" "accessibility"
              "completed" (Z.max 0 (100 - 5 * n)) 100;
            ScanService.CompleteScan sid summary] /\
      totalIssues summary = n /\
      0 <= criticalIssues summary <= n /\
      0 <= overallScore summary <= 100 /\
      completedTests summary = 1 /\ totalTests summary = 1
  | Threw e => last reqs = Some (ScanService.FailScan sid (message_of e))
  end.
Proof.
  cbv zeta. unfold ScanService.requests, ScanService.thrown.
  pose proof (performScan_run env request l b) as Hrun. cbv zeta in Hrun.
  rewrite Hrun. clear Hrun.
  destruct (ScanService.setup env b) as [[]|e]; cbn [fst snd ScanService.log];
    [|reflexivity].
  destruct (ScanService.context_close env) as [[]|e].
  - eexists _, _. split; [|split; [|split; [|split; [|split]]]].
    + cbn [app]. unfold ScanService.saved.
      rewrite length_map, Z.mul_comm. reflexivity.
    + cbn [totalIssues]. unfold ScanService.saved. now rewrite ?length_map.
    + cbn [criticalIssues]. split; [lia|].
      apply inj_le. etransitivity; [apply filter_length_le|].
      unfold ScanService.saved. now rewrite ?length_map.
    + cbn [overallScore]. rewrite calculateScore_same, calculateOverallScore_spec.
      unfold spec_score.
      match goal with
      | |- context [total_weight ?found] => pose proof (total_weight_nonneg found)
      end.
      lia.
    + reflexivity.
    + reflexivity.
  - rewrite !app_comm_cons, !app_assoc. apply last_snoc.
Qed.

(** X20. An analysis that fails is swallowed: when injecting or running axe
    throws, a scan whose set-up succeeds inserts no row and is completed
    with no issue and the scores 100, as if the page had no violation. *)
Theorem failed_analysis_completes_clean {L} env request (l : L) b e :
  ScanService.addScriptTag env = Threw e \/ ScanService.axe_run env = Threw e ->
  ScanService.setup env b = Returned tt ->
  ScanService.context_close env = Returned tt ->
  let sid := ScanService.scanId request in
  ScanService.thrown env request l b = Returned tt /\
  ScanService.requests env request l b
  = [ScanService.UpdateScan sid "running" 0;
     ScanService.UpdateScan sid "running" 20;
     ScanService.UpdateScan sid "running" 40;
     ScanService.UpdateScan sid "running" 80;
     ScanService.InsertTest sid "Accessibility Audit" "accessibility" "completed" 100 100;
     ScanService.CompleteScan sid
       {| totalIssues := 0; criticalIssues := 0; overallScore := 100;
          completedTests := 1; totalTests := 1 |}].
Proof.
  intros Hthrows Hsetup Hclose. cbv zeta.
  unfold ScanService.requests, ScanService.thrown.
  pose proof (performScan_run env request l b) as Hrun. cbv zeta in Hrun.
  rewrite Hrun, Hsetup, Hclose. clear Hrun.
  assert (Hnone : ScanService.analysed env = []).
  { unfold ScanService.analysed.
    destruct Hthrows as [->| ->]; [reflexivity|].
    now destruct (ScanService.addScriptTag env). }
  rewrite Hnone. split; reflexivity.
Qed.

Lemma failed_analysis_completes_clean_witness :
  ScanService.thrown no_axe old_request tt false = Returned tt.
Proof.
  destruct (failed_analysis_completes_clean no_axe old_request tt false
              (ErrorObj "Cannot find module 'axe-core/axe.min.js'")
              (or_introl eq_refl) eq_refl eq_refl)
    as (Hreturns & _).
  exact Hreturns.
Defined.

(** One call of the first handler. *)
Lemma first_service_run URL_parses env body s :
  ScanService.post_api_scan URL_parses env body tt s
  = if Server.acceptable URL_parses body
    then
      ((tt, snd (fst (ScanService.performScan env (ScanService.request_of body) tt s))),
       Returned {| Server.code := 200;
                   Server.json :=
                     Server.Accepted (default "" (Server.scanId body))
                       "Scan started successfully" |})
    else
      ((tt, s),
       Returned {| Server.code := 400;
                   Server.json :=
                     Server.Failure
                       (if truthy_opt (Server.url body) && truthy_opt (Server.scanId body)
                           && truthy_opt (Server.userId body)
                        then "Invalid URL format"
                        else "Missing required fields: url, scanId, userId") |}).
Proof.
  unfold ScanService.post_api_scan, Server.acceptable, ScanService.try_catch,
    ScanService.bind.
  destruct (truthy_opt (Server.url body)); cbn [negb orb andb];
    [destruct (truthy_opt (Server.scanId body)); cbn [negb orb andb];
     [destruct (truthy_opt (Server.userId body)); cbn [negb orb andb]|]|];
    try reflexivity.
  destruct (URL_parses (default "" (Server.url body)));
    cbn [fst snd ScanService.ret ScanService.throw negb]; [|reflexivity].
  destruct (ScanService.performScan env (ScanService.request_of body) tt s)
    as [[[] s'] [[]|e]]; reflexivity.
Qed.

(** X21. The first [POST /api/scan] answers an acceptable body ([url],
    [scanId], [userId] present and not empty, a URL that parses) with 200
    and the scan's id whatever becomes of the scan: the error [performScan]
    throws again, after failing the scan in the store, is caught by the
    handler and never reaches the reply. Any other body is answered 400 and
    nothing is sent to the store. *)
Theorem first_service_hides_scan_failure URL_parses env body b :
  let run :=
    ScanService.post_api_scan URL_parses env body tt
      {| ScanService.browser := b; ScanService.log := [] |} in
  if Server.acceptable URL_parses body
  then
    snd run
    = Returned {| Server.code := 200;
                  Server.json :=
                    Server.Accepted (default "" (Server.scanId body))
                      "Scan started successfully" |} /\
    ScanService.log (snd (fst run))
    = ScanService.requests env (ScanService.request_of body) tt b /\
    (forall e,
        ScanService.thrown env (ScanService.request_of body) tt b = Threw e ->
        last (ScanService.log (snd (fst run)))
        = Some (ScanService.FailScan (default "" (Server.scanId body)) (message_of e)))
  else
    (exists error,
        snd run
        = Returned {| Server.code := 400; Server.json := Server.Failure error |}) /\
    ScanService.log (snd (fst run)) = [].
Proof.
  cbv zeta. rewrite first_service_run.
  destruct (Server.acceptable URL_parses body); cbn [fst snd ScanService.log];
    [|split; [eauto|reflexivity]].
  split; [reflexivity|]. split; [reflexivity|].
  unfold ScanService.thrown.
  pose proof (performScan_run env (ScanService.request_of body) tt b) as Hrun.
  cbv zeta in Hrun. rewrite Hrun. clear Hrun.
  destruct (ScanService.setup env b) as [[]|e]; cbn [fst snd ScanService.log].
  - intros e' ->.
    rewrite !app_comm_cons, !app_assoc. apply last_snoc.
  - intros e' [= <-]. reflexivity.
Qed.

(** ** The start-scan function *)

Section StartScanProperties.

Variable URL_parses : string -> bool.

(** X22. Whatever the request and the answers of the world, start-scan
    sends at most two requests to the store: the insert of one scan row,
    queued, at progress 0, for a URL that parses, possibly followed by the
    failure of that scan. The scan is failed only when the scan service
    answered and its answer was not OK, and the reply is then 500. In
    particular a row created while the service is not configured (reply
    503) or while the call to the service throws (reply 500) stays
    queued. *)
Theorem start_scan_fails_only_refused_scans (env : StartScan.Env) :
  let sent := fst (StartScan.serve URL_parses env) in
  let response := snd (StartScan.serve URL_parses env) in
  (sent = [] /\ StartScan.code response <> 503) \/
  exists row,
    StartScan.i_status row = "queued" /\ StartScan.i_progress row = 0 /\
    URL_parses (StartScan.i_url row) = true /\
    ((sent = [StartScan.InsertScan row] /\
      (StartScan.code response = 200 \/ StartScan.code response = 500 \/
       StartScan.code response = 503) /\
      (truthy_opt (StartScan.SCAN_SERVICE_URL env) = false ->
       StartScan.code response <> 200)) \/
     exists scan body scanResponse,
       sent = [StartScan.InsertScan row; StartScan.FailScan (StartScan.id scan)
                 match StartScan.text scanResponse with
                 | Returned t => t
                 | Threw _ => "Unknown error"
                 end] /\
       truthy_opt (StartScan.SCAN_SERVICE_URL env) = true /\
       fst (StartScan.insert env row) = Some scan /\
       StartScan.fetch env body = Returned scanResponse /\
       StartScan.ok scanResponse = false /\
       StartScan.code response = 500).
Proof.
  cbv zeta. unfold StartScan.serve, StartScan.internal.
  destruct (String.eqb (StartScan.method env) "OPTIONS"); [left; split; [reflexivity|discriminate]|].
  destruct (StartScan.createClient env) as [[]|e]; [|left; split; [reflexivity|discriminate]].
  destruct (truthy_opt (StartScan.Authorization env)); cbn [negb];
    [|left; split; [reflexivity|discriminate]].
  destruct (StartScan.getUser env) as [[[user|] []]|e];
    try (left; split; [reflexivity|discriminate]).
  destruct (StartScan.req_json env) as [body|e];
    [|left; split; [reflexivity|discriminate]].
  destruct (truthy_opt (StartScan.url body)); cbn [negb];
    [|left; split; [reflexivity|discriminate]].
  destruct (URL_parses (default "" (StartScan.url body))) eqn:Hurl; cbn [negb];
    [|left; split; [reflexivity|discriminate]].
  right.
  match goal with
  | |- context [StartScan.insert env ?r] => exists r; set (row := r)
  end.
  split; [reflexivity|]. split; [reflexivity|]. split; [exact Hurl|].
  destruct (StartScan.insert env row) as [[scan|] []] eqn:Hinsert; cbn [fst snd];
    try (left; split; [reflexivity|]; split; [auto|]; intros _; discriminate).
  destruct (truthy_opt (StartScan.SCAN_SERVICE_URL env)) eqn:Hconf; cbn [negb];
    [|left; split; [reflexivity|]; split; [auto|]; intros _; discriminate].
  match goal with
  | |- context [StartScan.fetch env ?b] => set (posted := b)
  end.
  destruct (StartScan.fetch env posted) as [scanResponse|e] eqn:Hfetch;
    [|left; split; [reflexivity|]; split; [auto|]; discriminate].
  destruct (StartScan.ok scanResponse) eqn:Hok; cbn [negb fst snd].
  - left. split; [reflexivity|]. split; [auto|]. discriminate.
  - right. exists scan, posted, scanResponse. repeat split; auto.
Qed.

(** X23. The scan service never refuses what start-scan posts: when the
    call to the service is answered by [POST /api/scan] itself, and the
    store created the scan row under a non-empty id for a user with a
    non-empty id, the service accepts the body, whose URL it parses as
    start-scan did, and start-scan answers 200 with the scan's id, leaving
    the row queued for the service to run. *)
Theorem start_scan_is_accepted_by_the_service senv (w : World) env row scan rest :
  StartScan.fetch env = StartScan.service URL_parses senv w ->
  truthy_opt (StartScan.SCAN_SERVICE_URL env) = true ->
  fst (StartScan.serve URL_parses env) = StartScan.InsertScan row :: rest ->
  StartScan.insert env row = (Some scan, false) ->
  truthy (StartScan.id scan) = true ->
  truthy (StartScan.created_by row) = true ->
  StartScan.serve URL_parses env
  = ([StartScan.InsertScan row],
     {| StartScan.code := 200;
        StartScan.json :=
          StartScan.Started (StartScan.id scan) (StartScan.scan_url scan)
            (StartScan.scan_status scan) |}).
Proof.
  intros Hfetch Hurl. unfold StartScan.serve, StartScan.internal.
  destruct (String.eqb (StartScan.method env) "OPTIONS"); [discriminate|].
  destruct (StartScan.createClient env) as [[]|e]; [|discriminate].
  destruct (truthy_opt (StartScan.Authorization env)); cbn [negb]; [|discriminate].
  destruct (StartScan.getUser env) as [[[user|] []]|e]; try discriminate.
  destruct (StartScan.req_json env) as [body|e]; [|discriminate].
  destruct body as [[u|] project client settings];
    cbn [StartScan.url StartScan.projectId StartScan.clientId StartScan.settings
         truthy_opt negb]; [|discriminate].
  change (default "" (Some u)) with u.
  destruct (truthy u) eqn:Hsome; cbn [negb]; [|discriminate].
  destruct (URL_parses u) eqn:Hparses; cbn [negb]; [|discriminate].
  match goal with
  | |- context [StartScan.insert env ?r] => set (row' := r)
  end.
  intros Hsent Hinsert Hid Huser.
  assert (Hrow : row' = row).
  { destruct (StartScan.insert env row') as [[scan'|] []]; cbn [fst] in Hsent;
      try destruct (negb (truthy_opt (StartScan.SCAN_SERVICE_URL env)));
      repeat match type of Hsent with
             | context [match ?x with _ => _ end] => destruct x
             end;
      cbn [fst] in Hsent; congruence. }
  clear Hsent. rewrite Hrow, Hinsert, Hurl. cbn [negb].
  rewrite Hfetch. unfold StartScan.service.
  rewrite post_api_scan_run. unfold Server.acceptable.
  cbn [Server.url Server.scanId Server.userId truthy_opt].
  change (default "" (Some u)) with u.
  rewrite Hsome, Hid, Hparses.
  replace (truthy user) with true by (rewrite <- Huser, <- Hrow; reflexivity).
  reflexivity.
Qed.

End StartScanProperties.

Lemma start_scan_is_accepted_by_the_service_witness :
  snd (StartScan.serve has_scheme
         (plain_request (StartScan.service has_scheme example_env (start false))))
  = {| StartScan.code := 200;
       StartScan.json := StartScan.Started "scan-1" "https://example.com" "queued" |}.
Proof.
  pose proof (start_scan_is_accepted_by_the_service has_scheme example_env (start false)
                (plain_request (StartScan.service has_scheme example_env (start false)))
                {| StartScan.i_url := "https://example.com";
                   StartScan.i_status := "queued";
                   StartScan.i_progress := 0;
                   StartScan.project_id := None;
                   StartScan.client_id := None;
                   StartScan.i_settings := {| tests := None |};
                   StartScan.summary :=
                     {| totalIssues := 0; criticalIssues := 0; overallScore := 0;
                        completedTests := 0; totalTests := 1 |};
                   StartScan.created_by := "user-1" |}
                {| StartScan.id := "scan-1";
                   StartScan.scan_url := "https://example.com";
                   StartScan.scan_status := "queued" |}
                []
                eq_refl eq_refl) as H.
  rewrite H; reflexivity.
Defined.

(** An awaited call that returns hands its value on. *)
Lemma bind_await_returned {L A B} (a : A) (k : A -> Eff L B) :
  bind (await (Returned a)) k = k a.
Proof. reflexivity. Qed.

(** X24. The two versions of the SEO scanner agree. On the same page (the
    same TestRun record, title and number of H1 elements), when the version
    that counts the meta description elements finds some and both read the
    same content, or finds none and the other version's read of the content
    throws or yields nothing, the two send the same requests and return the
    same issues: a throw while reading the meta description is reported as
    a missing meta description and does not fail the module. *)
Theorem seo_versions_agree (env : SEOScanner.Env) (alt : SEOScannerAlt.Env)
  url sid t title metaCount h1Count :
  SEOScanner.test env = Some t -> SEOScannerAlt.test alt = Some t ->
  SEOScanner.page_title env = Returned title ->
  SEOScannerAlt.page_title alt = Returned title ->
  SEOScanner.h1_count env = Returned h1Count ->
  SEOScannerAlt.h1_count alt = Returned h1Count ->
  SEOScanner.meta_count env = Returned metaCount ->
  match metaCount with
  | O =>
    (exists e, SEOScannerAlt.meta_content alt = Threw e) \/
    SEOScannerAlt.meta_content alt = Returned None
  | S _ =>
    exists content,
      SEOScanner.meta_content env = Returned content /\
      SEOScannerAlt.meta_content alt = Returned content
  end ->
  sent (SEOScannerAlt.scan alt url sid) = sent (SEOScanner.scan env url sid) /\
  returned (SEOScannerAlt.scan alt url sid) = returned (SEOScanner.scan env url sid).
Proof.
  destruct env as [test pt mc mcont h1], alt as [test' pt' mcont' h1'].
  cbn [SEOScanner.test SEOScanner.page_title SEOScanner.meta_count
       SEOScanner.meta_content SEOScanner.h1_count
       SEOScannerAlt.test SEOScannerAlt.page_title SEOScannerAlt.meta_content
       SEOScannerAlt.h1_count].
  intros -> -> -> -> -> -> -> Hmeta.
  unfold sent, returned, SEOScanner.scan, SEOScannerAlt.scan.
  rewrite !skeleton_run.
  unfold SEOScanner.scan_try, SEOScannerAlt.scan_try, SEOScanner.createIssue,
    SEOScannerAlt.createIssue.
  cbn [SEOScanner.test SEOScanner.page_title SEOScanner.meta_count
       SEOScanner.meta_content SEOScanner.h1_count
       SEOScannerAlt.test SEOScannerAlt.page_title SEOScannerAlt.meta_content
       SEOScannerAlt.h1_count].
  rewrite !bind_unfold, !run_insert_test. cbv beta iota delta [fst snd].
  rewrite !bind_unfold, !run_assign. cbv beta iota delta [fst snd].
  rewrite !bind_await_returned. cbv beta.
  assert (Hcases :
            forall P : bool -> bool -> bool -> bool -> Prop,
              (forall a b c d, P a b c d) ->
              P (truthy title) (Nat.ltb 60 (String.length title))
                (Nat.eqb h1Count 0) (Nat.ltb 1 h1Count)) by auto.
  destruct metaCount as [|n].
  - destruct Hmeta as [(e & ->)| ->]; rewrite ?bind_await_returned; cbv beta;
      pattern (truthy title), (Nat.ltb 60 (String.length title)),
              (Nat.eqb h1Count 0), (Nat.ltb 1 h1Count);
      apply Hcases; intros [] [] [] []; split; reflexivity.
  - destruct Hmeta as (content & -> & ->). rewrite !bind_await_returned. cbv beta.
    destruct (truthy_opt content);
      [destruct (Nat.ltb 160 (String.length (default "" content)))|];
      pattern (truthy title), (Nat.ltb 60 (String.length title)),
              (Nat.eqb h1Count 0), (Nat.ltb 1 h1Count);
      apply Hcases; intros [] [] [] []; split; reflexivity.
Qed.

Lemma seo_versions_agree_witness :
  returned (SEOScannerAlt.scan bare_page_alt "http://example.com" "scan-1")
  = returned (SEOScanner.scan bare_page "http://example.com" "scan-1").
Proof.
  destruct (seo_versions_agree bare_page bare_page_alt "http://example.com" "scan-1"
              {| id := "test-seo" |} "" 0%nat 2%nat
              eq_refl eq_refl eq_refl eq_refl eq_refl eq_refl eq_refl
              (or_introl (ex_intro _ _ eq_refl)))
    as (_ & Hfound).
  exact Hfound.
Defined.
